(** * LayercodeClient: turn taking, audio gating and message dispatch

    A shallow embedding of the browser client of the Layercode JS SDK.
    Two revisions of the client class live in the repository and both are
    modelled here:

    - [Client]     the revision with the pre-speech audio buffer, the
                   amplitude fallback detector, [client.ready] and the
                   interruption report (src/unnamed/part_003);
    - [ClientPrev] the revision whose speech detector pauses playback
                   itself (src/src/index.ts).

    The player of the assistant's audio (WavStreamPlayer) and the audio
    worklet it feeds (stream_processor.js) are modelled beside them.

    The class is event driven: every method and every callback runs to
    completion on one thread.  A method is embedded as a computation in a
    small state / exception / trace monad [M]: it reads and writes the
    fields of the object, may throw, and appends the calls it makes on
    the outside world (console, socket, callbacks, audio worklet) to a
    trace.  An [async] method is cut at the [await]s that really suspend. *)

From Stdlib Require Import List String Bool Arith ZArith Lia PrimFloat.
From Stdlib Require Uint63.
Import ListNotations.
Open Scope string_scope.
Open Scope list_scope.

Set Implicit Arguments.
Set Warnings "-register-all,-inexact-float".

(* ------------------------------------------------------------------ *)
(** * JavaScript values                                                 *)
(* ------------------------------------------------------------------ *)

(** What [JSON.parse] can return, plus [undefined] for a property that is
    not there.  Numbers are binary64 floats, as in JavaScript. *)
Inductive value : Type :=
| VUndefined
| VNull
| VBool (b : bool)
| VNum (n : float)
| VStr (s : string)
| VArr (items : list value)
| VObj (fields : list (string * value)).

Inductive Exn : Type :=
| SyntaxError
| TypeError (msg : string)
| RangeError (msg : string)
| DataCloneError
| Error (msg : string).

(** [if (v)], [!v], [!!v]. *)
Definition truthy (v : value) : bool :=
  match v with
  | VUndefined | VNull => false
  | VBool b => b
  | VNum n => negb (PrimFloat.eqb n 0%float || PrimFloat.is_nan n)
  | VStr s => negb (String.eqb s "")
  | VArr _ | VObj _ => true
  end.

(** [v === 'literal']. *)
Definition is_str (v : value) (lit : string) : bool :=
  match v with
  | VStr s => String.eqb s lit
  | _ => false
  end.

(** [a === b] where [b] was freshly parsed: two objects are never the
    same reference. *)
Definition strict_eq (a b : value) : bool :=
  match a, b with
  | VUndefined, VUndefined => true
  | VNull, VNull => true
  | VBool x, VBool y => Bool.eqb x y
  | VNum x, VNum y => PrimFloat.eqb x y
  | VStr x, VStr y => String.eqb x y
  | _, _ => false
  end.

Fixpoint lookup (k : string) (fields : list (string * value)) : value :=
  match fields with
  | [] => VUndefined
  | (k', v) :: rest => if String.eqb k k' then v else lookup k rest
  end.

(** [typeof v === 'string'] *)
Definition typeof_string (v : value) : bool :=
  match v with VStr _ => true | _ => false end.

(** ** Plain objects used as maps

    An object made with [{}] inherits the properties of
    [Object.prototype]: reading [obj[key]] for one of these keys yields
    the inherited value when the object has no own property of that
    name.  The methods are functions; [__proto__] is an accessor that
    reads [Object.prototype] itself.  All of them are truthy. *)
Definition Object_prototype_methods : list string :=
  ["constructor"; "hasOwnProperty"; "isPrototypeOf"; "propertyIsEnumerable";
   "toLocaleString"; "toString"; "valueOf";
   "__defineGetter__"; "__defineSetter__";
   "__lookupGetter__"; "__lookupSetter__"].

Definition inherited_method (key : string) : bool :=
  existsb (String.eqb key) Object_prototype_methods.

(** [key in Object.prototype] *)
Definition inherited (key : string) : bool :=
  String.eqb key "__proto__" || inherited_method key.

(** [obj[key] = v] with [v] a boolean, a number or a string makes an own
    property, except under [__proto__], whose setter ignores a value
    that is neither an object nor null. *)
Definition makes_own_property (key : string) : bool :=
  negb (String.eqb key "__proto__").

(** Binary data: the bytes of an ArrayBuffer, the elements of an
    Int16Array. *)
Definition Int16Array : Type := list Z.
Definition ArrayBuffer : Type := list Z.

(* ------------------------------------------------------------------ *)
(** * Wire messages, client to server (interfaces.ts)                   *)
(* ------------------------------------------------------------------ *)

Inductive VadEvent : Type := vad_start | vad_end | vad_model_failed.

Inductive ClientMessage : Type :=
| ClientAudioMessage (content : string)
| ClientTriggerTurnStart
| ClientTriggerTurnEnd
| ClientTriggerResponseAudioReplayFinishedMessage
| ClientTriggerResponseAudioInterruptedMessage
    (playback_offset : float) (turn_id : value) (playback_offset_ms : float)
| ClientVadEventsMessage (event : VadEvent)
| ClientReadyMessage.

Definition message_type (m : ClientMessage) : string :=
  match m with
  | ClientAudioMessage _ => "client.audio"
  | ClientTriggerTurnStart => "trigger.turn.start"
  | ClientTriggerTurnEnd => "trigger.turn.end"
  | ClientTriggerResponseAudioReplayFinishedMessage =>
      "trigger.response.audio.replay_finished"
  | ClientTriggerResponseAudioInterruptedMessage _ _ _ =>
      "trigger.response.audio.interrupted"
  | ClientVadEventsMessage _ => "vad_events"
  | ClientReadyMessage => "client.ready"
  end.

(* ------------------------------------------------------------------ *)
(** * The outside world: what a handler can be seen to do               *)
(* ------------------------------------------------------------------ *)

Inductive Level : Type := LLog | LDebug | LWarn | LError.

Inductive Status : Type := disconnected | connecting | connected | error.

Inductive LogArg : Type :=
| AVal (v : value)
| AMsg (m : ClientMessage)
| AExn (e : Exn)
| ABool (b : bool)
| ANat (n : nat).

(** What the player posts to its worklet.  The [buffer] of a write is
    the Int16Array made over the bytes of the ArrayBuffer given here. *)
Inductive WorkletMsg : Type :=
| wk_write (buffer : ArrayBuffer) (trackId : string)
| wk_interrupt
| wk_pause
| wk_play.

Inductive Effect : Type :=
(* console.log / debug / warn / error: the constant text and the values *)
| Console (lvl : Level) (text : string) (args : list LogArg)
(* the WebSocket *)
| WsNew
| WsSend (frame : ClientMessage)
| WsClose
(* the callbacks of the host application (this.options.on...) *)
| OnConnect
| OnDisconnect
| OnError (e : Exn)
| OnDataMessage (m : value)
| OnStatusChange (s : Status)
| OnUserIsSpeakingChange (b : bool)
(* calls made on the player object, and messages posted to its worklet *)
| PlayerConnect
| PlayerDisconnect
| PlayerStartAmplitudeMonitoring
| PlayerPauseCalled
| PlayerPlayCalled
| PlayerInterruptCalled
| PortPostMessage (m : WorkletMsg)
(* the recorder, the speech detector engine and timers *)
| RecorderQuit
| RecorderBegin
| RecorderRecord
| RecorderStartAmplitudeMonitoring
| MicVADNew (interruptible : bool)
| VadStart
| VadPause
| VadDestroy
| SetTimeout (ms : nat)
| ClearTimeout
| Fetch.

Definition is_error_report (e : Effect) : bool :=
  match e with Console LError _ _ => true | _ => false end.

Definition is_debug_report (e : Effect) : bool :=
  match e with Console LDebug _ _ => true | _ => false end.

Definition is_error_callback (e : Effect) : bool :=
  match e with OnError _ => true | _ => false end.

Definition is_disconnect_callback (e : Effect) : bool :=
  match e with OnDisconnect => true | _ => false end.

Definition is_callback (e : Effect) : bool :=
  match e with
  | OnConnect | OnDisconnect | OnError _ | OnDataMessage _
  | OnStatusChange _ | OnUserIsSpeakingChange _ => true
  | _ => false
  end.

Definition is_status_change (e : Effect) : bool :=
  match e with OnStatusChange _ => true | _ => false end.

(** The frames that really went out on the socket, in order. *)
Fixpoint frames (t : list Effect) : list ClientMessage :=
  match t with
  | [] => []
  | WsSend m :: t' => m :: frames t'
  | _ :: t' => frames t'
  end.

Definition is_ready (m : ClientMessage) : bool :=
  match m with ClientReadyMessage => true | _ => false end.

Definition is_interrupted (m : ClientMessage) : bool :=
  match m with
  | ClientTriggerResponseAudioInterruptedMessage _ _ _ => true
  | _ => false
  end.

Definition count {A} (p : A -> bool) (l : list A) : nat := List.length (filter p l).

(* ------------------------------------------------------------------ *)
(** * The monad of handlers                                            *)
(* ------------------------------------------------------------------ *)

Inductive Outcome (A : Type) : Type :=
| Return (a : A)
| Throw (e : Exn).

Arguments Return {A} a.
Arguments Throw {A} e.

(** A computation on an object of type [S]: outcome, new object, and the
    effects it performed in order. *)
Definition M (S A : Type) : Type := S -> Outcome A * S * list Effect.

Definition ret {S A} (a : A) : M S A := fun s => (Return a, s, []).

Definition bind {S A B} (c : M S A) (k : A -> M S B) : M S B :=
  fun s =>
    match c s with
    | (Return a, s1, t1) =>
        match k a s1 with
        | (o, s2, t2) => (o, s2, t1 ++ t2)
        end
    | (Throw e, s1, t1) => (Throw e, s1, t1)
    end.

Definition throw {S A} (e : Exn) : M S A := fun s => (Throw e, s, []).

Definition try_catch {S A} (c : M S A) (h : Exn -> M S A) : M S A :=
  fun s =>
    match c s with
    | (Return a, s1, t1) => (Return a, s1, t1)
    | (Throw e, s1, t1) =>
        match h e s1 with
        | (o, s2, t2) => (o, s2, t1 ++ t2)
        end
    end.

Definition get {S} : M S S := fun s => (Return s, s, []).
Definition gets {S A} (f : S -> A) : M S A := fun s => (Return (f s), s, []).
Definition modify {S} (f : S -> S) : M S unit := fun s => (Return tt, f s, []).
Definition emit {S} (e : Effect) : M S unit := fun s => (Return tt, s, [e]).

Declare Scope js_scope.
Delimit Scope js_scope with js.
Notation "x <- c ;; k" := (bind c (fun x => k))
  (at level 61, c at next level, right associativity) : js_scope.
Notation "c ;; k" := (bind c (fun _ => k))
  (at level 61, right associativity) : js_scope.
Open Scope js_scope.

Definition when {S} (b : bool) (c : M S unit) : M S unit :=
  if b then c else ret tt.

(** [for (const x of xs) body(x)] *)
Fixpoint for_of {S A} (xs : list A) (body : A -> M S unit) : M S unit :=
  match xs with
  | [] => ret tt
  | x :: rest => body x ;; for_of rest body
  end.

Definition state_of {S A} (r : Outcome A * S * list Effect) : S := snd (fst r).
Definition trace_of {S A} (r : Outcome A * S * list Effect) : list Effect := snd r.
Definition outcome_of {S A} (r : Outcome A * S * list Effect) : Outcome A :=
  fst (fst r).

Definition returns {S A} (r : Outcome A * S * list Effect) : bool :=
  match outcome_of r with Return _ => true | Throw _ => false end.

(** [message.prop]: reading a property of [null] or [undefined] throws. *)
Definition get_prop {S} (v : value) (k : string) : M S value :=
  match v with
  | VUndefined | VNull => throw (TypeError "Cannot read properties")
  | VObj fields => ret (lookup k fields)
  | _ => ret VUndefined
  end.

Definition console {S} (lvl : Level) (text : string) (args : list LogArg)
  : M S unit := emit (Console lvl text args).

(* ------------------------------------------------------------------ *)
(** * The socket                                                       *)
(* ------------------------------------------------------------------ *)

Inductive ReadyState : Type := CONNECTING | OPEN | CLOSING | CLOSED.

Record WebSocket : Type := { readyState : ReadyState }.

(** [this.ws?.readyState === WebSocket.OPEN] *)
Definition ws_is_open (ws : option WebSocket) : bool :=
  match ws with
  | Some {| readyState := OPEN |} => true
  | _ => false
  end.

(** [ws.close()]: an open or connecting socket starts closing. *)
Definition ws_close (w : WebSocket) : WebSocket :=
  match readyState w with
  | CONNECTING | OPEN => {| readyState := CLOSING |}
  | s => {| readyState := s |}
  end.

(** The event carried to [onmessage]: [JSON.parse(event.data)] either
    throws a SyntaxError or yields a value. *)
Inductive MessageEvent : Type :=
| NotJson (data : string)
| Json (data : string) (parsed : value).

Definition JSON_parse {S} (ev : MessageEvent) : M S value :=
  match ev with
  | NotJson _ => throw SyntaxError
  | Json _ v => ret v
  end.

(** Running a computation of a part [S] on the whole [T] that holds it. *)
Definition lift {S T A} (proj : T -> S) (inj : S -> T -> T) (c : M S A)
  : M T A :=
  fun t =>
    match c (proj t) with
    | (o, s', tr) => (o, inj s' t, tr)
    end.

(** Swallow the outcome: a rejected promise of an [async] method, or a
    value nobody reads. *)
Definition settle {S A} (c : M S A) : M S unit :=
  fun s => match c s with (_, s', t) => (Return tt, s', t) end.

Definition of_outcome {S A} (o : Outcome A) : M S A :=
  match o with
  | Return a => ret a
  | Throw e => throw e
  end.

(* ------------------------------------------------------------------ *)
(** * WavStreamPlayer (wavtools)                                       *)
(* ------------------------------------------------------------------ *)

(** The fields the client can observe.  [context] and [analyser] are set
    by [connect()]; the model sets both when [connect()] has completed. *)
Record WavStreamPlayer : Type := mkPlayer {
  sampleRate : float;
  context : bool;
  stream : bool;
  analyser : bool;
  interruptedTrackIds : list string;
  isPlaying : bool
}.

Definition set_stream (b : bool) (p : WavStreamPlayer) : WavStreamPlayer :=
  mkPlayer (sampleRate p) (context p) b (analyser p)
           (interruptedTrackIds p) (isPlaying p).

Definition set_isPlaying (b : bool) (p : WavStreamPlayer) : WavStreamPlayer :=
  mkPlayer (sampleRate p) (context p) (stream p) (analyser p)
           (interruptedTrackIds p) b.

Definition set_interruptedTrackIds (ids : list string) (p : WavStreamPlayer)
  : WavStreamPlayer :=
  mkPlayer (sampleRate p) (context p) (stream p) (analyser p) ids (isPlaying p).

Definition set_connected (p : WavStreamPlayer) : WavStreamPlayer :=
  mkPlayer (sampleRate p) true (stream p) true (interruptedTrackIds p) true.

(** [new WavStreamPlayer({ sampleRate })] *)
Definition new_WavStreamPlayer (rate : float) : WavStreamPlayer :=
  mkPlayer rate false false false [] false.

Module Player.

(** [this.interruptedTrackIds[trackId]], read as a condition.  The
    field holds the own keys of the object; a key of [Object.prototype]
    reads as set whether or not it is among them. *)
Definition interrupted (trackId : value) (p : WavStreamPlayer) : bool :=
  match trackId with
  | VStr s => existsb (String.eqb s) (interruptedTrackIds p) || inherited s
  | _ => false
  end.

(** [obj[trackId] = true] on the own keys [ids] of [obj]. *)
Definition mark (trackId : string) (ids : list string) : list string :=
  if makes_own_property trackId then trackId :: ids else ids.

Definition clearInterruptedTracks (keepTrackIds : list value)
  : M WavStreamPlayer unit :=
  match keepTrackIds with
  | [] => modify (set_interruptedTrackIds [])
  | _ =>
      p <- get ;;
      let kept :=
        flat_map (fun k => match k with
                           | VStr s => if interrupted k p then mark s [] else []
                           | _ => []
                           end) keepTrackIds in
      modify (set_interruptedTrackIds kept)
  end.

(** [_start()]: needs the audio context and the analyser of [connect()]. *)
Definition _start : M WavStreamPlayer unit :=
  p <- get ;;
  if negb (context p) then throw (TypeError "context is null")
  else if negb (analyser p) then throw (TypeError "analyser is null")
  else modify (set_stream true) ;; modify (set_isPlaying true).

Definition byte_length_error : Exn :=
  RangeError "byte length of Int16Array should be a multiple of 2".

(** [new Int16Array(arrayBuffer)]: a view of the same bytes, refused when
    their number is odd. *)
Definition new_Int16Array (arrayBuffer : ArrayBuffer)
  : M WavStreamPlayer ArrayBuffer :=
  if Nat.odd (List.length arrayBuffer) then throw byte_length_error
  else ret arrayBuffer.

(** [add16BitPCM(arrayBuffer, trackId = "default")], given an
    ArrayBuffer as the client does. *)
Definition add16BitPCM (arrayBuffer : ArrayBuffer) (trackId : value)
  : M WavStreamPlayer unit :=
  match (match trackId with VUndefined => VStr "default" | v => v end) with
  | VStr id =>
      p <- get ;;
      if interrupted (VStr id) p then ret tt
      else
        when (negb (stream p)) _start ;;
        buffer <- new_Int16Array arrayBuffer ;;
        emit (PortPostMessage (wk_write buffer id))
  | _ => throw (Error "trackId must be a string")
  end.

(** What the worklet answers to an [interrupt] (or [offset]) request. *)
Record WorkletOffset : Type := { trackId : option string; offset : float }.

Record TrackSampleOffset : Type := mkOffset {
  tso_trackId : option string;
  tso_offset : float;
  currentTime : float
}.

(** [interrupt()] = [getTrackSampleOffset(true)] up to the poll loop:
    [false] when it returned [null] at once, [true] when a request was
    posted and the caller now waits for the worklet. *)
Definition interrupt_request : M WavStreamPlayer bool :=
  emit PlayerInterruptCalled ;;
  p <- get ;;
  if negb (stream p) then ret false
  else emit (PortPostMessage wk_interrupt) ;; ret true.

(** The poll loop has seen the worklet's answer: [currentTime] is
    [offset / sampleRate], the track is marked interrupted. *)
Definition interrupt_reply (r : WorkletOffset) : M WavStreamPlayer TrackSampleOffset :=
  p <- get ;;
  match trackId r with
  | Some id =>
      when (negb (String.eqb id ""))
        (modify (set_interruptedTrackIds (mark id (interruptedTrackIds p))))
  | None => ret tt
  end ;;
  ret (mkOffset (trackId r) (offset r) (PrimFloat.div (offset r) (sampleRate p))).

Definition pause : M WavStreamPlayer bool :=
  emit PlayerPauseCalled ;;
  p <- get ;;
  if negb (context p) || negb (stream p) || negb (isPlaying p) then ret false
  else
    emit (PortPostMessage wk_pause) ;;
    modify (set_isPlaying false) ;;
    console LLog "WavStreamPlayer: Paused via worklet message" [] ;;
    ret true.

(** [play()] from its test of [this.stream] on. *)
Definition play_stream : M WavStreamPlayer bool :=
  p <- get ;;
  if negb (stream p) then
    console LLog "WavStreamPlayer: No active stream to play. Call add16BitPCM to start a new stream." [] ;;
    ret false
  else if isPlaying p then ret true
  else
    emit (PortPostMessage wk_play) ;;
    modify (set_isPlaying true) ;;
    console LLog "WavStreamPlayer: Played via worklet message" [] ;;
    ret true.

(** [play()] up to the point where it is done or waits for
    [this.context.resume()].  [suspended] is
    [this.context.state === 'suspended'] at the time of the call (the
    browser suspends a context on its own); the result is [None] when the
    method waits. *)
Definition play (suspended : bool) : M WavStreamPlayer (option bool) :=
  emit PlayerPlayCalled ;;
  p <- get ;;
  if negb (context p) then ret (Some false)
  else if suspended then ret None
  else played <- play_stream ;; ret (Some played).

(** [this.context.resume()] has settled: the rest of [play()]. *)
Definition play_resumed (resumed : Outcome unit) : M WavStreamPlayer bool :=
  match resumed with
  | Return _ =>
      console LLog "WavStreamPlayer: AudioContext resumed" [] ;;
      play_stream
  | Throw err =>
      console LError "Error resuming AudioContext:" [AExn err] ;;
      ret false
  end.

Definition disconnect : M WavStreamPlayer unit :=
  emit PlayerDisconnect ;;
  modify (set_stream false) ;;
  modify (set_isPlaying false).

(** The worklet posted [stop]: the stream node is dropped and the
    finished-playing callback runs (the caller supplies it). *)
Definition on_stop : M WavStreamPlayer unit :=
  modify (set_stream false) ;;
  modify (set_isPlaying false).

End Player.

(* ------------------------------------------------------------------ *)
(** * The stream_processor audio worklet (wavtools)                    *)
(* ------------------------------------------------------------------ *)

Module StreamProcessor.

(** [this.write] and the entries of [this.outputBuffers]: a Float32Array
    and the track it is accounted to ([None] is [null]). *)
Record Chunk : Type := mkChunk {
  buffer : list float;
  trackId : option string
}.

(** What [this.trackSampleOffsets[trackId]] can read as.  The object is
    a plain [{}] used as a map from track ids to sample counts.  For a
    track id that names a property of [Object.prototype] and has no own
    entry, the read yields the inherited value: a method, or
    [Object.prototype] itself under [__proto__].  Adding a number to
    either gives a string, and so does adding a number to a string. *)
Inductive Offset : Type :=
| samples (n : nat)
| a_string
| a_method
| the_prototype.

(** [trackSampleOffsets] holds the own properties of the object. *)
Record StreamProcessor : Type := mkProcessor {
  hasStarted : bool;
  hasInterrupted : bool;
  isPaused : bool;
  outputBuffers : list Chunk;
  bufferLength : nat;
  write : Chunk;
  writeOffset : nat;
  trackSampleOffsets : list (string * Offset)
}.

(** [new Float32Array(n)] *)
Definition new_Float32Array (n : nat) : list float := repeat 0%float n.

Definition new_StreamProcessor : StreamProcessor :=
  mkProcessor false false false [] 128
    (mkChunk (new_Float32Array 128) None) 0 [].

(** [array[i] = x] on a typed array: a store past the end is ignored. *)
Fixpoint store (i : nat) (x : float) (array : list float) : list float :=
  match array, i with
  | [], _ => []
  | _ :: rest, O => x :: rest
  | y :: rest, S j => y :: store j x rest
  end.

(** The property key an id is turned into: [obj[null]] reads "null". *)
Definition key_of (id : option string) : string :=
  match id with
  | Some s => s
  | None => "null"
  end.

(** [this.trackSampleOffsets[trackId] || 0]: the own property if there
    is one, else what is inherited, else [undefined || 0].  A stored
    string is never empty. *)
Fixpoint offset_of (key : string) (offsets : list (string * Offset)) : Offset :=
  match offsets with
  | [] =>
      if String.eqb key "__proto__" then the_prototype
      else if inherited_method key then a_method
      else samples 0
  | (k, v) :: rest => if String.eqb key k then v else offset_of key rest
  end.

(** [offset + buffer.length] *)
Definition plus (offset : Offset) (n : nat) : Offset :=
  match offset with
  | samples m => samples (m + n)
  | _ => a_string
  end.

Fixpoint update (key : string) (v : Offset) (offsets : list (string * Offset))
  : list (string * Offset) :=
  match offsets with
  | [] => [(key, v)]
  | (k, w) :: rest =>
      if String.eqb key k then (k, v) :: rest
      else (k, w) :: update key v rest
  end.

(** [this.trackSampleOffsets[trackId] = v], [v] a number or a string. *)
Definition set_offset (key : string) (v : Offset)
    (offsets : list (string * Offset)) : list (string * Offset) :=
  if makes_own_property key then update key v offsets else offsets.

(** [postMessage] copies its argument with the structured clone
    algorithm, which throws on a function.  ([Object.prototype] is
    copied as an object without properties.) *)
Definition can_be_cloned (offset : Offset) : bool :=
  match offset with
  | a_method => false
  | _ => true
  end.

(** The loop of [writeData]: [out] is [this.outputBuffers], [w] is
    [this.write] (the loop fills its buffer in place) and [offset] the
    local of that name. *)
Fixpoint writeData_loop (float32Array : list float) (id : option string)
    (n : nat) (out : list Chunk) (w : Chunk) (offset : nat)
  : list Chunk * Chunk * nat :=
  match float32Array with
  | [] => (out, w, offset)
  | x :: rest =>
      let w := mkChunk (store offset x (buffer w)) (trackId w) in
      let offset := S offset in
      if (List.length (buffer w) <=? offset)%nat then
        writeData_loop rest id n (out ++ [w]) (mkChunk (new_Float32Array n) id) 0
      else writeData_loop rest id n out w offset
  end.

(** [writeData(float32Array, trackId = null)] *)
Definition writeData (float32Array : list float) (id : option string)
    (p : StreamProcessor) : StreamProcessor :=
  match writeData_loop float32Array id (bufferLength p)
          (outputBuffers p) (write p) (writeOffset p) with
  | (out, w, offset) =>
      mkProcessor (hasStarted p) (hasInterrupted p) (isPaused p)
        out (bufferLength p) w offset (trackSampleOffsets p)
  end.

(** What the processor posts on its port. *)
Inductive PortMessage : Type :=
| stop
| offset_message (requestId : string) (id : option string) (offset : Offset).

(** [event.data] as the player posts it. *)
Inductive Payload : Type :=
| write_event (int16Array : Int16Array) (id : option string)
| offset_event (requestId : string)
| interrupt_event (requestId : string)
| pause_event
| play_event
| other_event (event : string).

(** [int16Array[i] / 0x8000].  The quotient of a 16-bit integer by 2^15
    is a binary32 number, so storing it in the Float32Array rounds
    nothing. *)
Definition number_of_int16 (x : Z) : float :=
  if (x <? 0)%Z then PrimFloat.opp (PrimFloat.of_uint63 (Uint63.of_Z (- x)))
  else PrimFloat.of_uint63 (Uint63.of_Z x).

Definition to_float32 (x : Z) : float :=
  PrimFloat.div (number_of_int16 x) 32768%float.

Definition set_hasInterrupted (b : bool) (p : StreamProcessor) :=
  mkProcessor (hasStarted p) b (isPaused p) (outputBuffers p)
    (bufferLength p) (write p) (writeOffset p) (trackSampleOffsets p).

Definition set_isPaused (b : bool) (p : StreamProcessor) :=
  mkProcessor (hasStarted p) (hasInterrupted p) b (outputBuffers p)
    (bufferLength p) (write p) (writeOffset p) (trackSampleOffsets p).

Definition set_hasStarted (b : bool) (p : StreamProcessor) :=
  mkProcessor b (hasInterrupted p) (isPaused p) (outputBuffers p)
    (bufferLength p) (write p) (writeOffset p) (trackSampleOffsets p).

(** [this.port.onmessage]; [None] is an event without data. *)
Definition onmessage (data : option Payload) (p : StreamProcessor)
  : Outcome unit * StreamProcessor * list PortMessage :=
  match data with
  | None => (Return tt, p, [])
  | Some (write_event int16Array id) =>
      (Return tt, writeData (map to_float32 int16Array) id p, [])
  | Some (offset_event requestId) =>
      let id := trackId (write p) in
      let offset := offset_of (key_of id) (trackSampleOffsets p) in
      if can_be_cloned offset then
        (Return tt, p, [offset_message requestId id offset])
      else (Throw DataCloneError, p, [])
  | Some (interrupt_event requestId) =>
      let id := trackId (write p) in
      let offset := offset_of (key_of id) (trackSampleOffsets p) in
      if can_be_cloned offset then
        (Return tt, set_hasInterrupted true p,
         [offset_message requestId id offset])
      else (Throw DataCloneError, p, [])
  | Some pause_event => (Return tt, set_isPaused true p, [])
  | Some play_event => (Return tt, set_isPaused false p, [])
  | Some (other_event _) => (Throw (Error "Unhandled event"), p, [])
  end.

(** [buffer[i] || 0]: a missing entry, a zero and a NaN all give 0. *)
Definition or_zero (x : option float) : float :=
  match x with
  | Some v => if PrimFloat.eqb v 0%float || PrimFloat.is_nan v then 0%float
              else v
  | None => 0%float
  end.

(** [if (trackId)] *)
Definition named (id : option string) : bool :=
  match id with
  | Some s => negb (String.eqb s "")
  | None => false
  end.

(** [process(inputs, outputs)]: the value returned, the first channel of
    the first output after the call, the processor and what it posted. *)
Definition process (outputChannelData : list float) (p : StreamProcessor)
  : bool * list float * StreamProcessor * list PortMessage :=
  if hasInterrupted p then (false, outputChannelData, p, [stop])
  else if isPaused p then
    (true, map (fun _ => 0%float) outputChannelData, p, [])
  else
    match outputBuffers p with
    | c :: rest =>
        let output :=
          map (fun i => or_zero (nth_error (buffer c) i))
              (seq 0 (List.length outputChannelData)) in
        let offsets :=
          if named (trackId c) then
            set_offset (key_of (trackId c))
              (plus (offset_of (key_of (trackId c)) (trackSampleOffsets p))
                 (List.length (buffer c)))
              (trackSampleOffsets p)
          else trackSampleOffsets p in
        (true, output,
         mkProcessor true (hasInterrupted p) (isPaused p) rest
           (bufferLength p) (write p) (writeOffset p) offsets,
         [])
    | [] =>
        if hasStarted p then
          (false, outputChannelData, set_hasStarted false p, [stop])
        else (true, map (fun _ => 0%float) outputChannelData, p, [])
    end.

(** What happens to a processor: a message on its port, or a render
    quantum with an output channel of [quantum] samples (zeroed by the
    browser before the call). *)
Inductive Action : Type :=
| message (data : option Payload)
| render (quantum : nat).

(** One action: the processor after it, the output channel after a
    render (nothing for a message) and what the processor posted. *)
Definition step (a : Action) (p : StreamProcessor)
  : StreamProcessor * list float * list PortMessage :=
  match a with
  | message data =>
      match onmessage data p with
      | (_, p', posted) => (p', [], posted)
      end
  | render quantum =>
      match process (new_Float32Array quantum) p with
      | (_, output, p', posted) => (p', output, posted)
      end
  end.

Fixpoint run (actions : list Action) (p : StreamProcessor)
  : StreamProcessor * list float * list PortMessage :=
  match actions with
  | [] => (p, [], [])
  | a :: rest =>
      match step a p with
      | (p1, o1, m1) =>
          match run rest p1 with
          | (p2, o2, m2) => (p2, o1 ++ o2, m1 ++ m2)
          end
      end
  end.

End StreamProcessor.

(* ------------------------------------------------------------------ *)
(** * LayercodeClient, the revision of src/unnamed/part_003            *)
(* ------------------------------------------------------------------ *)

Module Client.

(** The speech detector instance; its callbacks are those of the
    profile chosen when it was created. *)
Record MicVAD : Type := { interruptible : bool }.

Record LayercodeClient : Type := mkClient {
  vadResumeDelay : nat;              (* this.options.vadResumeDelay *)
  wavPlayer : WavStreamPlayer;
  vad : option MicVAD;
  ws : option WebSocket;
  status : Status;
  sessionId : value;
  pushToTalkActive : bool;
  pushToTalkEnabled : bool;
  canInterrupt : bool;
  userIsSpeaking : bool;
  endUserTurn : bool;
  recorderStarted : bool;
  readySent : bool;
  currentTurnId : value;
  audioBuffer : list string
}.

Definition set_wavPlayer (x : WavStreamPlayer) (c : LayercodeClient) :=
  mkClient (vadResumeDelay c) x (vad c) (ws c) (status c) (sessionId c)
    (pushToTalkActive c) (pushToTalkEnabled c) (canInterrupt c)
    (userIsSpeaking c) (endUserTurn c) (recorderStarted c) (readySent c)
    (currentTurnId c) (audioBuffer c).

Definition set_vad (x : option MicVAD) (c : LayercodeClient) :=
  mkClient (vadResumeDelay c) (wavPlayer c) x (ws c) (status c) (sessionId c)
    (pushToTalkActive c) (pushToTalkEnabled c) (canInterrupt c)
    (userIsSpeaking c) (endUserTurn c) (recorderStarted c) (readySent c)
    (currentTurnId c) (audioBuffer c).

Definition set_ws (x : option WebSocket) (c : LayercodeClient) :=
  mkClient (vadResumeDelay c) (wavPlayer c) (vad c) x (status c) (sessionId c)
    (pushToTalkActive c) (pushToTalkEnabled c) (canInterrupt c)
    (userIsSpeaking c) (endUserTurn c) (recorderStarted c) (readySent c)
    (currentTurnId c) (audioBuffer c).

Definition set_status (x : Status) (c : LayercodeClient) :=
  mkClient (vadResumeDelay c) (wavPlayer c) (vad c) (ws c) x (sessionId c)
    (pushToTalkActive c) (pushToTalkEnabled c) (canInterrupt c)
    (userIsSpeaking c) (endUserTurn c) (recorderStarted c) (readySent c)
    (currentTurnId c) (audioBuffer c).

Definition set_sessionId (x : value) (c : LayercodeClient) :=
  mkClient (vadResumeDelay c) (wavPlayer c) (vad c) (ws c) (status c) x
    (pushToTalkActive c) (pushToTalkEnabled c) (canInterrupt c)
    (userIsSpeaking c) (endUserTurn c) (recorderStarted c) (readySent c)
    (currentTurnId c) (audioBuffer c).

Definition set_pushToTalkActive (x : bool) (c : LayercodeClient) :=
  mkClient (vadResumeDelay c) (wavPlayer c) (vad c) (ws c) (status c)
    (sessionId c) x (pushToTalkEnabled c) (canInterrupt c)
    (userIsSpeaking c) (endUserTurn c) (recorderStarted c) (readySent c)
    (currentTurnId c) (audioBuffer c).

Definition set_pushToTalkEnabled (x : bool) (c : LayercodeClient) :=
  mkClient (vadResumeDelay c) (wavPlayer c) (vad c) (ws c) (status c)
    (sessionId c) (pushToTalkActive c) x (canInterrupt c)
    (userIsSpeaking c) (endUserTurn c) (recorderStarted c) (readySent c)
    (currentTurnId c) (audioBuffer c).

Definition set_canInterrupt (x : bool) (c : LayercodeClient) :=
  mkClient (vadResumeDelay c) (wavPlayer c) (vad c) (ws c) (status c)
    (sessionId c) (pushToTalkActive c) (pushToTalkEnabled c) x
    (userIsSpeaking c) (endUserTurn c) (recorderStarted c) (readySent c)
    (currentTurnId c) (audioBuffer c).

Definition set_userIsSpeaking (x : bool) (c : LayercodeClient) :=
  mkClient (vadResumeDelay c) (wavPlayer c) (vad c) (ws c) (status c)
    (sessionId c) (pushToTalkActive c) (pushToTalkEnabled c) (canInterrupt c)
    x (endUserTurn c) (recorderStarted c) (readySent c)
    (currentTurnId c) (audioBuffer c).

Definition set_endUserTurn (x : bool) (c : LayercodeClient) :=
  mkClient (vadResumeDelay c) (wavPlayer c) (vad c) (ws c) (status c)
    (sessionId c) (pushToTalkActive c) (pushToTalkEnabled c) (canInterrupt c)
    (userIsSpeaking c) x (recorderStarted c) (readySent c)
    (currentTurnId c) (audioBuffer c).

Definition set_recorderStarted (x : bool) (c : LayercodeClient) :=
  mkClient (vadResumeDelay c) (wavPlayer c) (vad c) (ws c) (status c)
    (sessionId c) (pushToTalkActive c) (pushToTalkEnabled c) (canInterrupt c)
    (userIsSpeaking c) (endUserTurn c) x (readySent c)
    (currentTurnId c) (audioBuffer c).

Definition set_readySent (x : bool) (c : LayercodeClient) :=
  mkClient (vadResumeDelay c) (wavPlayer c) (vad c) (ws c) (status c)
    (sessionId c) (pushToTalkActive c) (pushToTalkEnabled c) (canInterrupt c)
    (userIsSpeaking c) (endUserTurn c) (recorderStarted c) x
    (currentTurnId c) (audioBuffer c).

Definition set_currentTurnId (x : value) (c : LayercodeClient) :=
  mkClient (vadResumeDelay c) (wavPlayer c) (vad c) (ws c) (status c)
    (sessionId c) (pushToTalkActive c) (pushToTalkEnabled c) (canInterrupt c)
    (userIsSpeaking c) (endUserTurn c) (recorderStarted c) (readySent c)
    x (audioBuffer c).

Definition set_audioBuffer (x : list string) (c : LayercodeClient) :=
  mkClient (vadResumeDelay c) (wavPlayer c) (vad c) (ws c) (status c)
    (sessionId c) (pushToTalkActive c) (pushToTalkEnabled c) (canInterrupt c)
    (userIsSpeaking c) (endUserTurn c) (recorderStarted c) (readySent c)
    (currentTurnId c) x.

(** Constructor: [options.vadResumeDelay || 500], [options.sessionId || null]. *)
Definition new_LayercodeClient (opt_vadResumeDelay : option nat)
  (opt_sessionId : value) : LayercodeClient :=
  mkClient
    (match opt_vadResumeDelay with
     | Some (S n) => S n
     | _ => 500
     end)
    (new_WavStreamPlayer 16000%float)
    None None disconnected
    (if truthy opt_sessionId then opt_sessionId else VNull)
    false false false false false false false VNull [].

(** A method of the player, run on [this.wavPlayer]. *)
Definition on_player {A} (c : M WavStreamPlayer A) : M LayercodeClient A :=
  lift wavPlayer set_wavPlayer c.

(** After an [await]: did the method run to its end, or is it suspended
    until the player's worklet has answered the offset request? *)
Inductive Async : Type := Settled | AwaitingOffset.

Definition _setStatus (s : Status) : M LayercodeClient unit :=
  modify (set_status s) ;;
  emit (OnStatusChange s).

Definition _wsSend (message : ClientMessage) : M LayercodeClient unit :=
  when (negb (String.eqb (message_type message) "client.audio"))
    (console LLog "sent ws msg:" [AMsg message]) ;;
  (* const messageString = JSON.stringify(message); *)
  c <- get ;;
  if ws_is_open (ws c) then emit (WsSend message)
  else ret tt.

Definition _sendReadyIfNeeded : M LayercodeClient unit :=
  c <- get ;;
  when (recorderStarted c && ws_is_open (ws c) && negb (readySent c))
    (_wsSend ClientReadyMessage ;;
     modify (set_readySent true)).

Definition _clientResponseAudioReplayFinished : M LayercodeClient unit :=
  console LLog "clientResponseAudioReplayFinished" [] ;;
  _wsSend ClientTriggerResponseAudioReplayFinishedMessage.

(** [_clientInterruptAssistantReplay] after [await this.wavPlayer.interrupt()]:
    [offsetData] is what the player returned ([None] for [null]). *)
Definition _clientInterruptAssistantReplay_resume
  (offsetData : option Player.TrackSampleOffset) : M LayercodeClient unit :=
  c <- get ;;
  match offsetData with
  | Some d =>
      if truthy (currentTurnId c) then
        let offsetMs := PrimFloat.mul (Player.currentTime d) 1000%float in
        _wsSend (ClientTriggerResponseAudioInterruptedMessage
                   offsetMs (currentTurnId c) offsetMs)
      else
        console LWarn "Interruption requested but missing required data:"
          [ABool true; ABool (truthy (currentTurnId c))]
  | None =>
      console LWarn "Interruption requested but missing required data:"
        [ABool false; ABool (truthy (currentTurnId c))]
  end.

(** [_clientInterruptAssistantReplay] up to the point where it either is
    done (the player had no stream and answered [null]) or waits. *)
Definition _clientInterruptAssistantReplay : M LayercodeClient Async :=
  waiting <- on_player Player.interrupt_request ;;
  if waiting then ret AwaitingOffset
  else _clientInterruptAssistantReplay_resume None ;; ret Settled.

(** The worklet has answered: the rest of [interrupt()] and of
    [_clientInterruptAssistantReplay]. *)
Definition offset_reply (r : Player.WorkletOffset) : M LayercodeClient unit :=
  d <- on_player (Player.interrupt_reply r) ;;
  _clientInterruptAssistantReplay_resume (Some d).

Definition triggerUserTurnStarted : M LayercodeClient Async :=
  c <- get ;;
  if negb (pushToTalkActive c) then
    modify (set_pushToTalkActive true) ;;
    _wsSend ClientTriggerTurnStart ;;
    _clientInterruptAssistantReplay
  else ret Settled.

Definition triggerUserTurnFinished : M LayercodeClient unit :=
  c <- get ;;
  when (pushToTalkActive c)
    (modify (set_pushToTalkActive false) ;;
     _wsSend ClientTriggerTurnEnd).

Definition _resetTurnTracking : M LayercodeClient unit :=
  modify (set_currentTurnId VNull) ;;
  console LLog "Reset turn tracking state" [].

Section Handlers.

(** The two codec helpers of utils.js sit on the browser's [btoa] and
    [atob]; [base64ToArrayBuffer] throws when [atob] rejects its input. *)
Variable arrayBufferToBase64 : Int16Array -> string.
Variable base64ToArrayBuffer : value -> Outcome ArrayBuffer.

(** ** Inbound messages *)

Definition _handleWebSocketMessage (event : MessageEvent)
  : M LayercodeClient Async :=
  try_catch
    (message <- JSON_parse event ;;
     type <- get_prop message "type" ;;
     when (negb (is_str type "response.audio"))
       (console LLog "received ws msg:" [AVal message]) ;;
     type <- get_prop message "type" ;;
     if is_str type "turn.start" then
       console LLog "received turn.start from server" [] ;;
       console LLog "" [AVal message] ;;
       role <- get_prop message "role" ;;
       c <- get ;;
       if is_str role "assistant" then
         console LLog "Assistant turn started, will track new turn ID from audio/text" [] ;;
         ret Settled
       else if is_str role "user" && negb (pushToTalkEnabled c) then
         console LLog "interrupting assistant audio, as user turn has started and pushToTalkEnabled is false" [] ;;
         _clientInterruptAssistantReplay
       else ret Settled
     else if is_str type "response.audio" then
       content <- get_prop message "content" ;;
       audioBuffer <- of_outcome (base64ToArrayBuffer content) ;;
       turn_id <- get_prop message "turn_id" ;;
       on_player (Player.add16BitPCM audioBuffer turn_id) ;;
       c <- get ;;
       when (negb (truthy (currentTurnId c))
             || negb (strict_eq (currentTurnId c) turn_id))
         (console LLog "Setting current turn ID to: (was: )"
            [AVal turn_id; AVal (currentTurnId c)] ;;
          modify (set_currentTurnId turn_id) ;;
          on_player (Player.clearInterruptedTracks
                       (if truthy turn_id then [turn_id] else []))) ;;
       ret Settled
     else if is_str type "response.text" then
       c <- get ;;
       when (negb (truthy (currentTurnId c)))
         (turn_id <- get_prop message "turn_id" ;;
          modify (set_currentTurnId turn_id) ;;
          console LLog "Setting current turn ID to:  from text message"
            [AVal turn_id]) ;;
       ret Settled
     else if is_str type "response.data" then
       console LLog "received response.data" [AVal message] ;;
       emit (OnDataMessage message) ;;
       ret Settled
     else
       console LError "Unknown message type received:" [AVal message] ;;
       ret Settled)
    (fun error =>
       console LError "Error processing WebSocket message:" [AExn error] ;;
       emit (OnError error) ;;
       ret Settled).

(** ** The audio gate *)

Definition sendAudio (c : LayercodeClient) : bool :=
  if pushToTalkEnabled c then pushToTalkActive c else userIsSpeaking c.

Definition _handleDataAvailable (data : Int16Array) : M LayercodeClient unit :=
  try_catch
    (let base64 := arrayBufferToBase64 data in
     c <- get ;;
     if sendAudio c then
       when (0 <? List.length (audioBuffer c))%nat
         (console LLog "Sending buffered audio chunks"
            [ANat (List.length (audioBuffer c))] ;;
          for_of (audioBuffer c)
            (fun bufferedAudio => _wsSend (ClientAudioMessage bufferedAudio)) ;;
          modify (set_audioBuffer [])) ;;
       _wsSend (ClientAudioMessage base64)
     else
       modify (fun c => set_audioBuffer (audioBuffer c ++ [base64]) c) ;;
       c <- get ;;
       when (10 <? List.length (audioBuffer c))%nat
         (modify (fun c => set_audioBuffer (tl (audioBuffer c)) c)))
    (fun error =>
       console LError "Error processing audio:" [AExn error] ;;
       emit (OnError error)).

(** ** Speech detection *)

(** The variables closed over by the callback of
    [_setupAmplitudeBasedVAD]. *)
Record AmplitudeVAD : Type := mkAmp {
  isSpeakingByAmplitude : bool;
  silenceFrames : nat
}.

Definition AMPLITUDE_THRESHOLD : float := 0.01%float.
Definition SILENCE_FRAMES_THRESHOLD : nat := 30.

(** The callback given to [wavRecorder.startAmplitudeMonitoring]. *)
Definition amplitude_callback (amplitude : float) (k : AmplitudeVAD)
  : M LayercodeClient AmplitudeVAD :=
  let wasSpeaking := isSpeakingByAmplitude k in
  if PrimFloat.ltb AMPLITUDE_THRESHOLD amplitude then
    if negb wasSpeaking then
      modify (set_userIsSpeaking true) ;;
      emit (OnUserIsSpeakingChange true) ;;
      _wsSend (ClientVadEventsMessage vad_start) ;;
      ret (mkAmp true 0)
    else ret (mkAmp wasSpeaking 0)
  else
    let silenceFrames := S (silenceFrames k) in
    if wasSpeaking && (SILENCE_FRAMES_THRESHOLD <=? silenceFrames)%nat then
      modify (set_userIsSpeaking false) ;;
      emit (OnUserIsSpeakingChange false) ;;
      _wsSend (ClientVadEventsMessage vad_end) ;;
      ret (mkAmp false silenceFrames)
    else ret (mkAmp wasSpeaking silenceFrames).

Definition _setupAmplitudeBasedVAD : M LayercodeClient AmplitudeVAD :=
  emit RecorderStartAmplitudeMonitoring ;;
  ret (mkAmp false 0).

(** [_initializeVAD]: [Some profile] when the 2000 ms timer was armed and
    [MicVAD.new] was called with the callbacks of that profile. *)
Definition _initializeVAD : M LayercodeClient (option bool) :=
  c <- get ;;
  console LLog "initializing VAD"
    [ABool (pushToTalkEnabled c); ABool (canInterrupt c)] ;;
  if pushToTalkEnabled c then ret None
  else
    emit (SetTimeout 2000) ;;
    emit (MicVADNew (canInterrupt c)) ;;
    ret (Some (canInterrupt c)).

(** The body of the 2000 ms timer. *)
Definition vad_model_timeout : M LayercodeClient AmplitudeVAD :=
  console LLog "silero vad model timeout" [] ;;
  console LWarn "VAD model failed to load - falling back to amplitude-based detection" [] ;;
  _wsSend (ClientVadEventsMessage vad_model_failed) ;;
  modify (set_userIsSpeaking false) ;;
  emit (OnUserIsSpeakingChange false) ;;
  _setupAmplitudeBasedVAD.

(** [.then((vad) => ...)] of [MicVAD.new], after its [clearTimeout]. *)
Definition vad_then (profile : bool) : M LayercodeClient unit :=
  emit ClearTimeout ;;
  modify (set_vad (Some {| interruptible := profile |})) ;;
  emit VadStart ;;
  console LLog "VAD started" [].

Definition vad_catch (e : Exn) : M LayercodeClient unit :=
  console LError "Error initializing VAD:" [AExn e].

Definition onSpeechStart (profile : bool) : M LayercodeClient unit :=
  if negb profile then
    modify (set_userIsSpeaking true) ;;
    emit (OnUserIsSpeakingChange true) ;;
    console LLog "onSpeechStart: sending vad_start" [] ;;
    _wsSend (ClientVadEventsMessage vad_start)
  else
    console LLog "onSpeechStart: sending vad_start" [] ;;
    _wsSend (ClientVadEventsMessage vad_start) ;;
    modify (set_userIsSpeaking true) ;;
    emit (OnUserIsSpeakingChange true) ;;
    modify (set_endUserTurn false) ;;
    console LLog "onSpeechStart: State after update - endUserTurn: userIsSpeaking:"
      [ABool false; ABool true].

Definition onSpeechEnd (profile : bool) : M LayercodeClient unit :=
  if negb profile then
    console LLog "onSpeechEnd: sending vad_end" [] ;;
    modify (set_endUserTurn true) ;;
    modify (set_audioBuffer []) ;;
    modify (set_userIsSpeaking false) ;;
    emit (OnUserIsSpeakingChange false) ;;
    console LLog "onSpeechEnd: State after update - endUserTurn: userIsSpeaking:"
      [ABool true; ABool false] ;;
    _wsSend (ClientVadEventsMessage vad_end) ;;
    modify (set_endUserTurn false)
  else
    console LLog "onSpeechEnd: sending vad_end" [] ;;
    modify (set_endUserTurn true) ;;
    modify (set_audioBuffer []) ;;
    modify (set_userIsSpeaking false) ;;
    emit (OnUserIsSpeakingChange false) ;;
    _wsSend (ClientVadEventsMessage vad_end).

(** Only the interruptible profile passes an [onVADMisfire]. *)
Definition onVADMisfire : M LayercodeClient unit :=
  modify (set_userIsSpeaking false) ;;
  modify (set_audioBuffer []) ;;
  emit (OnUserIsSpeakingChange false) ;;
  c <- get ;;
  emit (SetTimeout (vadResumeDelay c)).

(** The body of the timer armed by [onVADMisfire]. *)
Definition misfire_resume : M LayercodeClient unit :=
  c <- get ;;
  if negb (isPlaying (wavPlayer c)) then
    console LLog "onVADMisfire: Resuming after delay" []
  else
    console LLog "onVADMisfire: Not resuming - either no pause or user speaking again" [] ;;
    modify (set_endUserTurn true).

(** ** Connection life cycle *)

(** What [fetch] and [response.json()] gave. *)
Record AuthorizeResponse : Type := {
  ok : bool;
  body : Outcome value
}.

(** The [catch] block of [connect]. *)
Definition connect_catch {A} (err : Exn) : M LayercodeClient A :=
  console LError "Error connecting to Layercode pipeline:" [AExn err] ;;
  _setStatus error ;;
  emit (OnError err) ;;
  throw err.

(** [connect()] up to [await fetch(...)]. *)
Definition connect : M LayercodeClient unit :=
  try_catch
    (_setStatus connecting ;;
     _resetTurnTracking ;;
     emit Fetch)
    connect_catch.

(** [connect()] from the answer of the authorization endpoint up to
    [await this.wavRecorder.begin()]. *)
Definition connect_authorized (r : Outcome AuthorizeResponse)
  : M LayercodeClient (option bool) :=
  try_catch
    (authorizeSessionResponse <- of_outcome r ;;
     if negb (ok authorizeSessionResponse) then
       throw (Error "Failed to authorize session")
     else
       authorizeSessionResponseBody <- of_outcome (body authorizeSessionResponse) ;;
       session_id <- get_prop authorizeSessionResponseBody "session_id" ;;
       modify (set_sessionId session_id) ;;
       emit WsNew ;;
       modify (set_ws (Some {| readyState := CONNECTING |})) ;;
       config <- get_prop authorizeSessionResponseBody "config" ;;
       console LLog "config" [AVal config] ;;
       transcription <- get_prop config "transcription" ;;
       trigger <- get_prop transcription "trigger" ;;
       (if is_str trigger "push_to_talk" then
          modify (set_pushToTalkEnabled true)
        else if is_str trigger "automatic" then
          modify (set_pushToTalkEnabled false) ;;
          can_interrupt <- get_prop transcription "can_interrupt" ;;
          modify (set_canInterrupt (truthy can_interrupt))
        else throw (Error "Unknown trigger")) ;;
       armed <- _initializeVAD ;;
       (* this.ws.onmessage / onopen / onclose / onerror are bound here *)
       emit RecorderBegin ;;
       ret armed)
    connect_catch.

(** ... from the end of [wavRecorder.begin()] to [await record(...)]. *)
Definition connect_begun (r : Outcome unit) : M LayercodeClient unit :=
  try_catch
    (of_outcome r ;;
     emit RecorderRecord)
    connect_catch.

(** ... from the end of [record(...)] to [await this.wavPlayer.connect()].
    [_setupAmplitudeMonitoring] compares its callback with a fresh
    closure, so it always starts the monitor. *)
Definition connect_recording (r : Outcome unit) : M LayercodeClient unit :=
  try_catch
    (of_outcome r ;;
     emit RecorderStartAmplitudeMonitoring ;;
     emit PlayerConnect)
    connect_catch.

(** ... and from the end of [wavPlayer.connect()] to the end. *)
Definition connect_player_connected (r : Outcome unit) : M LayercodeClient unit :=
  try_catch
    (of_outcome r ;;
     on_player (modify set_connected) ;;
     emit PlayerStartAmplitudeMonitoring ;;
     modify (set_recorderStarted true) ;;
     _sendReadyIfNeeded)
    connect_catch.

(** The socket's handlers; the browser has set [readyState] before it
    calls them. *)
Definition ws_onopen : M LayercodeClient unit :=
  console LLog "WebSocket connection established" [] ;;
  _setStatus connected ;;
  emit OnConnect ;;
  _sendReadyIfNeeded.

Definition ws_onclose : M LayercodeClient unit :=
  console LLog "WebSocket connection closed" [] ;;
  _setStatus disconnected ;;
  emit OnDisconnect.

Definition ws_onerror : M LayercodeClient unit :=
  console LError "WebSocket error:" [] ;;
  _setStatus error ;;
  emit (OnError (Error "WebSocket connection error")).

Definition disconnect : M LayercodeClient unit :=
  c <- get ;;
  when (match vad c with Some _ => true | None => false end)
    (emit VadPause ;;
     emit VadDestroy ;;
     modify (set_vad None)) ;;
  emit RecorderQuit ;;
  on_player Player.disconnect ;;
  _resetTurnTracking ;;
  c <- get ;;
  match ws c with
  | Some w =>
      emit WsClose ;;
      modify (set_ws (Some (ws_close w))) ;;
      _setStatus disconnected ;;
      emit OnDisconnect
  | None => ret tt
  end.

(** ** The page: the object and what the browser keeps for it *)

Record Page : Type := mkPage {
  self : LayercodeClient;
  timeouts : list nat;             (* pending model-load timers, by id *)
  next_timeout : nat;
  detectors : list AmplitudeVAD    (* closures of _setupAmplitudeBasedVAD *)
}.

Definition set_self (c : LayercodeClient) (p : Page) : Page :=
  mkPage c (timeouts p) (next_timeout p) (detectors p).

Definition new_Page (c : LayercodeClient) : Page := mkPage c [] 0 [].

Definition on_self {A} (c : M LayercodeClient A) : M Page A :=
  lift self set_self c.

Definition arm_timeout : M Page unit :=
  modify (fun p => mkPage (self p) (next_timeout p :: timeouts p)
                          (S (next_timeout p)) (detectors p)).

Definition clear_timeout (id : nat) : M Page unit :=
  modify (fun p => mkPage (self p)
                          (filter (fun i => negb (Nat.eqb i id)) (timeouts p))
                          (next_timeout p) (detectors p)).

Definition add_detector (k : AmplitudeVAD) : M Page unit :=
  modify (fun p => mkPage (self p) (timeouts p) (next_timeout p)
                          (detectors p ++ [k])).

Fixpoint replace_nth {A} (i : nat) (x : A) (l : list A) : list A :=
  match l, i with
  | [], _ => []
  | _ :: rest, O => x :: rest
  | y :: rest, S j => y :: replace_nth j x rest
  end.

Definition set_detector (i : nat) (k : AmplitudeVAD) : M Page unit :=
  modify (fun p => mkPage (self p) (timeouts p) (next_timeout p)
                          (replace_nth i k (detectors p))).

(** What a socket reports to the handlers bound in [connect]. *)
Inductive SocketEvent : Type :=
| sock_open
| sock_close
| sock_error
| sock_message (event : MessageEvent).

(** What can happen to the page: calls of the public methods by the
    host, and the callbacks the browser runs.  A socket event comes from
    the socket now in [this.ws] ([current = true]) or from one that an
    earlier [connect()] made: the handlers are the same closures over
    [this]. *)
Inductive Event : Type :=
| call_connect
| fetch_settled (r : Outcome AuthorizeResponse)
| recorder_begin_settled (r : Outcome unit)
| recorder_record_settled (r : Outcome unit)
| player_connect_settled (r : Outcome unit)
| call_disconnect
| call_triggerUserTurnStarted
| call_triggerUserTurnFinished
| socket (current : bool) (e : SocketEvent)
| data_available (data : Int16Array)
| micvad_resolved (timer : nat) (profile : bool)
| micvad_rejected (e : Exn)
| model_timeout (timer : nat)
| speech_start (profile : bool)
| speech_end (profile : bool)
| vad_misfire
| misfire_timeout
| amplitude (detector : nat) (a : float)
| worklet_offset (r : Player.WorkletOffset)
| worklet_stop.

Definition set_readyState (s : ReadyState) : M LayercodeClient unit :=
  modify (fun c => match ws c with
                   | Some _ => set_ws (Some {| readyState := s |}) c
                   | None => c
                   end).

(** Which events the socket in [this.ws] can raise in its state. *)
Definition socket_can (e : SocketEvent) (w : option WebSocket) : bool :=
  match w, e with
  | Some {| readyState := CONNECTING |}, (sock_open | sock_close | sock_error) => true
  | Some {| readyState := OPEN |}, (sock_message _ | sock_close | sock_error) => true
  | Some {| readyState := CLOSING |}, (sock_message _ | sock_close | sock_error) => true
  | _, _ => false
  end.

Definition fire (e : Event) : M Page unit :=
  match e with
  | call_connect => settle (on_self connect)
  | fetch_settled r =>
      settle (armed <- on_self (connect_authorized r) ;;
              match armed with
              | Some _ => arm_timeout
              | None => ret tt
              end)
  | recorder_begin_settled r => settle (on_self (connect_begun r))
  | recorder_record_settled r => settle (on_self (connect_recording r))
  | player_connect_settled r => settle (on_self (connect_player_connected r))
  | call_disconnect => on_self disconnect
  | call_triggerUserTurnStarted => settle (on_self triggerUserTurnStarted)
  | call_triggerUserTurnFinished => on_self triggerUserTurnFinished
  | socket current e =>
      p <- get ;;
      if negb current || socket_can e (ws (self p)) then
        match e with
        | sock_open =>
            on_self (when current (set_readyState OPEN) ;; ws_onopen)
        | sock_close =>
            on_self (when current (set_readyState CLOSED) ;; ws_onclose)
        | sock_error => on_self ws_onerror
        | sock_message event =>
            settle (on_self (_handleWebSocketMessage event))
        end
      else ret tt
  | data_available data => on_self (_handleDataAvailable data)
  | micvad_resolved timer profile =>
      clear_timeout timer ;; on_self (vad_then profile)
  | micvad_rejected e => on_self (vad_catch e)
  | model_timeout timer =>
      p <- get ;;
      if existsb (Nat.eqb timer) (timeouts p) then
        clear_timeout timer ;;
        k <- on_self vad_model_timeout ;;
        add_detector k
      else ret tt
  | speech_start profile => on_self (onSpeechStart profile)
  | speech_end profile => on_self (onSpeechEnd profile)
  | vad_misfire => on_self onVADMisfire
  | misfire_timeout => on_self misfire_resume
  | amplitude i a =>
      p <- get ;;
      match nth_error (detectors p) i with
      | Some k =>
          k' <- on_self (amplitude_callback a k) ;;
          set_detector i k'
      | None => ret tt
      end
  | worklet_offset r => on_self (offset_reply r)
  | worklet_stop =>
      on_self (on_player Player.on_stop ;; _clientResponseAudioReplayFinished)
  end.

(** Running a sequence of events: the final page and everything done. *)
Fixpoint run (events : list Event) (p : Page) : Page * list Effect :=
  match events with
  | [] => (p, [])
  | e :: rest =>
      match fire e p with
      | (_, p1, t1) =>
          match run rest p1 with
          | (p2, t2) => (p2, t1 ++ t2)
          end
      end
  end.

End Handlers.

End Client.

(* ------------------------------------------------------------------ *)
(** * LayercodeClient, the revision of src/src/index.ts                *)
(* ------------------------------------------------------------------ *)

Module ClientPrev.

Record LayercodeClient : Type := mkClient {
  wavPlayer : WavStreamPlayer;
  vad : bool;                       (* this.vad !== null *)
  ws : option WebSocket;
  status : Status;
  pushToTalkActive : bool;
  vadPausedPlayer : bool;
  pushToTalkEnabled : bool;
  canInterrupt : bool;
  userIsSpeaking : bool
}.

Definition set_wavPlayer (x : WavStreamPlayer) (c : LayercodeClient) :=
  mkClient x (vad c) (ws c) (status c) (pushToTalkActive c)
    (vadPausedPlayer c) (pushToTalkEnabled c) (canInterrupt c)
    (userIsSpeaking c).

Definition set_status (x : Status) (c : LayercodeClient) :=
  mkClient (wavPlayer c) (vad c) (ws c) x (pushToTalkActive c)
    (vadPausedPlayer c) (pushToTalkEnabled c) (canInterrupt c)
    (userIsSpeaking c).

Definition set_pushToTalkActive (x : bool) (c : LayercodeClient) :=
  mkClient (wavPlayer c) (vad c) (ws c) (status c) x
    (vadPausedPlayer c) (pushToTalkEnabled c) (canInterrupt c)
    (userIsSpeaking c).

Definition set_vadPausedPlayer (x : bool) (c : LayercodeClient) :=
  mkClient (wavPlayer c) (vad c) (ws c) (status c) (pushToTalkActive c)
    x (pushToTalkEnabled c) (canInterrupt c) (userIsSpeaking c).

Definition set_userIsSpeaking (x : bool) (c : LayercodeClient) :=
  mkClient (wavPlayer c) (vad c) (ws c) (status c) (pushToTalkActive c)
    (vadPausedPlayer c) (pushToTalkEnabled c) (canInterrupt c) x.

Definition new_LayercodeClient : LayercodeClient :=
  mkClient (new_WavStreamPlayer 16000%float) false None disconnected
    false false false false false.

Definition on_player {A} (c : M WavStreamPlayer A) : M LayercodeClient A :=
  lift wavPlayer set_wavPlayer c.

Definition _setStatus (s : Status) : M LayercodeClient unit :=
  modify (set_status s) ;;
  emit (OnStatusChange s).

Definition _wsSend (message : ClientMessage) : M LayercodeClient unit :=
  when (negb (String.eqb (message_type message) "client.audio"))
    (console LLog "sent ws msg:" [AMsg message]) ;;
  (* const messageString = JSON.stringify(message); *)
  c <- get ;;
  if ws_is_open (ws c) then emit (WsSend message)
  else ret tt.

(** [await this.wavPlayer.interrupt()] and nothing after it: [true] when
    the method is left waiting for the worklet. *)
Definition _clientInterruptAssistantReplay : M LayercodeClient bool :=
  on_player Player.interrupt_request.

Section Handlers.

Variable arrayBufferToBase64 : Int16Array -> string.
Variable base64ToArrayBuffer : value -> Outcome ArrayBuffer.

Definition _handleWebSocketMessage (event : MessageEvent)
  : M LayercodeClient bool :=
  try_catch
    (message <- JSON_parse event ;;
     type <- get_prop message "type" ;;
     when (negb (is_str type "response.audio"))
       (console LLog "received ws msg:" [AVal message]) ;;
     type <- get_prop message "type" ;;
     if is_str type "turn.start" then
       console LLog "received turn.start from server" [] ;;
       console LLog "" [AVal message] ;;
       role <- get_prop message "role" ;;
       c <- get ;;
       if is_str role "user" && negb (pushToTalkEnabled c) && canInterrupt c then
         console LLog "interrupting assistant audio, as user turn has started and pushToTalkEnabled is false" [] ;;
         _clientInterruptAssistantReplay
       else ret false
     else if is_str type "response.audio" then
       content <- get_prop message "content" ;;
       audioBuffer <- of_outcome (base64ToArrayBuffer content) ;;
       turn_id <- get_prop message "turn_id" ;;
       on_player (Player.add16BitPCM audioBuffer turn_id) ;;
       ret false
     else if is_str type "response.data" then
       console LLog "received response.data" [AVal message] ;;
       emit (OnDataMessage message) ;;
       ret false
     else
       console LError "Unknown message type received:" [AVal message] ;;
       ret false)
    (fun error =>
       console LError "Error processing WebSocket message:" [AExn error] ;;
       emit (OnError error) ;;
       ret false).

Definition _handleDataAvailable (data : Int16Array) : M LayercodeClient unit :=
  try_catch
    (let base64 := arrayBufferToBase64 data in
     c <- get ;;
     let sendAudio :=
       if pushToTalkEnabled c then pushToTalkActive c else userIsSpeaking c in
     when sendAudio (_wsSend (ClientAudioMessage base64)))
    (fun error =>
       console LError "Error processing audio:" [AExn error] ;;
       emit (OnError error)).

End Handlers.

(** The callbacks given to [MicVAD.new]; [profile] is [canInterrupt] at
    the time of [_initializeVAD]. *)
Definition onSpeechStart (profile : bool) : M LayercodeClient unit :=
  if negb profile then
    c <- get ;;
    when (negb (isPlaying (wavPlayer c))) (modify (set_userIsSpeaking true))
  else
    c <- get ;;
    (if isPlaying (wavPlayer c) then
       console LLog "onSpeechStart: WavPlayer is playing, pausing it." [] ;;
       on_player Player.pause ;;
       modify (set_vadPausedPlayer true)
     else
       console LLog "onSpeechStart: WavPlayer is not playing, VAD will not pause." []) ;;
    modify (set_userIsSpeaking true) ;;
    console LLog "onSpeechStart: sending vad_start" [] ;;
    _wsSend (ClientVadEventsMessage vad_start).

(** [suspended] is the state of the player's audio context at the time
    of the callback.  [play()] is not awaited: when it waits for the
    context, the callback goes on and [play()] ends later, in
    [context_resumed]. *)
Definition onVADMisfire (profile : bool) (suspended : bool)
  : M LayercodeClient unit :=
  if negb profile then modify (set_userIsSpeaking false)
  else
    modify (set_userIsSpeaking false) ;;
    c <- get ;;
    if vadPausedPlayer c then
      console LLog "onSpeechEnd: VAD paused the player, resuming" [] ;;
      on_player (Player.play suspended) ;;
      modify (set_vadPausedPlayer false)
    else
      console LLog "onVADMisfire: VAD did not pause the player, no action taken to resume." [].

(** The rest of a [play()] that waited for the audio context. *)
Definition context_resumed (resumed : Outcome unit) : M LayercodeClient unit :=
  settle (on_player (Player.play_resumed resumed)).

Definition onSpeechEnd : M LayercodeClient unit :=
  modify (set_userIsSpeaking false) ;;
  _wsSend (ClientVadEventsMessage vad_end).

(** The body of the 2000 ms timer of [_initializeVAD]. *)
Definition vad_model_timeout : M LayercodeClient unit :=
  console LLog "silero vad model timeout" [] ;;
  modify (set_userIsSpeaking true).

(** ** Connection life cycle *)

Definition set_vad (x : bool) (c : LayercodeClient) :=
  mkClient (wavPlayer c) x (ws c) (status c) (pushToTalkActive c)
    (vadPausedPlayer c) (pushToTalkEnabled c) (canInterrupt c)
    (userIsSpeaking c).

Definition set_ws (x : option WebSocket) (c : LayercodeClient) :=
  mkClient (wavPlayer c) (vad c) x (status c) (pushToTalkActive c)
    (vadPausedPlayer c) (pushToTalkEnabled c) (canInterrupt c)
    (userIsSpeaking c).

Definition set_pushToTalkEnabled (x : bool) (c : LayercodeClient) :=
  mkClient (wavPlayer c) (vad c) (ws c) (status c) (pushToTalkActive c)
    (vadPausedPlayer c) x (canInterrupt c) (userIsSpeaking c).

Definition set_canInterrupt (x : bool) (c : LayercodeClient) :=
  mkClient (wavPlayer c) (vad c) (ws c) (status c) (pushToTalkActive c)
    (vadPausedPlayer c) (pushToTalkEnabled c) x (userIsSpeaking c).

Definition _clientResponseAudioReplayFinished : M LayercodeClient unit :=
  console LLog "clientResponseAudioReplayFinished" [] ;;
  _wsSend ClientTriggerResponseAudioReplayFinishedMessage.

Definition triggerUserTurnStarted : M LayercodeClient bool :=
  c <- get ;;
  if negb (pushToTalkActive c) then
    modify (set_pushToTalkActive true) ;;
    _wsSend ClientTriggerTurnStart ;;
    _clientInterruptAssistantReplay
  else ret false.

Definition triggerUserTurnFinished : M LayercodeClient unit :=
  c <- get ;;
  when (pushToTalkActive c)
    (modify (set_pushToTalkActive false) ;;
     _wsSend ClientTriggerTurnEnd).

(** [_initializeVAD]: [Some profile] when the 2000 ms timer was armed and
    [MicVAD.new] was called with the callbacks of that profile. *)
Definition _initializeVAD : M LayercodeClient (option bool) :=
  c <- get ;;
  console LLog "initializing VAD"
    [ABool (pushToTalkEnabled c); ABool (canInterrupt c)] ;;
  if pushToTalkEnabled c then ret None
  else
    emit (SetTimeout 2000) ;;
    emit (MicVADNew (canInterrupt c)) ;;
    ret (Some (canInterrupt c)).

(** [.then((vad) => ...)] of [MicVAD.new], after its [clearTimeout]. *)
Definition vad_then : M LayercodeClient unit :=
  emit ClearTimeout ;;
  modify (set_vad true) ;;
  emit VadStart ;;
  console LLog "VAD started" [].

Definition vad_catch (e : Exn) : M LayercodeClient unit :=
  console LError "Error initializing VAD:" [AExn e].

(** The [catch] block of [connect]. *)
Definition connect_catch {A} (err : Exn) : M LayercodeClient A :=
  console LError "Error connecting to Layercode pipeline:" [AExn err] ;;
  _setStatus error ;;
  emit (OnError err) ;;
  throw err.

(** [connect()] up to [await fetch(...)]. *)
Definition connect : M LayercodeClient unit :=
  try_catch
    (_setStatus connecting ;;
     emit Fetch)
    connect_catch.

Definition connect_begun (r : Outcome unit) : M LayercodeClient unit :=
  try_catch
    (of_outcome r ;;
     emit RecorderRecord)
    connect_catch.

Definition connect_recording (r : Outcome unit) : M LayercodeClient unit :=
  try_catch
    (of_outcome r ;;
     emit RecorderStartAmplitudeMonitoring ;;
     emit PlayerConnect)
    connect_catch.

Definition connect_player_connected (r : Outcome unit)
  : M LayercodeClient unit :=
  try_catch
    (of_outcome r ;;
     on_player (modify set_connected) ;;
     emit PlayerStartAmplitudeMonitoring)
    connect_catch.

Definition ws_onopen : M LayercodeClient unit :=
  console LLog "WebSocket connection established" [] ;;
  _setStatus connected ;;
  emit OnConnect.

Definition ws_onclose : M LayercodeClient unit :=
  console LLog "WebSocket connection closed" [] ;;
  _setStatus disconnected ;;
  emit OnDisconnect.

Definition ws_onerror : M LayercodeClient unit :=
  console LError "WebSocket error:" [] ;;
  _setStatus error ;;
  emit (OnError (Error "WebSocket connection error")).

(** [disconnect()]: the recorder, the player and the socket; the speech
    detector is not touched. *)
Definition disconnect : M LayercodeClient unit :=
  emit RecorderQuit ;;
  on_player Player.disconnect ;;
  c <- get ;;
  match ws c with
  | Some w =>
      emit WsClose ;;
      modify (set_ws (Some (ws_close w)))
  | None => ret tt
  end.

(** ** The page *)

Record Page : Type := mkPage {
  self : LayercodeClient;
  sessionId : value;               (* this.sessionId *)
  timeouts : list nat;             (* pending model-load timers, by id *)
  next_timeout : nat
}.

Definition set_self (c : LayercodeClient) (p : Page) : Page :=
  mkPage c (sessionId p) (timeouts p) (next_timeout p).

(** [new LayercodeClient(options)]: [options.sessionId || null]. *)
Definition new_Page (opt_sessionId : value) : Page :=
  mkPage new_LayercodeClient
    (if truthy opt_sessionId then opt_sessionId else VNull) [] 0.

Definition on_self {A} (c : M LayercodeClient A) : M Page A :=
  lift self set_self c.

Definition set_sessionId (v : value) : M Page unit :=
  modify (fun p => mkPage (self p) v (timeouts p) (next_timeout p)).

Definition arm_timeout : M Page unit :=
  modify (fun p => mkPage (self p) (sessionId p)
                          (next_timeout p :: timeouts p) (S (next_timeout p))).

Definition clear_timeout (id : nat) : M Page unit :=
  modify (fun p => mkPage (self p) (sessionId p)
                          (filter (fun i => negb (Nat.eqb i id)) (timeouts p))
                          (next_timeout p)).

Definition set_readyState (s : ReadyState) : M LayercodeClient unit :=
  modify (fun c => match ws c with
                   | Some _ => set_ws (Some {| readyState := s |}) c
                   | None => c
                   end).

(** [connect()] from the answer of the authorization endpoint up to
    [await this.wavRecorder.begin()]. *)
Definition connect_authorized (r : Outcome Client.AuthorizeResponse)
  : M Page (option bool) :=
  try_catch
    (authorizeSessionResponse <- of_outcome r ;;
     if negb (Client.ok authorizeSessionResponse) then
       throw (Error "Failed to authorize session")
     else
       authorizeSessionResponseBody <-
         of_outcome (Client.body authorizeSessionResponse) ;;
       session_id <- get_prop authorizeSessionResponseBody "session_id" ;;
       set_sessionId session_id ;;
       emit WsNew ;;
       on_self (modify (set_ws (Some {| readyState := CONNECTING |}))) ;;
       config <- get_prop authorizeSessionResponseBody "config" ;;
       console LLog "config" [AVal config] ;;
       transcription <- get_prop config "transcription" ;;
       trigger <- get_prop transcription "trigger" ;;
       (if is_str trigger "push_to_talk" then
          on_self (modify (set_pushToTalkEnabled true))
        else if is_str trigger "automatic" then
          on_self (modify (set_pushToTalkEnabled false)) ;;
          can_interrupt <- get_prop transcription "can_interrupt" ;;
          on_self (modify (set_canInterrupt (truthy can_interrupt)))
        else throw (Error "Unknown trigger")) ;;
       armed <- on_self _initializeVAD ;;
       (* this.ws.onmessage / onopen / onclose / onerror are bound here *)
       emit RecorderBegin ;;
       ret armed)
    (fun err => on_self (connect_catch err)).

(** What can happen to the page, as for the other revision. *)
Inductive Event : Type :=
| call_connect
| fetch_settled (r : Outcome Client.AuthorizeResponse)
| recorder_begin_settled (r : Outcome unit)
| recorder_record_settled (r : Outcome unit)
| player_connect_settled (r : Outcome unit)
| call_disconnect
| call_triggerUserTurnStarted
| call_triggerUserTurnFinished
| socket (current : bool) (e : Client.SocketEvent)
| data_available (data : Int16Array)
| micvad_resolved (timer : nat)
| micvad_rejected (e : Exn)
| model_timeout (timer : nat)
| speech_start (profile : bool)
| speech_end
| vad_misfire (profile : bool) (suspended : bool)
| context_resumed_settled (r : Outcome unit)
| worklet_offset (r : Player.WorkletOffset)
| worklet_stop.

Section Pages.

Variable arrayBufferToBase64 : Int16Array -> string.
Variable base64ToArrayBuffer : value -> Outcome ArrayBuffer.

Definition fire (e : Event) : M Page unit :=
  match e with
  | call_connect => settle (on_self connect)
  | fetch_settled r =>
      settle (armed <- connect_authorized r ;;
              match armed with
              | Some _ => arm_timeout
              | None => ret tt
              end)
  | recorder_begin_settled r => settle (on_self (connect_begun r))
  | recorder_record_settled r => settle (on_self (connect_recording r))
  | player_connect_settled r => settle (on_self (connect_player_connected r))
  | call_disconnect => on_self disconnect
  | call_triggerUserTurnStarted => settle (on_self triggerUserTurnStarted)
  | call_triggerUserTurnFinished => on_self triggerUserTurnFinished
  | socket current e =>
      p <- get ;;
      if negb current || Client.socket_can e (ws (self p)) then
        match e with
        | Client.sock_open =>
            on_self (when current (set_readyState OPEN) ;; ws_onopen)
        | Client.sock_close =>
            on_self (when current (set_readyState CLOSED) ;; ws_onclose)
        | Client.sock_error => on_self ws_onerror
        | Client.sock_message event =>
            settle (on_self (_handleWebSocketMessage base64ToArrayBuffer event))
        end
      else ret tt
  | data_available data =>
      on_self (_handleDataAvailable arrayBufferToBase64 data)
  | micvad_resolved timer => clear_timeout timer ;; on_self vad_then
  | micvad_rejected e => on_self (vad_catch e)
  | model_timeout timer =>
      p <- get ;;
      if existsb (Nat.eqb timer) (timeouts p) then
        clear_timeout timer ;; on_self vad_model_timeout
      else ret tt
  | speech_start profile => on_self (onSpeechStart profile)
  | speech_end => on_self onSpeechEnd
  | vad_misfire profile suspended => on_self (onVADMisfire profile suspended)
  | context_resumed_settled r => on_self (context_resumed r)
  | worklet_offset r => settle (on_self (on_player (Player.interrupt_reply r)))
  | worklet_stop =>
      on_self (on_player Player.on_stop ;; _clientResponseAudioReplayFinished)
  end.

Fixpoint run (events : list Event) (p : Page) : Page * list Effect :=
  match events with
  | [] => (p, [])
  | e :: rest =>
      match fire e p with
      | (_, p1, t1) =>
          match run rest p1 with
          | (p2, t2) => (p2, t1 ++ t2)
          end
      end
  end.

End Pages.

End ClientPrev.

(* ------------------------------------------------------------------ *)
(** * Amplitude monitoring (every revision)                            *)
(* ------------------------------------------------------------------ *)

Definition AMPLITUDE_MONITORING_SAMPLE_RATE : nat := 10.

(** The closure that [_setupAmplitudeMonitoring] gives to
    [source.startAmplitudeMonitoring]; [updateCounter] is the variable
    it closes over.  It yields the amplitude it handed to
    [updateInternalState] and to the application's callback, if it did,
    and the counter afterwards.  (The test around it compares the
    callback with a fresh closure, which is never equal, so the closure
    is always installed.) *)
Definition amplitude_monitor (amplitude : float) (updateCounter : nat)
  : option float * nat :=
  if (AMPLITUDE_MONITORING_SAMPLE_RATE <=? updateCounter)%nat
  then (Some amplitude, 1)
  else (None, S updateCounter).

(** The amplitudes forwarded while the source reports [amplitudes]. *)
Fixpoint forwarded (amplitudes : list float) (updateCounter : nat)
  : list float :=
  match amplitudes with
  | [] => []
  | a :: rest =>
      match amplitude_monitor a updateCounter with
      | (Some x, updateCounter') => x :: forwarded rest updateCounter'
      | (None, updateCounter') => forwarded rest updateCounter'
      end
  end.

(** Stand-ins for the codec helpers, for closed examples: every chunk of
    samples is named by how many samples it has. *)
Definition toy_encode (data : Int16Array) : string :=
  match List.length data with
  | 0 => "AA=="
  | 1 => "AQ=="
  | 2 => "Ag=="
  | _ => "Aw=="
  end.

Definition toy_decode (content : value) : Outcome ArrayBuffer :=
  match content with
  | VStr _ => Return []
  | _ => Throw (Error "InvalidCharacterError")
  end.

(* ------------------------------------------------------------------ *)
(** * Reasoning about handlers                                         *)
(* ------------------------------------------------------------------ *)

Create HintDb js_monad.

#[global] Hint Unfold bind ret throw try_catch get gets modify emit when
  console lift of_outcome settle get_prop JSON_parse
  state_of trace_of outcome_of returns : js_monad.

(** Unfold the monad and split on whatever the code branches on. *)
Ltac js_unfold := autounfold with js_monad in *; cbn beta iota in *.

Ltac js_atom b :=
  lazymatch b with
  | negb ?x => js_atom x
  | andb ?x _ => js_atom x
  | orb ?x _ => js_atom x
  | _ => destruct b eqn:?
  end.

Ltac js_known :=
  match goal with
  | H : ?x = true |- context [?x] => rewrite H
  | H : ?x = false |- context [?x] => rewrite H
  end.

Ltac js_plain x :=
  lazymatch x with
  | context [match _ with _ => _ end] => fail
  | _ => idtac
  end.

Ltac js_case :=
  match goal with
  | |- context [if ?b then _ else _] => js_plain b; js_atom b
  | |- context [match ?x with _ => _ end] => js_plain x; destruct x eqn:?
  end.

Ltac js_step := cbn; repeat (js_known; cbn); try js_case.

Ltac js_exec := js_unfold; repeat (progress js_step).

(** Method calls stay folded until a proof opens them. *)
Arguments Client._wsSend : simpl never.
Arguments Client._sendReadyIfNeeded : simpl never.
Arguments Client._setStatus : simpl never.
Arguments Client._resetTurnTracking : simpl never.
Arguments Client._clientInterruptAssistantReplay : simpl never.
Arguments Client._clientInterruptAssistantReplay_resume : simpl never.
Arguments Client._clientResponseAudioReplayFinished : simpl never.
Arguments Client._initializeVAD : simpl never.
Arguments Client._setupAmplitudeBasedVAD : simpl never.
Arguments Client.on_player : simpl never.
Arguments Client.on_self : simpl never.
Arguments ClientPrev._wsSend : simpl never.
Arguments ClientPrev._setStatus : simpl never.
Arguments ClientPrev._clientInterruptAssistantReplay : simpl never.
Arguments ClientPrev.on_player : simpl never.
Arguments ws_is_open : simpl never.
Arguments truthy : simpl never.
Arguments is_str : simpl never.
Arguments strict_eq : simpl never.
Arguments for_of : simpl never.
Arguments count : simpl never.
Arguments Player.interrupted : simpl never.
Arguments lookup : simpl never.

(** A key that makes no own property is inherited, so a track once
    marked reads as interrupted either way. *)
Lemma proto_is_inherited : forall s,
  makes_own_property s = false -> inherited s = true.
Proof.
  intros s H. unfold makes_own_property in H. unfold inherited.
  destruct (String.eqb s "__proto__"); [reflexivity|discriminate H].
Qed.

Lemma marked_reads_interrupted : forall id ids,
  existsb (String.eqb id) (Player.mark id ids) || inherited id = true.
Proof.
  intros id ids. unfold Player.mark.
  destruct (makes_own_property id) eqn:Hown.
  - cbn [existsb]. rewrite String.eqb_refl. reflexivity.
  - rewrite (proto_is_inherited _ Hown). apply orb_true_r.
Qed.

(** What [_wsSend] puts on the socket. *)
Definition on_wire (w : option WebSocket) (ms : list ClientMessage)
  : list ClientMessage :=
  if ws_is_open w then ms else [].

(** The messages given to [_wsSend] that are not audio chunks: each one
    is logged as "sent ws msg:" whatever the state of the socket. *)
Fixpoint offered (t : list Effect) : list ClientMessage :=
  match t with
  | [] => []
  | Console LLog "sent ws msg:" [AMsg m] :: t' => m :: offered t'
  | _ :: t' => offered t'
  end.

Fixpoint audio_contents (ms : list ClientMessage) : list string :=
  match ms with
  | [] => []
  | ClientAudioMessage b :: ms' => b :: audio_contents ms'
  | _ :: ms' => audio_contents ms'
  end.

Lemma frames_app : forall t1 t2, frames (t1 ++ t2) = frames t1 ++ frames t2.
Proof.
  induction t1 as [|e t1 IH]; intros t2; [reflexivity|].
  destruct e; cbn; rewrite ?IH; reflexivity.
Qed.

Lemma audio_contents_app : forall m1 m2,
  audio_contents (m1 ++ m2) = audio_contents m1 ++ audio_contents m2.
Proof.
  induction m1 as [|m m1 IH]; intros m2; [reflexivity|].
  destruct m; cbn; rewrite ?IH; reflexivity.
Qed.

Lemma audio_contents_map : forall l,
  audio_contents (map ClientAudioMessage l) = l.
Proof. induction l; cbn; congruence. Qed.

Lemma count_app : forall A (p : A -> bool) l1 l2,
  count p (l1 ++ l2) = count p l1 + count p l2.
Proof.
  intros; unfold count; rewrite filter_app, length_app; reflexivity.
Qed.

Lemma frames_map_WsSend : forall ms, frames (map WsSend ms) = ms.
Proof. induction ms; cbn; congruence. Qed.

(* ------------------------------------------------------------------ *)
(** * Sending                                                          *)
(* ------------------------------------------------------------------ *)

(** C10.  When [this.ws] is null or its [readyState] is not [OPEN],
    [_wsSend] drops the message: nothing goes on the socket, no field of
    the client changes (so nothing is kept for later), no error is
    reported, no callback is invoked and nothing is thrown.  All that is
    left is the "sent ws msg:" line that [_wsSend] logs for every message
    that is not an audio chunk.  Both revisions. *)
Theorem wsSend_not_open_discards :
  forall (message : ClientMessage) (c : Client.LayercodeClient)
         (c' : ClientPrev.LayercodeClient),
    ws_is_open (Client.ws c) = false ->
    ws_is_open (ClientPrev.ws c') = false ->
    let r := Client._wsSend message c in
    let r' := ClientPrev._wsSend message c' in
    let log := if String.eqb (message_type message) "client.audio" then []
               else [Console LLog "sent ws msg:" [AMsg message]] in
    (outcome_of r = Return tt /\ state_of r = c /\ trace_of r = log) /\
    (outcome_of r' = Return tt /\ state_of r' = c' /\ trace_of r' = log) /\
    frames log = [] /\
    count is_error_report log = 0 /\
    count is_callback log = 0.
Proof.
  intros message c c' Hc Hc'.
  unfold Client._wsSend, ClientPrev._wsSend.
  js_unfold.
  destruct (String.eqb (message_type message) "client.audio");
    cbn; rewrite Hc, Hc'; cbn; auto 10.
Qed.

Definition vad_started : ClientMessage := ClientVadEventsMessage vad_start.

Lemma wsSend_not_open_discards_witness :
  ws_is_open (Client.ws (Client.new_LayercodeClient None VNull)) = false /\
  ws_is_open (ClientPrev.ws ClientPrev.new_LayercodeClient) = false /\
  state_of (Client._wsSend vad_started (Client.new_LayercodeClient None VNull))
  = Client.new_LayercodeClient None VNull.
Proof.
  split; [reflexivity|]. split; [reflexivity|].
  exact (proj1 (proj2 (proj1
    (wsSend_not_open_discards vad_started
       (Client.new_LayercodeClient None VNull) ClientPrev.new_LayercodeClient
       eq_refl eq_refl)))).
Defined.

(* ------------------------------------------------------------------ *)
(** * The audio gate                                                   *)
(* ------------------------------------------------------------------ *)

Section AudioGate.
Variable arrayBufferToBase64 : Int16Array -> string.

Lemma wsSend_audio : forall b c,
  Client._wsSend (ClientAudioMessage b) c
  = (Return tt, c, map WsSend (on_wire (Client.ws c) [ClientAudioMessage b])).
Proof.
  intros. unfold Client._wsSend, on_wire. js_exec; reflexivity.
Qed.

Lemma flush_buffer : forall l c,
  for_of l (fun b => Client._wsSend (ClientAudioMessage b)) c
  = (Return tt, c, map WsSend (on_wire (Client.ws c) (map ClientAudioMessage l))).
Proof.
  induction l as [|b l IH]; intros c.
  - unfold on_wire; cbn. destruct (ws_is_open (Client.ws c)); reflexivity.
  - unfold for_of; fold (@for_of Client.LayercodeClient string). unfold bind. rewrite wsSend_audio, IH.
    unfold on_wire. destruct (ws_is_open (Client.ws c)); reflexivity.
Qed.

Definition bounded_push (capacity : nat) (buffer : list string) (chunk : string)
  : list string :=
  let l := buffer ++ [chunk] in
  if (capacity <? List.length l)%nat then tl l else l.

Lemma set_audioBuffer_same : forall c,
  Client.set_audioBuffer (Client.audioBuffer c) c = c.
Proof. destruct c; reflexivity. Qed.

Definition flush_log (c : Client.LayercodeClient) : list Effect :=
  match Client.audioBuffer c with
  | [] => []
  | l => [Console LLog "Sending buffered audio chunks" [ANat (List.length l)]]
  end.

Lemma handleDataAvailable_eq : forall data c,
  Client._handleDataAvailable arrayBufferToBase64 data c
  = if Client.sendAudio c then
      (Return tt, Client.set_audioBuffer [] c,
       flush_log c ++
       map WsSend (on_wire (Client.ws c)
         (map ClientAudioMessage
            (Client.audioBuffer c ++ [arrayBufferToBase64 data]))))
    else
      (Return tt,
       Client.set_audioBuffer
         (bounded_push 10 (Client.audioBuffer c) (arrayBufferToBase64 data)) c,
       []).
Proof.
  intros data c. unfold Client._handleDataAvailable.
  set (base64 := arrayBufferToBase64 data).
  js_unfold.
  destruct (Client.sendAudio c).
  - unfold flush_log.
    destruct (Client.audioBuffer c) as [|b0 l] eqn:Hbuf; cbn.
    + rewrite wsSend_audio. rewrite <- Hbuf, set_audioBuffer_same.
      reflexivity.
    + rewrite flush_buffer. cbn. rewrite wsSend_audio. cbn.
      unfold on_wire. destruct (ws_is_open (Client.ws c)); cbn.
      * rewrite ?app_nil_r, !map_app. reflexivity.
      * reflexivity.
  - unfold bounded_push. cbn.
    match goal with |- context [if ?b then _ else _] => destruct b end;
      reflexivity.
Qed.

Lemma send_each_audio : forall l c,
  for_of (map ClientAudioMessage l) Client._wsSend c
  = (Return tt, c, map WsSend (on_wire (Client.ws c) (map ClientAudioMessage l))).
Proof.
  induction l as [|b l IH]; intros c.
  - unfold on_wire; cbn. destruct (ws_is_open (Client.ws c)); reflexivity.
  - cbn [map]. unfold for_of; fold (@for_of Client.LayercodeClient ClientMessage).
    unfold bind. rewrite wsSend_audio, IH.
    unfold on_wire. destruct (ws_is_open (Client.ws c)); reflexivity.
Qed.

(** C2.  For every captured chunk the send decision is
    [pushToTalkEnabled ? pushToTalkActive : userIsSpeaking].  When it is
    true, what the callback does is what calling [_wsSend] on each
    buffered chunk, oldest first, and then on the current chunk does,
    each as one [client.audio] message (so these go on the socket, in
    this order, when it is open); the buffer is left empty and nothing
    else changes.  When it is false nothing is sent and the chunk is
    appended to the buffer, whose oldest entry is dropped when that
    makes more than 10. *)
Theorem audio_gate_decision :
  forall (data : Int16Array) (c : Client.LayercodeClient),
    let base64 := arrayBufferToBase64 data in
    let r := Client._handleDataAvailable arrayBufferToBase64 data c in
    let decision :=
      if Client.pushToTalkEnabled c then Client.pushToTalkActive c
      else Client.userIsSpeaking c in
    let messages :=
      map ClientAudioMessage (Client.audioBuffer c ++ [base64]) in
    Client.sendAudio c = decision /\
    outcome_of r = Return tt /\
    if decision then
      trace_of r = flush_log c ++ trace_of (for_of messages Client._wsSend c) /\
      frames (trace_of r) = on_wire (Client.ws c) messages /\
      count is_error_callback (trace_of r) = 0 /\
      state_of r = Client.set_audioBuffer [] c
    else
      trace_of r = [] /\
      state_of r
      = Client.set_audioBuffer (bounded_push 10 (Client.audioBuffer c) base64) c.
Proof.
  intros data c. cbv zeta. split; [reflexivity|].
  rewrite handleDataAvailable_eq, send_each_audio. unfold Client.sendAudio.
  destruct (if Client.pushToTalkEnabled c then Client.pushToTalkActive c
            else Client.userIsSpeaking c); cbn; [|auto].
  rewrite frames_app, frames_map_WsSend, count_app.
  repeat split.
  - unfold flush_log. destruct (Client.audioBuffer c); reflexivity.
  - replace (count is_error_callback (flush_log c)) with 0
      by (unfold flush_log; destruct (Client.audioBuffer c); reflexivity).
    unfold count.
    induction (on_wire (Client.ws c)
                 (map ClientAudioMessage
                    (Client.audioBuffer c ++ [arrayBufferToBase64 data])));
      cbn; auto.
Qed.

End AudioGate.

(* ------------------------------------------------------------------ *)
(** * Subsequences: order kept, entries possibly dropped               *)
(* ------------------------------------------------------------------ *)

Inductive Subseq {A : Type} : list A -> list A -> Prop :=
| sub_nil : Subseq [] []
| sub_skip : forall x l1 l2, Subseq l1 l2 -> Subseq l1 (x :: l2)
| sub_keep : forall x l1 l2, Subseq l1 l2 -> Subseq (x :: l1) (x :: l2).

Create HintDb subseq.
#[global] Hint Constructors Subseq : subseq.

Lemma Subseq_refl : forall A (l : list A), Subseq l l.
Proof. induction l; auto with subseq. Qed.

Lemma Subseq_nil_l : forall A (l : list A), Subseq [] l.
Proof. induction l; auto with subseq. Qed.

Lemma Subseq_app : forall A (a b c d : list A),
  Subseq a b -> Subseq c d -> Subseq (a ++ c) (b ++ d).
Proof.
  intros A a b c d Hab Hcd. induction Hab; cbn; auto with subseq.
Qed.

Lemma Subseq_trans : forall A (a b c : list A),
  Subseq a b -> Subseq b c -> Subseq a c.
Proof.
  intros A a b c Hab Hbc. revert a Hab.
  induction Hbc; intros a Hab.
  - exact Hab.
  - auto with subseq.
  - inversion Hab; subst; auto with subseq.
Qed.

Lemma Subseq_tl : forall A (l : list A), Subseq (tl l) l.
Proof. destruct l; cbn; auto using Subseq_refl, Subseq_nil_l with subseq. Qed.

Lemma Subseq_length : forall A (a b : list A),
  Subseq a b -> List.length a <= List.length b.
Proof. induction 1; cbn; lia. Qed.

(* ------------------------------------------------------------------ *)
(** * Handlers that neither send audio nor touch the ready flag        *)
(* ------------------------------------------------------------------ *)

(** The player never writes to the socket. *)
Definition no_frames {S A} (m : M S A) : Prop :=
  forall s, frames (trace_of (m s)) = [].

Lemma no_frames_player_methods :
  no_frames Player.interrupt_request /\
  (forall r, no_frames (Player.interrupt_reply r)) /\
  no_frames Player.pause /\
  (forall suspended, no_frames (Player.play suspended)) /\
  (forall resumed, no_frames (Player.play_resumed resumed)) /\
  no_frames Player.disconnect /\
  no_frames Player.on_stop /\
  (forall l, no_frames (Player.clearInterruptedTracks l)) /\
  (forall b t, no_frames (Player.add16BitPCM b t)) /\
  no_frames (modify set_connected).
Proof.
  repeat split; unfold no_frames; intros;
    unfold Player.interrupt_request, Player.interrupt_reply, Player.pause,
      Player.play, Player.play_resumed, Player.play_stream,
      Player.disconnect, Player.on_stop,
      Player.clearInterruptedTracks, Player.add16BitPCM,
      Player.new_Int16Array, Player._start;
    js_exec; reflexivity.
Qed.

(** [gentle buffer ready rank m]: [m] leaves the audio buffer alone or
    empties it, puts no audio chunk on the socket, sends [client.ready]
    exactly when it raises the ready flag, and does not raise [rank]. *)
Section Gentle.
Variable S : Type.
Variable buffer : S -> list string.
Variable ready : S -> bool.
Variable rank : S -> bool.

Definition gentle {A} (m : M S A) : Prop :=
  forall s,
    let r := m s in
    (buffer (state_of r) = buffer s \/ buffer (state_of r) = []) /\
    audio_contents (frames (trace_of r)) = [] /\
    Nat.b2n (ready s) + count is_ready (frames (trace_of r))
    = Nat.b2n (ready (state_of r)) /\
    (rank (state_of r) = true -> rank s = true).

Lemma gentle_ret : forall A (a : A), gentle (ret a).
Proof. intros A a c; cbn; auto 6 with arith. Qed.

Lemma gentle_throw : forall A e, gentle (@throw _ A e).
Proof. intros A e c; cbn; auto 6 with arith. Qed.

Lemma gentle_get : gentle get.
Proof. intros c; cbn; auto 6 with arith. Qed.

Lemma gentle_emit : forall e, frames [e] = [] -> gentle (emit e).
Proof.
  intros e He c; unfold emit; cbn -[frames]. rewrite He. cbn.
  auto 6 with arith.
Qed.

Lemma gentle_console : forall lvl text args, gentle (console lvl text args).
Proof. intros; apply gentle_emit; reflexivity. Qed.

Lemma gentle_modify : forall f,
  (forall c, buffer (f c) = buffer c \/ buffer (f c) = []) ->
  (forall c, ready (f c) = ready c) ->
  (forall c, rank (f c) = true -> rank c = true) ->
  gentle (modify f).
Proof.
  intros f Hb Hr Hk c; cbn. rewrite Hr. auto with arith.
Qed.

Lemma gentle_bind : forall A B (m : M S A) (k : A -> M S B),
  gentle m -> (forall a, gentle (k a)) -> gentle (bind m k).
Proof.
  intros A B m k Hm Hk c. unfold bind.
  specialize (Hm c). cbv zeta in Hm.
  destruct (m c) as [[o s1] t1]; cbn in Hm.
  destruct o as [a|e]; [|exact Hm].
  specialize (Hk a s1). cbv zeta in Hk.
  destruct (k a s1) as [[o2 s2] t2]; cbn in Hk |- *.
  destruct Hm as (Hb1 & Ha1 & Hr1 & Hk1), Hk as (Hb2 & Ha2 & Hr2 & Hk2).
  rewrite frames_app, audio_contents_app, count_app, Ha1, Ha2.
  repeat split; [|lia|auto].
  destruct Hb2 as [ -> | -> ]; auto.
Qed.

Lemma gentle_try_catch : forall A (m : M S A) h,
  gentle m -> (forall e, gentle (h e)) -> gentle (try_catch m h).
Proof.
  intros A m h Hm Hh c. unfold try_catch.
  specialize (Hm c). cbv zeta in Hm.
  destruct (m c) as [[o s1] t1]; cbn in Hm.
  destruct o as [a|e]; [exact Hm|].
  specialize (Hh e s1). cbv zeta in Hh.
  destruct (h e s1) as [[o2 s2] t2]; cbn in Hh |- *.
  destruct Hm as (Hb1 & Ha1 & Hr1 & Hk1), Hh as (Hb2 & Ha2 & Hr2 & Hk2).
  rewrite frames_app, audio_contents_app, count_app, Ha1, Ha2.
  repeat split; [|lia|auto].
  destruct Hb2 as [ -> | -> ]; auto.
Qed.

Lemma gentle_settle : forall A (m : M S A), gentle m -> gentle (settle m).
Proof.
  intros A m Hm c. unfold settle. specialize (Hm c). cbv zeta in Hm.
  destruct (m c) as [[o s1] t1]; exact Hm.
Qed.

Lemma gentle_when : forall b m, gentle m -> gentle (when b m).
Proof. intros [] m Hm; [exact Hm | apply gentle_ret]. Qed.

Lemma gentle_of_outcome : forall A (o : Outcome A), gentle (of_outcome o).
Proof. intros A [a|e]; [apply gentle_ret | apply gentle_throw]. Qed.

Lemma gentle_get_prop : forall v k, gentle (get_prop v k).
Proof.
  intros v k; destruct v; cbn; auto using gentle_ret, gentle_throw.
Qed.

Lemma gentle_JSON_parse : forall ev, gentle (JSON_parse ev).
Proof. intros [d|d v]; cbn; auto using gentle_ret, gentle_throw. Qed.

(** A computation on a part that holds neither the buffer nor the flag
    and never writes to the socket. *)
Lemma gentle_lift_aside : forall P A (proj : S -> P) (inj : P -> S -> S)
                                 (m : M P A),
  no_frames m ->
  (forall x s, buffer (inj x s) = buffer s) ->
  (forall x s, ready (inj x s) = ready s) ->
  (forall x s, rank (inj x s) = rank s) ->
  gentle (lift proj inj m).
Proof.
  intros P A proj inj m Hm Hb Hr Hk s. unfold lift.
  specialize (Hm (proj s)). unfold trace_of in Hm.
  destruct (m (proj s)) as [[o s1] t1]; cbn in *.
  rewrite Hm, Hb, Hr, Hk. cbn. auto with arith.
Qed.

(** Forgetting the rank. *)
Lemma gentle_weaken : forall A (m : M S A),
  gentle m -> forall s,
    let r := m s in
    (buffer (state_of r) = buffer s \/ buffer (state_of r) = []) /\
    audio_contents (frames (trace_of r)) = [] /\
    Nat.b2n (ready s) + count is_ready (frames (trace_of r))
    = Nat.b2n (ready (state_of r)).
Proof. intros A m Hm s. destruct (Hm s) as (Hb & Ha & Hr & _). auto. Qed.

End Gentle.

(** A computation on the part that holds the buffer and the flag. *)
Lemma gentle_lift : forall S T A (bS : S -> list string) (rS kS : S -> bool)
                           (proj : T -> S) (inj : S -> T -> T) (m : M S A),
  gentle bS rS kS m ->
  (forall s t, proj (inj s t) = s) ->
  gentle (fun t => bS (proj t)) (fun t => rS (proj t)) (fun t => kS (proj t))
         (lift proj inj m).
Proof.
  intros S T A bS rS kS proj inj m Hm Hpi t. unfold lift.
  specialize (Hm (proj t)). cbv zeta in Hm.
  destruct (m (proj t)) as [[o s1] t1]; cbn in *.
  rewrite !Hpi. exact Hm.
Qed.

(** Both preconditions of [client.ready] hold. *)
Definition armed (c : Client.LayercodeClient) : bool :=
  Client.recorderStarted c && ws_is_open (Client.ws c).

(** [tame]: gentle, and the preconditions of [client.ready] are not
    newly met.  [tame0]: gentle, whatever happens to the preconditions. *)
Abbreviation tame := (gentle Client.audioBuffer Client.readySent armed).
Abbreviation tame0 :=
  (gentle Client.audioBuffer Client.readySent (fun _ => false)).

Lemma ws_close_not_open : forall w, ws_is_open (Some (ws_close w)) = false.
Proof. intros [[]]; reflexivity. Qed.

Lemma gentle_forget : forall A (m : M Client.LayercodeClient A),
  tame m -> tame0 m.
Proof.
  intros A m Hm c. destruct (Hm c) as (Hb & Ha & Hr & _).
  cbv zeta. repeat split; auto; discriminate.
Qed.

Lemma gentle_on_player : forall A rank (m : M WavStreamPlayer A),
  no_frames m ->
  (forall x c, rank (Client.set_wavPlayer x c) = rank c) ->
  gentle Client.audioBuffer Client.readySent rank (Client.on_player m).
Proof.
  intros A rank m Hm Hk. unfold Client.on_player.
  apply gentle_lift_aside; auto.
Qed.

Lemma gentle_wsSend : forall rank m,
  audio_contents [m] = [] -> is_ready m = false ->
  gentle Client.audioBuffer Client.readySent rank (Client._wsSend m).
Proof.
  intros rank m Ha Hr c. unfold Client._wsSend. js_unfold.
  destruct (String.eqb (message_type m) "client.audio"); cbn;
    destruct (ws_is_open (Client.ws c)); cbn;
    rewrite ?Ha; unfold count; cbn; rewrite ?Hr; cbn; auto 6 with arith.
Qed.

Lemma gentle_sendReadyIfNeeded : forall rank,
  (forall b c, rank (Client.set_readySent b c) = rank c) ->
  gentle Client.audioBuffer Client.readySent rank Client._sendReadyIfNeeded.
Proof.
  intros rank Hk c. unfold Client._sendReadyIfNeeded, Client._wsSend.
  js_exec; rewrite ?Hk; auto 6 with arith.
Qed.

Lemma tame_sendReadyIfNeeded : tame Client._sendReadyIfNeeded.
Proof. apply gentle_sendReadyIfNeeded; reflexivity. Qed.

Create HintDb tame.

#[global] Hint Resolve gentle_ret gentle_throw gentle_get gentle_console
  gentle_of_outcome gentle_get_prop gentle_JSON_parse
  tame_sendReadyIfNeeded : tame.

Ltac rank_side :=
  intro; unfold armed; cbn;
  rewrite ?ws_close_not_open, ?andb_false_r;
  try (intro; discriminate); auto.

Ltac tame_player :=
  apply gentle_on_player; [|reflexivity];
  first [ apply no_frames_player_methods
        | apply (proj1 (proj2 no_frames_player_methods))
        | apply (proj1 (proj2 (proj2 no_frames_player_methods)))
        | apply (proj1 (proj2 (proj2 (proj2 no_frames_player_methods))))
        | apply (proj1 (proj2 (proj2 (proj2 (proj2 no_frames_player_methods)))))
        | apply (proj1 (proj2 (proj2 (proj2 (proj2 (proj2 no_frames_player_methods))))))
        | apply (proj1 (proj2 (proj2 (proj2 (proj2 (proj2 (proj2 no_frames_player_methods)))))))
        | apply (proj1 (proj2 (proj2 (proj2 (proj2 (proj2 (proj2 (proj2 no_frames_player_methods))))))))
        | apply (proj1 (proj2 (proj2 (proj2 (proj2 (proj2 (proj2 (proj2 (proj2 no_frames_player_methods)))))))))
        | apply (proj2 (proj2 (proj2 (proj2 (proj2 (proj2 (proj2 (proj2 (proj2 no_frames_player_methods))))))))) ].

Ltac tame_tac :=
  repeat first
    [ solve [auto with tame]
    | solve [apply gentle_forget; auto with tame]
    | apply gentle_bind; [|intro; cbn beta]
    | apply gentle_try_catch; [|intro; cbn beta]
    | apply gentle_settle
    | apply gentle_when
    | apply gentle_emit; reflexivity
    | apply gentle_modify; [intro; cbn; auto | intro; reflexivity | rank_side]
    | apply gentle_wsSend; reflexivity
    | tame_player
    | match goal with
      | |- gentle _ _ _ (if ?b then _ else _) => destruct b
      | |- gentle _ _ _ (match ?x with _ => _ end) => destruct x
      end ].

(** Every method and callback of the client except the audio gate. *)

Lemma tame_set_readyState : forall s,
  s <> OPEN -> tame (Client.set_readyState s).
Proof.
  intros s Hs. unfold Client.set_readyState. apply gentle_modify; intro c;
    destruct (Client.ws c); unfold armed; cbn; auto.
  destruct s; try congruence; rewrite andb_false_r; discriminate.
Qed.

Lemma tame0_set_readyState : forall s, tame0 (Client.set_readyState s).
Proof.
  intros s. unfold Client.set_readyState. apply gentle_modify; intro c;
    destruct (Client.ws c); cbn; auto.
Qed.

Lemma tame_set_readyState_CLOSED : tame (Client.set_readyState CLOSED).
Proof. apply tame_set_readyState; discriminate. Qed.

#[global] Hint Resolve tame0_set_readyState tame_set_readyState_CLOSED : tame.

Lemma tame_setStatus : forall s, tame (Client._setStatus s).
Proof. intros; unfold Client._setStatus; tame_tac. Qed.

#[global] Hint Resolve tame_setStatus : tame.

Lemma tame_resetTurnTracking : tame Client._resetTurnTracking.
Proof. intros; unfold Client._resetTurnTracking; tame_tac. Qed.

#[global] Hint Resolve tame_resetTurnTracking : tame.

Lemma tame_interrupt_resume : forall d, tame (Client._clientInterruptAssistantReplay_resume d).
Proof. intros; unfold Client._clientInterruptAssistantReplay_resume; tame_tac. Qed.

#[global] Hint Resolve tame_interrupt_resume : tame.

Lemma tame_interrupt : tame Client._clientInterruptAssistantReplay.
Proof. intros; unfold Client._clientInterruptAssistantReplay; tame_tac. Qed.

#[global] Hint Resolve tame_interrupt : tame.

Lemma tame_offset_reply : forall r, tame (Client.offset_reply r).
Proof. intros; unfold Client.offset_reply; tame_tac. Qed.

#[global] Hint Resolve tame_offset_reply : tame.

Lemma tame_replay_finished : tame Client._clientResponseAudioReplayFinished.
Proof. intros; unfold Client._clientResponseAudioReplayFinished; tame_tac. Qed.

#[global] Hint Resolve tame_replay_finished : tame.

Lemma tame_triggerUserTurnStarted : tame Client.triggerUserTurnStarted.
Proof. intros; unfold Client.triggerUserTurnStarted; tame_tac. Qed.

#[global] Hint Resolve tame_triggerUserTurnStarted : tame.

Lemma tame_triggerUserTurnFinished : tame Client.triggerUserTurnFinished.
Proof. intros; unfold Client.triggerUserTurnFinished; tame_tac. Qed.

#[global] Hint Resolve tame_triggerUserTurnFinished : tame.

Lemma tame_handleWebSocketMessage : forall dec ev, tame (Client._handleWebSocketMessage dec ev).
Proof. intros; unfold Client._handleWebSocketMessage; tame_tac. Qed.

#[global] Hint Resolve tame_handleWebSocketMessage : tame.

Lemma tame_amplitude_callback : forall a k, tame (Client.amplitude_callback a k).
Proof. intros; unfold Client.amplitude_callback; tame_tac. Qed.

#[global] Hint Resolve tame_amplitude_callback : tame.

Lemma tame_setupAmplitudeBasedVAD : tame Client._setupAmplitudeBasedVAD.
Proof. intros; unfold Client._setupAmplitudeBasedVAD; tame_tac. Qed.

#[global] Hint Resolve tame_setupAmplitudeBasedVAD : tame.

Lemma tame_initializeVAD : tame Client._initializeVAD.
Proof. intros; unfold Client._initializeVAD; tame_tac. Qed.

#[global] Hint Resolve tame_initializeVAD : tame.

Lemma tame_vad_model_timeout : tame Client.vad_model_timeout.
Proof. intros; unfold Client.vad_model_timeout; tame_tac. Qed.

#[global] Hint Resolve tame_vad_model_timeout : tame.

Lemma tame_vad_then : forall p, tame (Client.vad_then p).
Proof. intros; unfold Client.vad_then; tame_tac. Qed.

#[global] Hint Resolve tame_vad_then : tame.

Lemma tame_vad_catch : forall e, tame (Client.vad_catch e).
Proof. intros; unfold Client.vad_catch; tame_tac. Qed.

#[global] Hint Resolve tame_vad_catch : tame.

Lemma tame_onSpeechStart : forall p, tame (Client.onSpeechStart p).
Proof. intros; unfold Client.onSpeechStart; tame_tac. Qed.

#[global] Hint Resolve tame_onSpeechStart : tame.

Lemma tame_onSpeechEnd : forall p, tame (Client.onSpeechEnd p).
Proof. intros; unfold Client.onSpeechEnd; tame_tac. Qed.

#[global] Hint Resolve tame_onSpeechEnd : tame.

Lemma tame_onVADMisfire : tame Client.onVADMisfire.
Proof. intros; unfold Client.onVADMisfire; tame_tac. Qed.

#[global] Hint Resolve tame_onVADMisfire : tame.

Lemma tame_misfire_resume : tame Client.misfire_resume.
Proof. intros; unfold Client.misfire_resume; tame_tac. Qed.

#[global] Hint Resolve tame_misfire_resume : tame.

Lemma tame_connect_catch : forall A e, tame (@Client.connect_catch A e).
Proof. intros; unfold Client.connect_catch; tame_tac. Qed.

#[global] Hint Resolve tame_connect_catch : tame.

Lemma tame_connect : tame Client.connect.
Proof. intros; unfold Client.connect; tame_tac. Qed.

#[global] Hint Resolve tame_connect : tame.

Lemma tame_connect_authorized : forall r, tame (Client.connect_authorized r).
Proof. intros; unfold Client.connect_authorized; tame_tac. Qed.

#[global] Hint Resolve tame_connect_authorized : tame.

Lemma tame_connect_begun : forall r, tame (Client.connect_begun r).
Proof. intros; unfold Client.connect_begun; tame_tac. Qed.

#[global] Hint Resolve tame_connect_begun : tame.

Lemma tame_connect_recording : forall r, tame (Client.connect_recording r).
Proof. intros; unfold Client.connect_recording; tame_tac. Qed.

#[global] Hint Resolve tame_connect_recording : tame.

Lemma tame_ws_onopen : tame Client.ws_onopen.
Proof. intros; unfold Client.ws_onopen; tame_tac. Qed.

#[global] Hint Resolve tame_ws_onopen : tame.

Lemma tame_ws_onclose : tame Client.ws_onclose.
Proof. intros; unfold Client.ws_onclose; tame_tac. Qed.

#[global] Hint Resolve tame_ws_onclose : tame.

Lemma tame_ws_onerror : tame Client.ws_onerror.
Proof. intros; unfold Client.ws_onerror; tame_tac. Qed.

#[global] Hint Resolve tame_ws_onerror : tame.

Lemma tame_disconnect : tame Client.disconnect.
Proof. intros; unfold Client.disconnect; tame_tac. Qed.

#[global] Hint Resolve tame_disconnect : tame.

Lemma tame0_connect_player_connected : forall r,
  tame0 (Client.connect_player_connected r).
Proof. intros; unfold Client.connect_player_connected; tame_tac. Qed.

(* ------------------------------------------------------------------ *)
(** * Every event of the page                                          *)
(* ------------------------------------------------------------------ *)

Abbreviation page_tame :=
  (gentle (fun page => Client.audioBuffer (Client.self page))
          (fun page => Client.readySent (Client.self page))
          (fun page => armed (Client.self page))).

Abbreviation page_tame0 :=
  (gentle (fun page => Client.audioBuffer (Client.self page))
          (fun page => Client.readySent (Client.self page))
          (fun page => (fun _ : Client.LayercodeClient => false) (Client.self page))).

Lemma page_tame_on_self : forall A (m : M Client.LayercodeClient A),
  tame m -> page_tame (Client.on_self m).
Proof.
  intros A m Hm. unfold Client.on_self.
  apply (@gentle_lift _ _ _ Client.audioBuffer Client.readySent armed
           Client.self Client.set_self m Hm).
  reflexivity.
Qed.

Lemma page_tame0_on_self : forall A (m : M Client.LayercodeClient A),
  tame0 m -> page_tame0 (Client.on_self m).
Proof.
  intros A m Hm. unfold Client.on_self.
  apply (@gentle_lift _ _ _ Client.audioBuffer Client.readySent
           (fun _ => false) Client.self Client.set_self m Hm).
  reflexivity.
Qed.

Ltac page_tac :=
  repeat first
    [ apply gentle_bind; [|intro; cbn beta]
    | apply gentle_settle
    | apply gentle_ret
    | apply gentle_get
    | apply gentle_modify;
        [intro; cbn; auto | intro; reflexivity | intro; cbn; auto]
    | apply page_tame_on_self; solve [auto with tame | tame_tac]
    | apply page_tame0_on_self;
        solve [auto using tame0_connect_player_connected with tame | tame_tac]
    | match goal with
      | |- gentle _ _ _ (if ?b then _ else _) => destruct b
      | |- gentle _ _ _ (match ?x with _ => _ end) => destruct x
      end ].

Section ClientRuns.
Variable arrayBufferToBase64 : Int16Array -> string.
Variable base64ToArrayBuffer : value -> Outcome ArrayBuffer.

Let fire := Client.fire arrayBufferToBase64 base64ToArrayBuffer.
Let run := Client.run arrayBufferToBase64 base64ToArrayBuffer.

Definition is_capture (e : Client.Event) : bool :=
  match e with Client.data_available _ => true | _ => false end.


Lemma fire_tame0 : forall e, is_capture e = false -> page_tame0 (fire e).
Proof.
  intros e He. destruct e; try discriminate He; clear He;
    unfold fire, Client.fire, Client.arm_timeout, Client.clear_timeout,
      Client.add_detector, Client.set_detector;
    page_tac.
Qed.


(** The chunks handed to the capture callback, in order. *)
Definition captured (e : Client.Event) : list string :=
  match e with
  | Client.data_available data => [arrayBufferToBase64 data]
  | _ => []
  end.

Lemma bounded_push_length : forall buffer chunk,
  List.length buffer <= 10 ->
  List.length (bounded_push 10 buffer chunk) <= 10.
Proof.
  intros buffer chunk H. unfold bounded_push.
  destruct (Nat.ltb_spec 10 (List.length (buffer ++ [chunk]))) as [Hlt|Hle].
  - rewrite length_app in Hlt. cbn in Hlt.
    destruct buffer; cbn in *; [lia|]. rewrite length_app. cbn. lia.
  - exact Hle.
Qed.

Lemma bounded_push_Subseq : forall buffer chunk,
  Subseq (bounded_push 10 buffer chunk) (buffer ++ [chunk]).
Proof.
  intros. unfold bounded_push.
  destruct (Nat.ltb 10 (List.length (buffer ++ [chunk])));
    auto using Subseq_tl, Subseq_refl.
Qed.

Lemma fire_capture : forall data p,
  fire (Client.data_available data) p
  = let c := Client.self p in
    if Client.sendAudio c then
      (Return tt, Client.set_self (Client.set_audioBuffer [] c) p,
       flush_log c ++
       map WsSend (on_wire (Client.ws c)
         (map ClientAudioMessage
            (Client.audioBuffer c ++ [arrayBufferToBase64 data]))))
    else
      (Return tt,
       Client.set_self
         (Client.set_audioBuffer
            (bounded_push 10 (Client.audioBuffer c) (arrayBufferToBase64 data))
            c) p,
       []).
Proof.
  intros data p. unfold fire, Client.fire, Client.on_self, lift.
  rewrite handleDataAvailable_eq.
  destruct (Client.sendAudio (Client.self p)); reflexivity.
Qed.

Lemma frames_flush_log : forall c, frames (flush_log c) = [].
Proof.
  intros c. unfold flush_log. destruct (Client.audioBuffer c); reflexivity.
Qed.

Lemma count_ready_audio : forall l,
  count is_ready (map ClientAudioMessage l) = 0.
Proof. induction l; cbn; auto. Qed.

(** What one event does to the buffer, the socket and the ready flag. *)
Lemma fire_contract : forall e p,
  let r := fire e p in
  let c := Client.self p in
  let c' := Client.self (state_of r) in
  Subseq (audio_contents (frames (trace_of r)) ++ Client.audioBuffer c')
         (Client.audioBuffer c ++ captured e) /\
  (List.length (Client.audioBuffer c) <= 10 ->
   List.length (Client.audioBuffer c') <= 10) /\
  Nat.b2n (Client.readySent c) + count is_ready (frames (trace_of r))
  = Nat.b2n (Client.readySent c').
Proof.
  intros e p. destruct (is_capture e) eqn:He.
  - destruct e; try discriminate He. cbv zeta.
    rewrite fire_capture. cbv zeta.
    destruct (Client.sendAudio (Client.self p)); cbn.
    + rewrite app_nil_r, frames_app, frames_map_WsSend, frames_flush_log.
      cbn. unfold on_wire.
      destruct (ws_is_open (Client.ws (Client.self p))).
      * rewrite audio_contents_map, count_ready_audio.
        repeat split; auto using Subseq_refl with arith.
      * cbn. repeat split; auto using Subseq_nil_l with arith.
    + repeat split;
        auto using bounded_push_Subseq, bounded_push_length with arith.
  - pose proof (gentle_weaken (fire_tame0 e He) p) as H.
    cbv zeta in H |- *.
    destruct H as (Hb & Ha & Hr). rewrite Ha.
    replace (captured e) with (@nil string)
      by (destruct e; try reflexivity; discriminate He).
    rewrite app_nil_r. cbn [app].
    repeat split; [| |exact Hr].
    + destruct Hb as [ -> | -> ]; auto using Subseq_refl, Subseq_nil_l.
    + intros Hlen. destruct Hb as [ -> | -> ]; cbn; auto with arith.
Qed.

Lemma run_contract : forall events p,
  let r := run events p in
  Subseq (audio_contents (frames (snd r))
          ++ Client.audioBuffer (Client.self (fst r)))
         (Client.audioBuffer (Client.self p) ++ flat_map captured events) /\
  (List.length (Client.audioBuffer (Client.self p)) <= 10 ->
   List.length (Client.audioBuffer (Client.self (fst r))) <= 10) /\
  Nat.b2n (Client.readySent (Client.self p)) + count is_ready (frames (snd r))
  = Nat.b2n (Client.readySent (Client.self (fst r))).
Proof.
  induction events as [|e rest IH]; intros p; cbv zeta.
  - cbn. rewrite app_nil_r. auto using Subseq_refl with arith.
  - unfold run; cbn [Client.run]; fold run.
    pose proof (fire_contract e p) as Hf. cbv zeta in Hf. fold fire.
    unfold state_of, trace_of in Hf.
    destruct (fire e p) as [[o p1] t1]. cbn [fst snd] in Hf.
    specialize (IH p1). cbv zeta in IH.
    destruct (run rest p1) as [p2 t2]. cbn [fst snd] in IH |- *.
    destruct Hf as (Hs1 & Hl1 & Hr1), IH as (Hs2 & Hl2 & Hr2).
    rewrite frames_app, audio_contents_app, count_app.
    repeat split; [| auto | lia].
    cbn [flat_map].
    apply Subseq_trans
      with (b := audio_contents (frames t1)
                 ++ (Client.audioBuffer (Client.self p1)
                     ++ flat_map captured rest)).
    + rewrite <- app_assoc. apply Subseq_app; [apply Subseq_refl | exact Hs2].
    + rewrite !app_assoc. apply Subseq_app; [exact Hs1 | apply Subseq_refl].
Qed.








(** C3. The audio chunk buffer never holds more than 10 entries,
    whatever sequence of events the page has seen since the client was
    constructed; a capture step whose send decision is true leaves the
    buffer empty; and chunks go out in the order they were captured: the
    chunks put on the socket, followed by those still buffered, are a
    subsequence of the captured chunks, and one flush sends the buffered
    chunks oldest first and then the current one. *)
Theorem audio_buffer_bounded_emptied_in_order :
  forall (opt_delay : option nat) (opt_session : value)
         (events : list Client.Event)
         (data : Int16Array) (c : Client.LayercodeClient),
    let fresh :=
      Client.new_Page (Client.new_LayercodeClient opt_delay opt_session) in
    let r := run events fresh in
    let step := Client._handleDataAvailable arrayBufferToBase64 data c in
    List.length (Client.audioBuffer (Client.self (fst r))) <= 10 /\
    Subseq (audio_contents (frames (snd r))
            ++ Client.audioBuffer (Client.self (fst r)))
           (flat_map captured events) /\
    if Client.sendAudio c then
      Client.audioBuffer (state_of step) = [] /\
      frames (trace_of step)
      = on_wire (Client.ws c)
          (map ClientAudioMessage
             (Client.audioBuffer c ++ [arrayBufferToBase64 data]))
    else
      frames (trace_of step) = [] /\
      Client.audioBuffer (state_of step)
      = bounded_push 10 (Client.audioBuffer c) (arrayBufferToBase64 data).
Proof.
  intros opt_delay opt_session events data c. cbv zeta.
  pose proof (run_contract events
                (Client.new_Page
                   (Client.new_LayercodeClient opt_delay opt_session)))
    as (Hs & Hl & _).
  split; [apply Hl; cbn; lia|].
  split; [exact Hs|].
  rewrite handleDataAvailable_eq.
  destruct (Client.sendAudio c); cbn; [|auto].
  rewrite frames_app, frames_map_WsSend, frames_flush_log. auto.
Qed.


End ClientRuns.

(* ------------------------------------------------------------------ *)
(** * Two connections with one client object                           *)
(* ------------------------------------------------------------------ *)

Definition authorize_automatic : Outcome Client.AuthorizeResponse :=
  Return {| Client.ok := true;
            Client.body :=
              Return (VObj [("client_session_key", VStr "key");
                            ("session_id", VStr "session");
                            ("config",
                             VObj [("transcription",
                                    VObj [("trigger", VStr "automatic");
                                          ("can_interrupt", VBool true)])])]) |}.

(** [connect()], with the socket opening before or after the recorder
    and the player have started. *)
Definition connection_socket_first : list Client.Event :=
  [ Client.call_connect;
    Client.fetch_settled authorize_automatic;
    Client.socket true Client.sock_open;
    Client.recorder_begin_settled (Return tt);
    Client.recorder_record_settled (Return tt);
    Client.player_connect_settled (Return tt) ].






Definition fresh_page : Client.Page :=
  Client.new_Page (Client.new_LayercodeClient None VNull).


(* ------------------------------------------------------------------ *)
(** * The dispatcher                                                   *)
(* ------------------------------------------------------------------ *)

(** [message.type] of a parsed frame that is not [null]. *)
Definition type_of (message : value) : value :=
  match message with
  | VObj fields => lookup "type" fields
  | _ => VUndefined
  end.

(** The [case] labels of the [switch], in either revision. *)
Definition handled (type : value) : bool :=
  is_str type "turn.start" || is_str type "response.audio"
  || is_str type "response.text" || is_str type "response.data".

Definition handled_prev (type : value) : bool :=
  is_str type "turn.start" || is_str type "response.audio"
  || is_str type "response.data".

Definition is_interrupt_call (e : Effect) : bool :=
  match e with PlayerInterruptCalled => true | _ => false end.

Definition is_pause_call (e : Effect) : bool :=
  match e with PlayerPauseCalled => true | _ => false end.

Lemma get_prop_type : forall (S : Type) message (s : S),
  message <> VNull -> message <> VUndefined ->
  get_prop message "type" s = (Return (type_of message), s, []).
Proof.
  intros S message s Hn Hu. destruct message; try congruence; reflexivity.
Qed.

Section Dispatcher.
Variable base64ToArrayBuffer : value -> Outcome ArrayBuffer.

(** The [default:] arm, as the code has it: every frame whose type is
    not a [case] label is reported with [console.error]. *)
Lemma default_arm : forall data message c,
  message <> VNull -> message <> VUndefined ->
  handled (type_of message) = false ->
  Client._handleWebSocketMessage base64ToArrayBuffer (Json data message) c
  = (Return Client.Settled, c,
     [Console LLog "received ws msg:" [AVal message];
      Console LError "Unknown message type received:" [AVal message]]).
Proof.
  intros data message c Hn Hu Hh. unfold handled in Hh.
  apply orb_false_elim in Hh as [Hh Hd].
  apply orb_false_elim in Hh as [Hh Ht].
  apply orb_false_elim in Hh as [Hs Ha].
  unfold Client._handleWebSocketMessage, try_catch, bind at 1, JSON_parse, ret.
  unfold bind at 1. rewrite get_prop_type by assumption.
  rewrite Ha. cbn [negb when]. unfold bind at 1, console, emit.
  unfold bind at 1. rewrite get_prop_type by assumption.
  rewrite Hs, Ha, Ht, Hd. reflexivity.
Qed.

Lemma default_arm_prev : forall data message c,
  message <> VNull -> message <> VUndefined ->
  handled_prev (type_of message) = false ->
  ClientPrev._handleWebSocketMessage base64ToArrayBuffer (Json data message) c
  = (Return false, c,
     [Console LLog "received ws msg:" [AVal message];
      Console LError "Unknown message type received:" [AVal message]]).
Proof.
  intros data message c Hn Hu Hh.
  unfold handled_prev in Hh.
  apply orb_false_elim in Hh as [Hh Hd].
  apply orb_false_elim in Hh as [Hs Ha].
  unfold ClientPrev._handleWebSocketMessage, try_catch, bind at 1, JSON_parse, ret.
  unfold bind at 1. rewrite get_prop_type by assumption.
  rewrite Ha. cbn [negb when]. unfold bind at 1, console, emit.
  unfold bind at 1. rewrite get_prop_type by assumption.
  rewrite Hs, Ha, Hd. reflexivity.
Qed.
End Dispatcher.

Lemma set_wavPlayer_same : forall c,
  Client.set_wavPlayer (Client.wavPlayer c) c = c.
Proof. destruct c; reflexivity. Qed.

Lemma set_wavPlayer_same_prev : forall c,
  ClientPrev.set_wavPlayer (ClientPrev.wavPlayer c) c = c.
Proof. destruct c; reflexivity. Qed.

Lemma interrupt_eq : forall c,
  Client._clientInterruptAssistantReplay c
  = if stream (Client.wavPlayer c) then
      (Return Client.AwaitingOffset, c,
       [PlayerInterruptCalled; PortPostMessage wk_interrupt])
    else
      (Return Client.Settled, c,
       [PlayerInterruptCalled;
        Console LWarn "Interruption requested but missing required data:"
          [ABool false; ABool (truthy (Client.currentTurnId c))]]).
Proof.
  intros c.
  unfold Client._clientInterruptAssistantReplay, Client.on_player,
    Player.interrupt_request, Client._clientInterruptAssistantReplay_resume.
  js_unfold.
  destruct (stream (Client.wavPlayer c)); cbn;
    rewrite set_wavPlayer_same; reflexivity.
Qed.

Lemma interrupt_prev_eq : forall c,
  ClientPrev._clientInterruptAssistantReplay c
  = if stream (ClientPrev.wavPlayer c) then
      (Return true, c, [PlayerInterruptCalled; PortPostMessage wk_interrupt])
    else (Return false, c, [PlayerInterruptCalled]).
Proof.
  intros c.
  unfold ClientPrev._clientInterruptAssistantReplay, ClientPrev.on_player,
    Player.interrupt_request.
  js_unfold.
  destruct (stream (ClientPrev.wavPlayer c)); cbn;
    rewrite set_wavPlayer_same_prev; reflexivity.
Qed.

Lemma user_is_not_assistant : forall role,
  is_str role "user" = true -> is_str role "assistant" = false.
Proof.
  intros [] H; try discriminate H. unfold is_str in *.
  apply String.eqb_eq in H. subst. reflexivity.
Qed.

Section TurnStart.
Variable base64ToArrayBuffer : value -> Outcome ArrayBuffer.

Definition turn_start_logs (message : value) : list Effect :=
  [Console LLog "received ws msg:" [AVal message];
   Console LLog "received turn.start from server" [];
   Console LLog "" [AVal message]].

Lemma turn_start_eq : forall data fields c,
  is_str (lookup "type" fields) "turn.start" = true ->
  let message := VObj fields in
  let role := lookup "role" fields in
  Client._handleWebSocketMessage base64ToArrayBuffer (Json data message) c
  = if is_str role "assistant" then
      (Return Client.Settled, c,
       turn_start_logs message ++
       [Console LLog "Assistant turn started, will track new turn ID from audio/text" []])
    else if is_str role "user" && negb (Client.pushToTalkEnabled c) then
      let r := Client._clientInterruptAssistantReplay c in
      (outcome_of r, c,
       turn_start_logs message ++
       Console LLog "interrupting assistant audio, as user turn has started and pushToTalkEnabled is false" []
       :: trace_of r)
    else (Return Client.Settled, c, turn_start_logs message).
Proof.
  intros data fields c Ht. cbv zeta.
  assert (Ha : is_str (lookup "type" fields) "response.audio" = false).
  { destruct (lookup "type" fields); try discriminate Ht.
    unfold is_str in *. apply String.eqb_eq in Ht. subst. reflexivity. }
  unfold Client._handleWebSocketMessage. js_unfold. rewrite Ha. cbn.
  rewrite Ht. cbn.
  destruct (is_str (lookup "role" fields) "assistant"); cbn; [reflexivity|].
  destruct (is_str (lookup "role" fields) "user"); cbn; [|reflexivity].
  destruct (Client.pushToTalkEnabled c); cbn; [reflexivity|].
  rewrite interrupt_eq.
  destruct (stream (Client.wavPlayer c)); reflexivity.
Qed.

Lemma turn_start_prev_eq : forall data fields c,
  is_str (lookup "type" fields) "turn.start" = true ->
  let message := VObj fields in
  let role := lookup "role" fields in
  ClientPrev._handleWebSocketMessage base64ToArrayBuffer (Json data message) c
  = if is_str role "user" && negb (ClientPrev.pushToTalkEnabled c)
       && ClientPrev.canInterrupt c then
      let r := ClientPrev._clientInterruptAssistantReplay c in
      (outcome_of r, c,
       turn_start_logs message ++
       Console LLog "interrupting assistant audio, as user turn has started and pushToTalkEnabled is false" []
       :: trace_of r)
    else (Return false, c, turn_start_logs message).
Proof.
  intros data fields c Ht. cbv zeta.
  assert (Ha : is_str (lookup "type" fields) "response.audio" = false).
  { destruct (lookup "type" fields); try discriminate Ht.
    unfold is_str in *. apply String.eqb_eq in Ht. subst. reflexivity. }
  unfold ClientPrev._handleWebSocketMessage. js_unfold. rewrite Ha. cbn.
  rewrite Ht. cbn.
  destruct (is_str (lookup "role" fields) "user"); cbn; [|reflexivity].
  destruct (ClientPrev.pushToTalkEnabled c); cbn; [reflexivity|].
  destruct (ClientPrev.canInterrupt c); cbn; [|reflexivity].
  rewrite interrupt_prev_eq.
  destruct (stream (ClientPrev.wavPlayer c)); reflexivity.
Qed.

End TurnStart.

Definition fresh_client : Client.LayercodeClient :=
  Client.new_LayercodeClient None VNull.

Definition speech_send_tracking : value :=
  VObj [("type", VStr "speech_send_tracking");
        ("timestamp", VNum 123456%float);
        ("text", VStr "hi")].

Definition unhandled_report (message : value) : list Effect :=
  [Console LLog "received ws msg:" [AVal message];
   Console LError "Unknown message type received:" [AVal message]].

(** C1, the code at the failing inputs.  A frame with an unknown type
    and the empty object are both reported with [console.error] and the
    text "Unknown message type received:", in both revisions; there is no
    [console.debug] report.  The error callback is not invoked and the
    status does not change. *)
Theorem unhandled_message_reported_as_error :
  let r1 := Client._handleWebSocketMessage toy_decode
              (Json "{type:speech_send_tracking,timestamp:123456,text:hi}"
                 speech_send_tracking) fresh_client in
  let r2 := Client._handleWebSocketMessage toy_decode
              (Json "{}" (VObj [])) fresh_client in
  let r3 := ClientPrev._handleWebSocketMessage toy_decode
              (Json "{type:speech_send_tracking,timestamp:123456,text:hi}"
                 speech_send_tracking) ClientPrev.new_LayercodeClient in
  let r4 := ClientPrev._handleWebSocketMessage toy_decode
              (Json "{}" (VObj [])) ClientPrev.new_LayercodeClient in
  trace_of r1 = unhandled_report speech_send_tracking /\
  trace_of r2 = unhandled_report (VObj []) /\
  trace_of r3 = unhandled_report speech_send_tracking /\
  trace_of r4 = unhandled_report (VObj []) /\
  count is_error_report (trace_of r1) = 1 /\
  count is_debug_report (trace_of r1) = 0 /\
  count is_error_report (trace_of r2) = 1 /\
  count is_debug_report (trace_of r2) = 0 /\
  count is_error_callback (trace_of r1 ++ trace_of r2) = 0 /\
  state_of r1 = fresh_client /\ state_of r2 = fresh_client.
Proof. vm_compute. auto 12. Qed.

Lemma count_b2n_cons : forall (p : Effect -> bool) e t,
  count p (e :: t) = Nat.b2n (p e) + count p t.
Proof. intros p e t. unfold count. cbn. destruct (p e); reflexivity. Qed.

(** What the interruption routine says, used below and for the report. *)
Definition missing_data_warning (hasOffsetData hasTurnId : bool) : Effect :=
  Console LWarn "Interruption requested but missing required data:"
    [ABool hasOffsetData; ABool hasTurnId].

Definition interrupted_message (seconds : float) (turn_id : value)
  : ClientMessage :=
  ClientTriggerResponseAudioInterruptedMessage
    (PrimFloat.mul seconds 1000%float) turn_id
    (PrimFloat.mul seconds 1000%float).

Lemma wsSend_eq : forall m c,
  Client._wsSend m c
  = (Return tt, c,
     (if String.eqb (message_type m) "client.audio" then []
      else [Console LLog "sent ws msg:" [AMsg m]])
     ++ map WsSend (on_wire (Client.ws c) [m])).
Proof.
  intros m c. unfold Client._wsSend, on_wire. js_unfold.
  destruct (String.eqb (message_type m) "client.audio"); cbn;
    destruct (ws_is_open (Client.ws c)); reflexivity.
Qed.

Lemma interrupt_resume_eq : forall offsetData c,
  Client._clientInterruptAssistantReplay_resume offsetData c
  = match offsetData with
    | Some d =>
        if truthy (Client.currentTurnId c) then
          let m := interrupted_message (Player.currentTime d)
                     (Client.currentTurnId c) in
          (Return tt, c,
           Console LLog "sent ws msg:" [AMsg m]
           :: map WsSend (on_wire (Client.ws c) [m]))
        else (Return tt, c, [missing_data_warning true false])
    | None =>
        (Return tt, c,
         [missing_data_warning false (truthy (Client.currentTurnId c))])
    end.
Proof.
  intros [d|] c; unfold Client._clientInterruptAssistantReplay_resume;
    js_unfold; [|reflexivity].
  destruct (truthy (Client.currentTurnId c)); [|reflexivity].
  rewrite wsSend_eq. reflexivity.
Qed.

(** C4, as the code has it.  For a [turn.start] frame:

    - with role [assistant] the handler runs to its end, no field of the
      client changes, the interruption routine is not invoked, no
      callback fires and no error is reported (both revisions);
    - in the revision of part_003 the interruption routine is invoked
      exactly when the role is [user] and push-to-talk is not enabled
      ([canInterrupt] is not consulted); in the revision of
      src/src/index.ts exactly when, in addition, [canInterrupt] is true;
    - the handler ends at once with the client unchanged, unless it has
      invoked the routine on a player that has a stream: then it waits
      for the worklet, still with the client unchanged, and the rest of
      it runs when the worklet has answered.  That rest marks the track
      named in the answer as interrupted and, in part_003, gives the
      interruption message to [_wsSend] when a current turn is set. *)
Theorem turn_start_interruption :
  forall (base64ToArrayBuffer : value -> Outcome ArrayBuffer)
         (data : string) (fields : list (string * value))
         (c : Client.LayercodeClient) (c' : ClientPrev.LayercodeClient)
         (reply : Player.WorkletOffset),
    is_str (lookup "type" fields) "turn.start" = true ->
    let message := VObj fields in
    let role := lookup "role" fields in
    let r := Client._handleWebSocketMessage base64ToArrayBuffer
               (Json data message) c in
    let r' := ClientPrev._handleWebSocketMessage base64ToArrayBuffer
                (Json data message) c' in
    let invoked := is_str role "user" && negb (Client.pushToTalkEnabled c) in
    let invoked' := is_str role "user" && negb (ClientPrev.pushToTalkEnabled c')
                    && ClientPrev.canInterrupt c' in
    let rest := Client.offset_reply reply (state_of r) in
    let rest' := ClientPrev.on_player (Player.interrupt_reply reply)
                   (state_of r') in
    (* role assistant *)
    (is_str role "assistant" = true ->
     outcome_of r = Return Client.Settled /\ state_of r = c /\
     outcome_of r' = Return false /\ state_of r' = c' /\
     count is_interrupt_call (trace_of r) = 0 /\
     count is_interrupt_call (trace_of r') = 0 /\
     count is_callback (trace_of r) = 0 /\
     count is_callback (trace_of r') = 0 /\
     count is_error_report (trace_of r) = 0 /\
     count is_error_report (trace_of r') = 0) /\
    (* when the routine is invoked *)
    count is_interrupt_call (trace_of r) = Nat.b2n invoked /\
    count is_interrupt_call (trace_of r') = Nat.b2n invoked' /\
    (* where the handler ends or waits *)
    outcome_of r
    = Return (if invoked && stream (Client.wavPlayer c)
              then Client.AwaitingOffset else Client.Settled) /\
    outcome_of r' = Return (invoked' && stream (ClientPrev.wavPlayer c')) /\
    state_of r = c /\ state_of r' = c' /\
    count is_error_report (trace_of r) = 0 /\
    count is_error_report (trace_of r') = 0 /\
    count is_callback (trace_of r) = 0 /\
    count is_callback (trace_of r') = 0 /\
    offered (trace_of r) = [] /\ offered (trace_of r') = [] /\
    (* the rest of a handler that waited *)
    (forall id,
       Player.trackId reply = Some id -> String.eqb id "" = false ->
       Player.interrupted (VStr id) (Client.wavPlayer (state_of rest)) = true /\
       Player.interrupted (VStr id) (ClientPrev.wavPlayer (state_of rest'))
       = true) /\
    count is_interrupted (offered (trace_of rest))
    = Nat.b2n (truthy (Client.currentTurnId c)) /\
    trace_of rest' = [].
Proof.
  intros dec data fields c c' reply Ht. cbv zeta.
  rewrite (turn_start_eq dec data fields c Ht).
  rewrite (turn_start_prev_eq dec data fields c' Ht).
  cbv zeta. rewrite interrupt_eq, interrupt_prev_eq.
  assert (Hrest :
    (forall id,
       Player.trackId reply = Some id -> String.eqb id "" = false ->
       Player.interrupted (VStr id)
         (Client.wavPlayer (state_of (Client.offset_reply reply c))) = true /\
       Player.interrupted (VStr id)
         (ClientPrev.wavPlayer
            (state_of (ClientPrev.on_player (Player.interrupt_reply reply) c')))
       = true) /\
    count is_interrupted (offered (trace_of (Client.offset_reply reply c)))
    = Nat.b2n (truthy (Client.currentTurnId c)) /\
    trace_of (ClientPrev.on_player (Player.interrupt_reply reply) c') = []).
  { pose proof marked_reads_interrupted as Hmarked.
    unfold Client.offset_reply, Client.on_player, ClientPrev.on_player,
      Player.interrupt_reply.
    split; [|split].
    - intros id Hid Hne. js_unfold. rewrite Hid, Hne. cbn.
      rewrite interrupt_resume_eq. unfold Player.interrupted.
      split.
      + destruct (truthy _); cbn; apply Hmarked.
      + cbn. apply Hmarked.
    - js_unfold.
      destruct (Player.trackId reply) as [id|]; cbn;
        [destruct (String.eqb id ""); cbn|];
        rewrite interrupt_resume_eq; cbn;
        destruct (truthy (Client.currentTurnId c)); try reflexivity;
        unfold on_wire; destruct (ws_is_open (Client.ws c)); reflexivity.
    - js_unfold.
      destruct (Player.trackId reply) as [id|]; cbn;
        [destruct (String.eqb id ""); cbn|]; reflexivity. }
  destruct Hrest as (Hmark & Hoffered & Hprev).
  destruct (is_str (lookup "role" fields) "user") eqn:Hu.
  - rewrite (user_is_not_assistant _ Hu).
    split; [intros; discriminate|].
    destruct (Client.pushToTalkEnabled c), (ClientPrev.pushToTalkEnabled c'),
      (ClientPrev.canInterrupt c'), (stream (Client.wavPlayer c)),
      (stream (ClientPrev.wavPlayer c'));
      cbn [negb andb outcome_of state_of trace_of fst snd];
      (do 12 (split; [reflexivity|])); auto.
  - destruct (is_str (lookup "role" fields) "assistant");
      cbn [negb andb outcome_of state_of trace_of fst snd];
      (split; [intros; repeat split; try reflexivity; discriminate|]);
      (do 12 (split; [reflexivity|])); auto.
Qed.

Definition user_turn_start : list (string * value) :=
  [("type", VStr "turn.start"); ("role", VStr "user")].

Lemma turn_start_interruption_witness :
  is_str (lookup "type" user_turn_start) "turn.start" = true /\
  count is_interrupt_call
    (trace_of (Client._handleWebSocketMessage toy_decode
                 (Json "{type:turn.start,role:user}" (VObj user_turn_start))
                 fresh_client)) = 1.
Proof.
  split; [reflexivity|].
  exact (proj1 (proj2
    (turn_start_interruption toy_decode "{type:turn.start,role:user}"
       user_turn_start fresh_client ClientPrev.new_LayercodeClient
       {| Player.trackId := None; Player.offset := 0%float |}
       eq_refl))).
Defined.

(** C4, counterexample.  In the revision of part_003 a [turn.start] with
    role [user] invokes the interruption routine although [canInterrupt]
    is false. *)
Lemma turn_start_interrupts_when_not_permitted :
  let r := Client._handleWebSocketMessage toy_decode
             (Json "{type:turn.start,role:user}" (VObj user_turn_start))
             fresh_client in
  Client.canInterrupt fresh_client = false /\
  Client.pushToTalkEnabled fresh_client = false /\
  count is_interrupt_call (trace_of r) = 1.
Proof. vm_compute. auto. Qed.

(* ------------------------------------------------------------------ *)
(** * The interruption report                                          *)
(* ------------------------------------------------------------------ *)

Definition is_warning (e : Effect) : bool :=
  match e with Console LWarn _ _ => true | _ => false end.

(** C5.  [_clientInterruptAssistantReplay] calls [wavPlayer.interrupt()]
    once.  When the player has no stream, the player answers [null] at
    once and the routine ends there: nothing is given to [_wsSend], one
    warning says that the offset was missing and whether the turn id was
    there.  When the player has a stream, the request is posted to the
    worklet and the routine waits; the rest of it runs when the worklet
    has answered.  Then, when the current turn id is set, [_wsSend] is
    given exactly one [trigger.response.audio.interrupted] message, whose
    [playback_offset] is the offset in seconds times 1000 and whose
    context carries the current turn id and the same number; it goes on
    the socket when the socket is open.  When the turn id is missing,
    nothing is given to [_wsSend]: one warning says which of the two was
    there.  In no case is the error callback invoked, an error logged, a
    field of the client changed other than the player's set of
    interrupted tracks, or an exception thrown.  The seconds are the
    worklet's sample offset divided by the sample rate. *)
Theorem interruption_report :
  forall (offsetData : option Player.TrackSampleOffset)
         (reply : Player.WorkletOffset) (c : Client.LayercodeClient),
    let call := Client._clientInterruptAssistantReplay c in
    let answered := Client.offset_reply reply c in
    let whole :=
      trace_of call
      ++ (if stream (Client.wavPlayer c) then trace_of answered else []) in
    let r := Client._clientInterruptAssistantReplay_resume offsetData c in
    let turn := Client.currentTurnId c in
    let seconds := PrimFloat.div (Player.offset reply)
                     (sampleRate (Client.wavPlayer c)) in
    (* the call *)
    call
    = (if stream (Client.wavPlayer c) then
         (Return Client.AwaitingOffset, c,
          [PlayerInterruptCalled; PortPostMessage wk_interrupt])
       else
         (Return Client.Settled, c,
          [PlayerInterruptCalled; missing_data_warning false (truthy turn)])) /\
    (* the rest of it, once the worklet has answered *)
    outcome_of answered = Return tt /\
    state_of answered
    = Client.set_wavPlayer
        (state_of (Player.interrupt_reply reply (Client.wavPlayer c))) c /\
    (* the whole routine *)
    count is_interrupt_call whole = 1 /\
    count is_error_callback whole = 0 /\
    count is_error_report whole = 0 /\
    offered whole
    = (if stream (Client.wavPlayer c) && truthy turn
       then [ClientTriggerResponseAudioInterruptedMessage
               (PrimFloat.mul seconds 1000%float) turn
               (PrimFloat.mul seconds 1000%float)]
       else []) /\
    frames whole = on_wire (Client.ws c) (offered whole) /\
    filter is_warning whole
    = (if stream (Client.wavPlayer c) && truthy turn then []
       else [missing_data_warning (stream (Client.wavPlayer c))
               (truthy turn)]) /\
    (* the part after [await], for any answer of the player *)
    outcome_of r = Return tt /\
    state_of r = c /\
    count is_error_callback (trace_of r) = 0 /\
    count is_error_report (trace_of r) = 0 /\
    match offsetData with
    | Some d =>
        if truthy turn then
          let m := ClientTriggerResponseAudioInterruptedMessage
                     (PrimFloat.mul (Player.currentTime d) 1000%float)
                     turn
                     (PrimFloat.mul (Player.currentTime d) 1000%float) in
          offered (trace_of r) = [m] /\
          frames (trace_of r) = on_wire (Client.ws c) [m]
        else
          trace_of r = [missing_data_warning true false]
    | None =>
        trace_of r = [missing_data_warning false (truthy turn)]
    end /\
    trace_of answered
    = trace_of (Client._clientInterruptAssistantReplay_resume
                  (Some (Player.mkOffset (Player.trackId reply)
                           (Player.offset reply) seconds))
                  c).
Proof.
  intros offsetData reply c. cbv zeta.
  assert (Hanswered :
    Client.offset_reply reply c
    = (Return tt,
       Client.set_wavPlayer
         (state_of (Player.interrupt_reply reply (Client.wavPlayer c))) c,
       trace_of (Client._clientInterruptAssistantReplay_resume
                   (Some (Player.mkOffset (Player.trackId reply)
                            (Player.offset reply)
                            (PrimFloat.div (Player.offset reply)
                               (sampleRate (Client.wavPlayer c)))))
                   c))).
  { unfold Client.offset_reply, Client.on_player, Player.interrupt_reply.
    rewrite !interrupt_resume_eq. js_unfold.
    destruct (Player.trackId reply) as [id|]; cbn;
      [destruct (String.eqb id ""); cbn|];
      rewrite interrupt_resume_eq; cbn;
      destruct (truthy (Client.currentTurnId c)); reflexivity. }
  rewrite Hanswered, interrupt_eq, !interrupt_resume_eq.
  cbn [outcome_of state_of trace_of fst snd Player.currentTime].
  split; [reflexivity|]. split; [reflexivity|]. split; [reflexivity|].
  split; [|split; [|split; [|split; [|split; [|split]]]]].
  1-6: destruct (stream (Client.wavPlayer c)),
         (truthy (Client.currentTurnId c));
       cbn; unfold on_wire;
       destruct (ws_is_open (Client.ws c)); reflexivity.
  split; [destruct offsetData; [destruct (truthy (Client.currentTurnId c))|];
          reflexivity|].
  split; [destruct offsetData; [destruct (truthy (Client.currentTurnId c))|];
          reflexivity|].
  split; [|split; [|split]].
  - destruct offsetData; [destruct (truthy (Client.currentTurnId c))|];
      try reflexivity.
    cbn. unfold on_wire. destruct (ws_is_open (Client.ws c)); reflexivity.
  - destruct offsetData; [destruct (truthy (Client.currentTurnId c))|];
      try reflexivity.
    cbn. unfold on_wire. destruct (ws_is_open (Client.ws c)); reflexivity.
  - destruct offsetData; [destruct (truthy (Client.currentTurnId c))|];
      try reflexivity.
    cbn. unfold on_wire.
    destruct (ws_is_open (Client.ws c)); cbn; split; reflexivity.
  - reflexivity.
Qed.

(* ------------------------------------------------------------------ *)
(** * The amplitude fallback detector                                  *)
(* ------------------------------------------------------------------ *)

Definition loud (amplitude : float) : bool :=
  PrimFloat.ltb Client.AMPLITUDE_THRESHOLD amplitude.

(** What the detector declares on one frame, and its variables after. *)
Definition verdict (amplitude : float) (k : Client.AmplitudeVAD)
  : option VadEvent :=
  if loud amplitude then
    if Client.isSpeakingByAmplitude k then None else Some vad_start
  else if Client.isSpeakingByAmplitude k
          && (30 <=? S (Client.silenceFrames k))%nat
       then Some vad_end else None.

Definition next (amplitude : float) (k : Client.AmplitudeVAD)
  : Client.AmplitudeVAD :=
  if loud amplitude then Client.mkAmp true 0
  else
    Client.mkAmp
      (Client.isSpeakingByAmplitude k
       && negb (30 <=? S (Client.silenceFrames k))%nat)
      (S (Client.silenceFrames k)).

Definition declare (e : VadEvent) (c : Client.LayercodeClient)
  : Outcome Client.AmplitudeVAD -> _ :=
  fun o =>
    let speaking := match e with vad_start => true | _ => false end in
    (o, Client.set_userIsSpeaking speaking c,
     OnUserIsSpeakingChange speaking
     :: Console LLog "sent ws msg:" [AMsg (ClientVadEventsMessage e)]
     :: map WsSend (on_wire (Client.ws c) [ClientVadEventsMessage e])).

Lemma amplitude_callback_eq : forall a k c,
  Client.amplitude_callback a k c
  = match verdict a k with
    | Some e => declare e c (Return (next a k))
    | None => (Return (next a k), c, [])
    end.
Proof.
  intros a [speaking n] c.
  unfold Client.amplitude_callback, verdict, next, declare, loud,
    Client.SILENCE_FRAMES_THRESHOLD.
  cbn [Client.isSpeakingByAmplitude Client.silenceFrames].
  destruct (PrimFloat.ltb Client.AMPLITUDE_THRESHOLD a).
  - destruct speaking; cbn [negb]; [reflexivity|].
    js_unfold. rewrite wsSend_eq. cbn. rewrite ?app_nil_r. reflexivity.
  - destruct speaking; cbn [andb]; [|reflexivity].
    destruct (30 <=? S n)%nat; cbn [negb]; [|reflexivity].
    js_unfold. rewrite wsSend_eq. cbn. rewrite ?app_nil_r. reflexivity.
Qed.

(** The detector's variables after a run of frames. *)
Definition feed (amplitudes : list float) (k : Client.AmplitudeVAD)
  : Client.AmplitudeVAD :=
  fold_left (fun k a => next a k) amplitudes k.

(** The last [n] entries of a list. *)
Definition lastn {A} (n : nat) (l : list A) : list A :=
  rev (firstn n (rev l)).

Definition all_quiet (amplitudes : list float) : bool :=
  forallb (fun a => negb (loud a)) amplitudes.

Lemma lastn_snoc : forall A n (l : list A) a,
  lastn (S n) (l ++ [a]) = lastn n l ++ [a].
Proof.
  intros. unfold lastn. rewrite rev_app_distr. cbn. reflexivity.
Qed.

Lemma all_quiet_app : forall l1 l2,
  all_quiet (l1 ++ l2) = all_quiet l1 && all_quiet l2.
Proof. intros. unfold all_quiet. apply forallb_app. Qed.

Lemma feed_snoc : forall amplitudes a k,
  feed (amplitudes ++ [a]) k = next a (feed amplitudes k).
Proof. intros. unfold feed. rewrite fold_left_app. reflexivity. Qed.

(** From a new detector, [silenceFrames] counts the quiet frames since
    the last loud one. *)
Lemma silence_counts_quiet_frames : forall amplitudes,
  let k := feed amplitudes (Client.mkAmp false 0) in
  Client.silenceFrames k <= List.length amplitudes /\
  all_quiet (lastn (Client.silenceFrames k) amplitudes) = true.
Proof.
  induction amplitudes as [|a amplitudes IH] using rev_ind; cbv zeta.
  - cbn. auto.
  - rewrite feed_snoc. cbv zeta in IH. destruct IH as [Hlen Hq].
    unfold next. rewrite length_app. cbn [List.length].
    destruct (loud a) eqn:Ha; cbn [Client.silenceFrames].
    + split; [lia|]. unfold lastn. cbn. reflexivity.
    + split; [lia|]. rewrite lastn_snoc, all_quiet_app, Hq.
      unfold all_quiet. cbn [forallb]. rewrite Ha. reflexivity.
Qed.

Lemma all_quiet_firstn_le : forall n m l,
  n <= m -> all_quiet (rev (firstn m l)) = true ->
  all_quiet (rev (firstn n l)) = true.
Proof.
  intros n m l Hnm. unfold all_quiet. rewrite !forallb_forall.
  intros H x Hx. apply H. rewrite <- in_rev in *.
  revert m l Hnm Hx H. induction n as [|n IHn]; intros m l Hnm Hx H.
  - destruct l; cbn in Hx; contradiction.
  - destruct m as [|m]; [lia|]. destruct l as [|y l]; [exact Hx|].
    cbn in Hx |- *. destruct Hx as [->|Hx]; [auto|].
    right. apply (IHn m l); try lia; auto.
    intros z Hz. apply H. rewrite <- in_rev. cbn. right.
    rewrite <- in_rev in Hz. exact Hz.
Qed.

Definition vad_failed : ClientMessage := ClientVadEventsMessage vad_model_failed.

Lemma initializeVAD_eq : forall c,
  Client._initializeVAD c
  = let log := Console LLog "initializing VAD"
                 [ABool (Client.pushToTalkEnabled c);
                  ABool (Client.canInterrupt c)] in
    if Client.pushToTalkEnabled c then (Return None, c, [log])
    else (Return (Some (Client.canInterrupt c)), c,
          [log; SetTimeout 2000; MicVADNew (Client.canInterrupt c)]).
Proof.
  intros c. unfold Client._initializeVAD. js_unfold.
  destruct (Client.pushToTalkEnabled c); reflexivity.
Qed.

Lemma vad_model_timeout_eq : forall c,
  Client.vad_model_timeout c
  = (Return (Client.mkAmp false 0), Client.set_userIsSpeaking false c,
     [Console LLog "silero vad model timeout" [];
      Console LWarn "VAD model failed to load - falling back to amplitude-based detection" [];
      Console LLog "sent ws msg:" [AMsg vad_failed]]
     ++ map WsSend (on_wire (Client.ws c) [vad_failed])
     ++ [OnUserIsSpeakingChange false; RecorderStartAmplitudeMonitoring]).
Proof.
  intros c. unfold Client.vad_model_timeout, Client._setupAmplitudeBasedVAD.
  js_unfold. rewrite wsSend_eq. cbn. rewrite ?app_nil_r. reflexivity.
Qed.

Definition is_model_timer (e : Effect) : bool :=
  match e with SetTimeout 2000 => true | _ => false end.

(** The authorization phase of [connect] sets the 2000 ms timer exactly
    when it gets as far as [_initializeVAD] without push-to-talk. *)
Lemma connect_authorized_arms : forall r c,
  let x := Client.connect_authorized r c in
  count is_model_timer (trace_of x)
  = match outcome_of x with Return (Some _) => 1 | _ => 0 end.
Proof.
  intros r c. unfold Client.connect_authorized, Client.connect_catch,
    Client._setStatus.
  cbv zeta. js_unfold.
  destruct r as [[ok [body|e]]|e]; cbn; try reflexivity.
  - destruct ok; cbn; [|reflexivity].
    destruct body; cbn; try reflexivity.
    destruct (lookup "config" fields); cbn; try reflexivity.
    destruct (lookup "transcription" fields0); cbn; try reflexivity.
    all: repeat (rewrite initializeVAD_eq || js_step); try reflexivity.
  - destruct ok; reflexivity.
Qed.

Lemma not_pending_after_clear : forall timer l,
  existsb (Nat.eqb timer) (filter (fun i => negb (Nat.eqb i timer)) l) = false.
Proof.
  intros timer l. induction l as [|i l IH]; [reflexivity|].
  cbn. destruct (Nat.eqb_spec i timer) as [->|Hne]; cbn; [exact IH|].
  rewrite IH. destruct (Nat.eqb_spec timer i); [congruence|reflexivity].
Qed.

Section Fallback.
Variable arrayBufferToBase64 : Int16Array -> string.
Variable base64ToArrayBuffer : value -> Outcome ArrayBuffer.

Let fire := Client.fire arrayBufferToBase64 base64ToArrayBuffer.

(** The page's pending timers follow the [setTimeout] calls of the code. *)
Lemma authorized_arms_timer : forall r p,
  let x := fire (Client.fetch_settled r) p in
  Client.timeouts (state_of x)
  = if (0 <? count is_model_timer (trace_of x))%nat
    then Client.next_timeout p :: Client.timeouts p
    else Client.timeouts p.
Proof.
  intros r p. cbv zeta.
  pose proof (connect_authorized_arms r (Client.self p)) as H. cbv zeta in H.
  unfold fire, Client.fire, settle, bind, Client.on_self, lift,
    Client.arm_timeout, modify, ret.
  unfold outcome_of, trace_of, state_of in *.
  destruct (Client.connect_authorized r (Client.self p)) as [[o c1] t].
  cbn [fst snd] in *.
  destruct o as [[b|]|e]; cbn [fst snd Client.timeouts Client.set_self];
    rewrite ?app_nil_r, H; reflexivity.
Qed.

Lemma model_timeout_eq : forall timer p,
  fire (Client.model_timeout timer) p
  = if existsb (Nat.eqb timer) (Client.timeouts p) then
      (Return tt,
       Client.mkPage (Client.set_userIsSpeaking false (Client.self p))
         (filter (fun i => negb (Nat.eqb i timer)) (Client.timeouts p))
         (Client.next_timeout p)
         (Client.detectors p ++ [Client.mkAmp false 0]),
       trace_of (Client.vad_model_timeout (Client.self p)))
    else (Return tt, p, []).
Proof.
  intros timer p. unfold fire, Client.fire, Client.clear_timeout,
    Client.add_detector, Client.on_self.
  js_unfold.
  destruct (existsb (Nat.eqb timer) (Client.timeouts p)); [|reflexivity].
  cbn [fst snd Client.self Client.timeouts Client.next_timeout
       Client.detectors].
  rewrite !vad_model_timeout_eq. cbn. rewrite ?app_nil_r. reflexivity.
Qed.

Lemma ready_disarms_timeout : forall timer profile p,
  let p1 := state_of (fire (Client.micvad_resolved timer profile) p) in
  fire (Client.model_timeout timer) p1 = (Return tt, p1, []).
Proof.
  intros timer profile p. cbv zeta. rewrite model_timeout_eq.
  unfold fire, Client.fire, Client.clear_timeout, Client.on_self,
    Client.vad_then.
  js_unfold. cbn. rewrite not_pending_after_clear. reflexivity.
Qed.

(** C6.  [_initializeVAD] arms a 2000 ms timer exactly when push-to-talk
    is not enabled.  The timer is disarmed when the engine signals
    ready; when it fires instead, the client gives [vad_model_failed] to
    [_wsSend], warns, invokes neither the error callback nor a status
    change, throws nothing, and installs the amplitude detector.  On
    each frame the detector declares speech start when the amplitude is
    above the threshold and it was not speaking (it gives [vad_start] to
    [_wsSend] and sets [userIsSpeaking]), and speech end when it was
    speaking and this is at least the 30th quiet frame in a row (it
    gives [vad_end] to [_wsSend] and clears [userIsSpeaking]); whenever
    it declares speech end, the last 30 frames were all quiet. *)
Theorem amplitude_fallback :
  forall (c : Client.LayercodeClient) (p : Client.Page)
         (authorization : Outcome Client.AuthorizeResponse)
         (timer : nat) (profile : bool)
         (amplitudes : list float) (a : float) (k : Client.AmplitudeVAD),
    (* the timer is armed unless push-to-talk is enabled *)
    trace_of (Client._initializeVAD c)
    = Console LLog "initializing VAD"
        [ABool (Client.pushToTalkEnabled c); ABool (Client.canInterrupt c)]
      :: (if Client.pushToTalkEnabled c then []
          else [SetTimeout 2000; MicVADNew (Client.canInterrupt c)]) /\
    (* ... and is pending on the page from then on *)
    (let x := fire (Client.fetch_settled authorization) p in
     Client.timeouts (state_of x)
     = if (0 <? count is_model_timer (trace_of x))%nat
       then Client.next_timeout p :: Client.timeouts p
       else Client.timeouts p) /\
    (* ready first: the timer does nothing *)
    (let p1 := state_of (fire (Client.micvad_resolved timer profile) p) in
     fire (Client.model_timeout timer) p1 = (Return tt, p1, [])) /\
    (* the timer fires *)
    (let r := fire (Client.model_timeout timer) p in
     if existsb (Nat.eqb timer) (Client.timeouts p) then
       outcome_of r = Return tt /\
       offered (trace_of r) = [vad_failed] /\
       frames (trace_of r) = on_wire (Client.ws (Client.self p)) [vad_failed] /\
       count is_error_callback (trace_of r) = 0 /\
       count is_error_report (trace_of r) = 0 /\
       count is_status_change (trace_of r) = 0 /\
       Client.self (state_of r)
       = Client.set_userIsSpeaking false (Client.self p) /\
       Client.detectors (state_of r)
       = Client.detectors p ++ [Client.mkAmp false 0]
     else r = (Return tt, p, [])) /\
    (* one frame of the detector *)
    Client.amplitude_callback a k c
    = match verdict a k with
      | Some e => declare e c (Return (next a k))
      | None => (Return (next a k), c, [])
      end /\
    (* speech end only after 30 quiet frames in a row *)
    match verdict a (feed amplitudes (Client.mkAmp false 0)) with
    | Some vad_end =>
        30 <= List.length (amplitudes ++ [a]) /\
        all_quiet (lastn 30 (amplitudes ++ [a])) = true
    | _ => True
    end.
Proof.
  intros c p authorization timer profile amplitudes a k.
  split; [rewrite initializeVAD_eq; cbv zeta;
          destruct (Client.pushToTalkEnabled c); reflexivity|].
  split; [apply authorized_arms_timer|].
  split; [apply ready_disarms_timeout|].
  split; [|split; [apply amplitude_callback_eq|]].
  - cbv zeta. rewrite model_timeout_eq.
    destruct (existsb (Nat.eqb timer) (Client.timeouts p)); [|reflexivity].
    rewrite vad_model_timeout_eq. cbn. unfold on_wire.
    destruct (ws_is_open (Client.ws (Client.self p))); cbn; auto 10.
  - pose proof (silence_counts_quiet_frames (amplitudes ++ [a])) as H.
    cbv zeta in H. rewrite feed_snoc in H.
    unfold verdict, next in *.
    destruct (loud a); [destruct (Client.isSpeakingByAmplitude _); exact I|].
    destruct (Client.isSpeakingByAmplitude _); cbn [andb]; [|exact I].
    destruct (Nat.leb_spec 30 (S (Client.silenceFrames
                (feed amplitudes (Client.mkAmp false 0))))) as [Hge|Hlt];
      [|exact I].
    cbn [Client.silenceFrames] in H. destruct H as [Hlen Hq].
    split; [lia|].
    unfold lastn in *. eapply all_quiet_firstn_le; [exact Hge | exact Hq].
Qed.
End Fallback.

(* ------------------------------------------------------------------ *)
(** * Speech start and playback                                        *)
(* ------------------------------------------------------------------ *)


(** C7, as the code has it.  In the revision of src/src/index.ts, the
    interruptible profile's speech-start callback, run while the player
    is playing, calls [wavPlayer.pause()] before it gives [vad_start] to
    [_wsSend], and it sets [vadPausedPlayer] and [userIsSpeaking].  In
    the revision of part_003 the callback never calls [pause()]: it
    gives [vad_start] to [_wsSend], sets [userIsSpeaking], and leaves
    the player as it was. *)
Theorem speech_start_and_playback :
  forall (c' : ClientPrev.LayercodeClient) (c : Client.LayercodeClient),
    isPlaying (ClientPrev.wavPlayer c') = true ->
    let r' := ClientPrev.onSpeechStart true c' in
    let r := Client.onSpeechStart true c in
    (exists before after,
        trace_of r' = before ++ PlayerPauseCalled :: after /\
        offered before = [] /\ frames before = [] /\
        offered after = [vad_started] /\
        frames after = on_wire (ClientPrev.ws c') [vad_started]) /\
    ClientPrev.vadPausedPlayer (state_of r') = true /\
    ClientPrev.userIsSpeaking (state_of r') = true /\
    count is_pause_call (trace_of r) = 0 /\
    offered (trace_of r) = [vad_started] /\
    frames (trace_of r) = on_wire (Client.ws c) [vad_started] /\
    Client.wavPlayer (state_of r) = Client.wavPlayer c /\
    Client.userIsSpeaking (state_of r) = true.
Proof.
  intros c' c Hplay. cbv zeta.
  assert (Hprev :
    ClientPrev.onSpeechStart true c'
    = (Return tt,
       ClientPrev.set_userIsSpeaking true
         (ClientPrev.set_vadPausedPlayer true
            (ClientPrev.set_wavPlayer
               (if context (ClientPrev.wavPlayer c')
                   && stream (ClientPrev.wavPlayer c')
                then set_isPlaying false (ClientPrev.wavPlayer c')
                else ClientPrev.wavPlayer c') c')),
       [Console LLog "onSpeechStart: WavPlayer is playing, pausing it." []]
       ++ PlayerPauseCalled
       :: (if context (ClientPrev.wavPlayer c')
              && stream (ClientPrev.wavPlayer c')
           then [PortPostMessage wk_pause;
                 Console LLog "WavStreamPlayer: Paused via worklet message" []]
           else [])
       ++ [Console LLog "onSpeechStart: sending vad_start" [];
           Console LLog "sent ws msg:" [AMsg vad_started]]
       ++ map WsSend (on_wire (ClientPrev.ws c') [vad_started]))).
  { destruct c' as [pl v w st pta vpp pte ci uis].
    destruct pl as [rate ctx str an ids playing].
    cbn in Hplay. subst playing.
    unfold ClientPrev.onSpeechStart, ClientPrev.on_player, Player.pause,
      ClientPrev._wsSend, on_wire.
    js_unfold.
    destruct ctx, str, w as [[[]]|]; reflexivity. }
  rewrite Hprev. cbn [state_of trace_of fst snd].
  split; [|split; [|split]].
  - eexists _, _. split; [reflexivity|].
    repeat split; try reflexivity;
      destruct (context (ClientPrev.wavPlayer c')
                && stream (ClientPrev.wavPlayer c'));
      unfold on_wire; destruct (ws_is_open (ClientPrev.ws c'));
      reflexivity.
  - reflexivity.
  - reflexivity.
  - unfold Client.onSpeechStart. cbn [negb]. js_unfold.
    rewrite wsSend_eq. cbn.
    unfold on_wire. destruct (ws_is_open (Client.ws c)); cbn; auto 8.
Qed.

(** A client of either revision in automatic, interruptible mode, its
    socket open and its player playing a stream. *)
Definition playing_player : WavStreamPlayer :=
  mkPlayer 16000%float true true true [] true.

Definition interruptible_prev : ClientPrev.LayercodeClient :=
  ClientPrev.mkClient playing_player true (Some {| readyState := OPEN |})
    connected false false false true false.

Definition interruptible_client : Client.LayercodeClient :=
  Client.mkClient 500 playing_player
    (Some {| Client.interruptible := true |})
    (Some {| readyState := OPEN |}) connected (VStr "session")
    false false true false false true true VNull [].

Lemma speech_start_and_playback_witness :
  isPlaying (ClientPrev.wavPlayer interruptible_prev) = true /\
  ClientPrev.vadPausedPlayer
    (state_of (ClientPrev.onSpeechStart true interruptible_prev)) = true.
Proof.
  split; [reflexivity|].
  exact (proj1 (proj2
    (speech_start_and_playback interruptible_prev interruptible_client
       eq_refl))).
Defined.

(** C7, counterexample.  In the revision of part_003, interruptible
    automatic mode, speech starts while the player is playing:
    [vad_start] goes out and [pause()] is never called; the player is
    still playing. *)
Lemma speech_start_does_not_pause :
  let r := Client.onSpeechStart true interruptible_client in
  Client.canInterrupt interruptible_client = true /\
  Client.pushToTalkEnabled interruptible_client = false /\
  isPlaying (Client.wavPlayer interruptible_client) = true /\
  frames (trace_of r) = [vad_started] /\
  count is_pause_call (trace_of r) = 0 /\
  isPlaying (Client.wavPlayer (state_of r)) = true.
Proof. vm_compute. auto 8. Qed.

(* ------------------------------------------------------------------ *)
(** * disconnect()                                                     *)
(* ------------------------------------------------------------------ *)

Definition has_socket (c : Client.LayercodeClient) : bool :=
  match Client.ws c with Some _ => true | None => false end.

Lemma disconnect_facts : forall c,
  let r := Client.disconnect c in
  outcome_of r = Return tt /\
  count is_disconnect_callback (trace_of r) = Nat.b2n (has_socket c) /\
  has_socket (state_of r) = has_socket c.
Proof.
  intros c. unfold Client.disconnect, Client.on_player, Player.disconnect,
    Client._resetTurnTracking, Client._setStatus, has_socket.
  destruct c as [d pl v w st sid pta pte ci uis eut rs rdy turn buf].
  js_unfold. destruct v, w; cbn; auto.
Qed.

(** C9, as the code has it.  [disconnect()] never throws, and every call
    made while [this.ws] holds a socket invokes the disconnect callback
    once: [this.ws] is never cleared, so two calls in succession invoke
    it twice; on a client that never opened a socket they invoke it not
    at all. *)
Theorem disconnect_twice :
  forall (c : Client.LayercodeClient),
    let once := Client.disconnect c in
    let twice := (Client.disconnect ;; Client.disconnect) c in
    outcome_of once = Return tt /\
    outcome_of twice = Return tt /\
    count is_disconnect_callback (trace_of once)
    = (if has_socket c then 1 else 0) /\
    count is_disconnect_callback (trace_of twice)
    = (if has_socket c then 2 else 0).
Proof.
  intros c. cbv zeta.
  pose proof (disconnect_facts c) as (Ho & Hc & Hs). cbv zeta in *.
  unfold bind.
  unfold outcome_of, trace_of, state_of in *.
  destruct (Client.disconnect c) as [[o c1] t1]. cbn in Ho, Hc, Hs. subst o.
  pose proof (disconnect_facts c1) as (Ho2 & Hc2 & Hs2). cbv zeta in *.
  unfold outcome_of, trace_of, state_of in *.
  destruct (Client.disconnect c1) as [[o2 c2] t2]. cbn in *. subst o2.
  rewrite count_app, Hc, Hc2, Hs.
  destruct (has_socket c); auto.
Qed.

(** C9, counterexample.  A connected client, [disconnect()] called
    twice: the disconnect callback runs twice (and the socket's [close]
    event will run it again). *)
Lemma disconnect_twice_calls_back_twice :
  let connected_page :=
    fst (Client.run toy_encode toy_decode connection_socket_first fresh_page) in
  let r := Client.run toy_encode toy_decode
             [Client.call_disconnect; Client.call_disconnect] connected_page in
  let later := Client.run toy_encode toy_decode
                 [Client.socket true Client.sock_close] (fst r) in
  Client.status (Client.self connected_page) = connected /\
  count is_disconnect_callback (snd r) = 2 /\
  count is_disconnect_callback (snd later) = 1.
Proof. vm_compute. auto. Qed.

(* ------------------------------------------------------------------ *)
(** * The worklet's queue                                              *)
(* ------------------------------------------------------------------ *)

Section Worklet.
Import StreamProcessor.

(** The shape every method relies on: the write buffer and the queued
    buffers all have [bufferLength] entries and the write position is
    inside the write buffer. *)
Definition well_formed (p : StreamProcessor) : Prop :=
  0 < bufferLength p /\
  List.length (buffer (write p)) = bufferLength p /\
  writeOffset p < bufferLength p /\
  Forall (fun c => List.length (buffer c) = bufferLength p) (outputBuffers p).

(** The samples written and not yet played, oldest first. *)
Definition pending (p : StreamProcessor) : list float :=
  flat_map buffer (outputBuffers p)
  ++ firstn (writeOffset p) (buffer (write p)).

Lemma store_length : forall i x l, List.length (store i x l) = List.length l.
Proof.
  induction i as [|i IH]; intros x [|y l]; cbn; auto.
Qed.

Lemma firstn_store : forall i x l,
  i < List.length l -> firstn (S i) (store i x l) = firstn i l ++ [x].
Proof.
  induction i as [|i IH]; intros x [|y l] H; cbn in *; try lia; auto.
  rewrite <- IH by lia. reflexivity.
Qed.

Lemma new_Float32Array_length : forall n,
  List.length (new_Float32Array n) = n.
Proof. intros; apply repeat_length. Qed.

Lemma flat_map_snoc : forall A B (f : A -> list B) l a,
  flat_map f (l ++ [a]) = flat_map f l ++ f a.
Proof.
  intros. rewrite flat_map_app. cbn. rewrite app_nil_r. reflexivity.
Qed.

(** How many buffers a write completes. *)
Definition completed (n offset len : nat) : nat := (offset + len) / n.

Lemma completed_full : forall n offset len,
  0 < n -> S offset = n -> completed n offset (S len) = S (completed n 0 len).
Proof.
  intros n offset len Hn H. unfold completed.
  replace (offset + S len) with (1 * n + len) by lia.
  rewrite Nat.div_add_l by lia. cbn. lia.
Qed.

Lemma completed_step : forall n offset len,
  completed n offset (S len) = completed n (S offset) len.
Proof.
  intros. unfold completed. f_equal. lia.
Qed.

Lemma rest_full : forall n offset len,
  0 < n -> S offset = n -> (offset + S len) mod n = (0 + len) mod n.
Proof.
  intros n offset len Hn H.
  replace (offset + S len) with (len + 1 * n) by lia.
  rewrite Nat.Div0.mod_add. reflexivity.
Qed.

Lemma writeData_loop_spec : forall xs id n out w offset,
  0 < n -> List.length (buffer w) = n -> offset < n ->
  Forall (fun c => List.length (buffer c) = n) out ->
  match writeData_loop xs id n out w offset with
  | (out', w', offset') =>
      List.length (buffer w') = n /\
      offset' = (offset + List.length xs) mod n /\
      Forall (fun c => List.length (buffer c) = n) out' /\
      flat_map buffer out' ++ firstn offset' (buffer w')
      = flat_map buffer out ++ firstn offset (buffer w) ++ xs /\
      map trackId out'
      = map trackId out
        ++ firstn (completed n offset (List.length xs))
             (trackId w :: repeat id (completed n offset (List.length xs))) /\
      trackId w' = (if (completed n offset (List.length xs) =? 0)%nat
                    then trackId w else id)
  end.
Proof.
  induction xs as [|x xs IH]; intros id n out w offset Hn Hw Ho Hout.
  - cbn [writeData_loop List.length].
    rewrite Nat.add_0_r, Nat.mod_small by lia.
    unfold completed. rewrite Nat.add_0_r, Nat.div_small by lia.
    cbn. rewrite !app_nil_r. auto 10.
  - cbn [writeData_loop List.length buffer trackId].
    rewrite store_length, Hw.
    destruct (Nat.leb_spec n (S offset)) as [Hfull|Hroom].
    + assert (Heq : S offset = n) by lia.
      specialize (IH id n (out ++ [mkChunk (store offset x (buffer w)) (trackId w)])
                    (mkChunk (new_Float32Array n) id) 0 Hn).
      cbn [buffer trackId] in IH.
      specialize (IH (new_Float32Array_length n) Hn).
      assert (Hout' : Forall (fun c => List.length (buffer c) = n)
                (out ++ [mkChunk (store offset x (buffer w)) (trackId w)])).
      { apply Forall_app. split; [exact Hout|].
        constructor; [cbn; rewrite store_length; exact Hw | constructor]. }
      specialize (IH Hout').
      destruct (writeData_loop xs id n _ _ 0) as [[out' w'] offset'].
      destruct IH as (H1 & H2 & H3 & H4 & H5 & H6).
      rewrite completed_full by assumption.
      rewrite rest_full by assumption.
      repeat split; auto.
      * rewrite H4, flat_map_snoc. cbn [buffer firstn app].
        rewrite <- !app_assoc. f_equal.
        rewrite <- (firstn_all (store offset x (buffer w))).
        rewrite store_length, Hw, <- Heq.
        rewrite firstn_store by lia. rewrite <- app_assoc. reflexivity.
      * rewrite H5, map_app. cbn [map trackId].
        rewrite <- app_assoc. reflexivity.
      * rewrite H6. cbn [Nat.eqb].
        destruct (completed n 0 (List.length xs)); reflexivity.
    + specialize (IH id n out (mkChunk (store offset x (buffer w)) (trackId w))
                    (S offset) Hn).
      cbn [buffer trackId] in IH. rewrite store_length in IH.
      specialize (IH Hw Hroom Hout).
      destruct (writeData_loop xs id n out _ (S offset)) as [[out' w'] offset'].
      destruct IH as (H1 & H2 & H3 & H4 & H5 & H6).
      rewrite completed_step.
      replace (offset + S (List.length xs)) with (S offset + List.length xs) by lia.
      repeat split; auto.
      rewrite H4, firstn_store by lia. rewrite <- !app_assoc. reflexivity.
Qed.

Lemma writeData_spec : forall xs id p,
  well_formed p ->
  let p' := writeData xs id p in
  let k := completed (bufferLength p) (writeOffset p) (List.length xs) in
  well_formed p' /\
  pending p' = pending p ++ xs /\
  writeOffset p' = (writeOffset p + List.length xs) mod bufferLength p /\
  map trackId (outputBuffers p')
  = map trackId (outputBuffers p)
    ++ firstn k (trackId (write p) :: repeat id k) /\
  trackId (write p') = (if (k =? 0)%nat then trackId (write p) else id) /\
  bufferLength p' = bufferLength p /\
  hasStarted p' = hasStarted p /\
  hasInterrupted p' = hasInterrupted p /\
  isPaused p' = isPaused p /\
  trackSampleOffsets p' = trackSampleOffsets p.
Proof.
  intros xs id p (Hn & Hw & Ho & Hout). cbv zeta.
  unfold writeData, pending, well_formed.
  pose proof (@writeData_loop_spec xs id _ _ _ _ Hn Hw Ho Hout) as H.
  destruct (writeData_loop xs id (bufferLength p) (outputBuffers p)
              (write p) (writeOffset p)) as [[out' w'] offset'].
  destruct H as (H1 & H2 & H3 & H4 & H5 & H6).
  cbn [bufferLength write writeOffset outputBuffers hasStarted
       hasInterrupted isPaused trackSampleOffsets].
  repeat split; auto.
  - subst offset'. apply Nat.mod_upper_bound. lia.
  - rewrite H4, app_assoc. reflexivity.
Qed.

Lemma well_formed_new : well_formed new_StreamProcessor.
Proof.
  unfold well_formed. cbn. repeat split; try lia.
  constructor.
Qed.

Lemma well_formed_onmessage : forall data p,
  well_formed p -> well_formed (snd (fst (onmessage data p))).
Proof.
  intros [[ints id|r|r| | |e]|] p H; cbn [onmessage]; cbv zeta;
    try destruct (can_be_cloned _); cbn; auto.
  apply (writeData_spec (map to_float32 ints) id H).
Qed.

Lemma well_formed_process : forall channel p,
  well_formed p -> well_formed (snd (fst (process channel p))).
Proof.
  intros channel p H. unfold process.
  destruct (hasInterrupted p); [exact H|].
  destruct (isPaused p); [exact H|].
  destruct H as (Hn & Hw & Ho & Hout).
  destruct (outputBuffers p) as [|c rest] eqn:Hq.
  - destruct (hasStarted p); cbn; unfold well_formed; cbn; rewrite ?Hq; auto.
  - cbn. unfold well_formed; cbn. inversion Hout; subst. auto.
Qed.

Lemma well_formed_step : forall a p,
  well_formed p -> well_formed (fst (fst (step a p))).
Proof.
  intros [data|q] p H; unfold step.
  - pose proof (well_formed_onmessage data H) as H'.
    destruct (onmessage data p) as [[o p'] posted]. exact H'.
  - pose proof (well_formed_process (new_Float32Array q) H) as H'.
    destruct (process (new_Float32Array q) p) as [[[b o] p'] posted]. exact H'.
Qed.

Lemma bufferLength_step : forall a p,
  bufferLength (fst (fst (step a p))) = bufferLength p.
Proof.
  intros [[[ints id|r|r| | |e]|]|q] p; cbn [step onmessage]; cbv zeta;
    try destruct (can_be_cloned _); cbn; try reflexivity.
  - unfold writeData.
    destruct (writeData_loop _ _ _ _ _ _) as [[out w] o]. reflexivity.
  - unfold process.
    destruct (hasInterrupted p); [reflexivity|].
    destruct (isPaused p); [reflexivity|].
    destruct (outputBuffers p); [destruct (hasStarted p)|]; reflexivity.
Qed.

Lemma well_formed_run : forall actions p,
  well_formed p ->
  well_formed (fst (fst (run actions p))) /\
  bufferLength (fst (fst (run actions p))) = bufferLength p.
Proof.
  induction actions as [|a actions IH]; intros p H; [cbn; auto|].
  cbn [run].
  pose proof (well_formed_step a H) as H1.
  pose proof (bufferLength_step a p) as H2.
  destruct (step a p) as [[p1 o1] m1]. cbn [fst] in *.
  specialize (IH p1 H1).
  destruct (run actions p1) as [[p2 o2] m2]. cbn [fst] in *.
  rewrite <- H2. exact IH.
Qed.

(** X1. Whatever messages arrive and however often it renders, a
    processor keeps its shape: the buffer length stays 128, the write
    buffer and every queued buffer hold exactly 128 samples, and the
    write position stays below 128. *)
Theorem worklet_buffers_keep_their_size :
  forall (actions : list Action),
    let p := fst (fst (run actions new_StreamProcessor)) in
    bufferLength p = 128 /\
    List.length (buffer (write p)) = 128 /\
    writeOffset p < 128 /\
    Forall (fun c => List.length (buffer c) = 128) (outputBuffers p).
Proof.
  intros actions p.
  destruct (well_formed_run actions well_formed_new) as [(Hn & Hw & Ho & Hq) Hl].
  fold p in Hn, Hw, Ho, Hq, Hl. cbn in Hl. rewrite Hl in *. auto.
Qed.

(** X2. [writeData] loses nothing and keeps the order: the samples
    waiting to be played afterwards are those that waited before followed
    by the new ones; it completes [(writeOffset + length) / bufferLength]
    buffers and leaves the rest in the write buffer. *)
Theorem written_samples_are_queued_in_order :
  forall (xs : list float) (id : option string) (p : StreamProcessor),
    well_formed p ->
    let p' := writeData xs id p in
    pending p' = pending p ++ xs /\
    List.length (outputBuffers p')
    = List.length (outputBuffers p)
      + (writeOffset p + List.length xs) / bufferLength p /\
    writeOffset p' = (writeOffset p + List.length xs) mod bufferLength p /\
    well_formed p'.
Proof.
  intros xs id p H. cbv zeta.
  destruct (writeData_spec xs id H) as (H1 & H2 & H3 & H4 & _).
  repeat split; auto; try apply H1.
  apply (f_equal (@List.length _)) in H4.
  rewrite length_app, !length_map in H4. rewrite H4. f_equal.
  rewrite length_firstn. cbn [List.length]. rewrite repeat_length.
  unfold completed. lia.
Qed.

Lemma written_samples_are_queued_in_order_witness :
  well_formed new_StreamProcessor /\
  pending (writeData [1%float; 2%float] None new_StreamProcessor)
  = [1%float; 2%float].
Proof.
  split; [exact well_formed_new|].
  exact (proj1 (written_samples_are_queued_in_order [1%float; 2%float] None
                  well_formed_new)).
Defined.

(** ** Playing the queue *)

(** What [buffer[i] || 0] makes of a sample. *)
Definition played (x : float) : float := or_zero (Some x).

Lemma read_whole_buffer : forall (b : list float),
  map (fun i => or_zero (nth_error b i)) (seq 0 (List.length b))
  = map played b.
Proof.
  intros b.
  assert (H : forall (pre : list float),
    map (fun i => or_zero (nth_error (pre ++ b) i))
        (seq (List.length pre) (List.length b)) = map played b).
  { induction b as [|x b IH]; intros pre; [reflexivity|].
    cbn [List.length seq map]. f_equal.
    - rewrite nth_error_app2 by lia. rewrite Nat.sub_diag. reflexivity.
    - specialize (IH (pre ++ [x])).
      rewrite <- app_assoc, length_app in IH. cbn in IH.
      rewrite Nat.add_1_r in IH. exact IH. }
  exact (H []).
Qed.

(** [k] render quanta of 128 samples. *)
Definition renders (k : nat) : list Action := repeat (render 128) k.

(** The offsets after playing chunks with the given labels. *)
Fixpoint account (labels : list (option string)) (size : nat)
    (offsets : list (string * Offset)) : list (string * Offset) :=
  match labels with
  | [] => offsets
  | id :: rest =>
      account rest size
        (if named id then
           set_offset (key_of id) (plus (offset_of (key_of id) offsets) size)
             offsets
         else offsets)
  end.

Lemma play_queue : forall q p,
  outputBuffers p = q ->
  hasInterrupted p = false -> isPaused p = false ->
  Forall (fun c => List.length (buffer c) = 128) q ->
  run (renders (List.length q)) p
  = (mkProcessor (hasStarted p || (0 <? List.length q)%nat) false false []
       (bufferLength p) (write p) (writeOffset p)
       (account (map trackId q) 128 (trackSampleOffsets p)),
     map played (flat_map buffer q), []).
Proof.
  induction q as [|c q IH]; intros p Hq Hi Hp Hlen.
  - cbn. rewrite orb_false_r. destruct p; cbn in *; subst. reflexivity.
  - cbn [List.length renders repeat run step].
    unfold process. rewrite Hi, Hp, Hq.
    inversion Hlen as [|? ? Hc Hrest]; subst.
    rewrite new_Float32Array_length.
    replace (seq 0 128) with (seq 0 (List.length (buffer c)))
      by (rewrite Hc; reflexivity).
    rewrite read_whole_buffer.
    fold (renders (List.length q)).
    rewrite IH; cbn [outputBuffers hasInterrupted isPaused]; auto.
    cbn [hasStarted bufferLength write writeOffset trackSampleOffsets
         flat_map map account].
    rewrite map_app, Hc, orb_true_r. cbn [orb]. reflexivity.
Qed.

Lemma queued_length : forall (q : list Chunk) n,
  Forall (fun c => List.length (buffer c) = n) q ->
  List.length (flat_map buffer q) = n * List.length q.
Proof.
  induction q as [|c q IH]; intros n H; cbn; [lia|].
  inversion H; subst. rewrite length_app, (IH _ H3). lia.
Qed.

Lemma offset_of_update : forall key v offsets,
  offset_of key (update key v offsets) = v.
Proof.
  intros key v offsets. induction offsets as [|[k w] offsets IH];
    cbn [update offset_of].
  - rewrite String.eqb_refl. reflexivity.
  - destruct (String.eqb key k) eqn:E; cbn [offset_of]; rewrite E; auto.
Qed.

(** What the offset of track [t] reads as once a new processor has
    played [j] buffers of it: a count of samples, unless the id names a
    property of [Object.prototype]. *)
Definition counted (t : string) (j : nat) : Offset :=
  if String.eqb t "__proto__" then the_prototype
  else if inherited_method t then
    match j with
    | O => a_method
    | S _ => a_string
    end
  else samples (128 * j).

Lemma account_track : forall t j,
  String.eqb t "" = false ->
  offset_of t (account (repeat (Some t) j) 128 []) = counted t j.
Proof.
  intros t j Ht.
  assert (H : forall j i offsets,
            offset_of t offsets = counted t i ->
            offset_of t (account (repeat (Some t) j) 128 offsets)
            = counted t (i + j)).
  { clear j. induction j as [|j IH]; intros i offsets Hi; cbn [repeat account].
    - rewrite Nat.add_0_r. exact Hi.
    - replace (i + S j) with (S i + j) by lia. apply IH.
      unfold named. rewrite Ht. cbn [negb key_of].
      unfold set_offset, makes_own_property, counted in *.
      destruct (String.eqb t "__proto__"); cbn [negb]; [exact Hi|].
      rewrite offset_of_update, Hi.
      destruct (inherited_method t); [destruct i; reflexivity|].
      cbn [plus]. f_equal. lia. }
  apply (H j 0 []). unfold counted. cbn [offset_of].
  destruct (String.eqb t "__proto__"); [reflexivity|].
  destruct (inherited_method t); reflexivity.
Qed.

(** The state of a new processor after one write, and its queue. *)
Lemma first_write : forall xs id,
  let p := writeData xs id new_StreamProcessor in
  let k := List.length xs / 128 in
  well_formed p /\
  bufferLength p = 128 /\
  List.length (outputBuffers p) = k /\
  flat_map buffer (outputBuffers p) = firstn (128 * k) xs /\
  firstn (writeOffset p) (buffer (write p)) = skipn (128 * k) xs /\
  map trackId (outputBuffers p) = firstn k (None :: repeat id k) /\
  trackId (write p) = (if (k =? 0)%nat then None else id) /\
  hasStarted p = false /\ hasInterrupted p = false /\ isPaused p = false /\
  trackSampleOffsets p = [].
Proof.
  intros xs id. cbv zeta.
  destruct (writeData_spec xs id well_formed_new)
    as (Hwf & Hpend & Hoff & Hlab & Hw & Hn & Hs & Hi & Hp & Ht).
  cbn [new_StreamProcessor bufferLength writeOffset write outputBuffers
       hasStarted hasInterrupted isPaused trackSampleOffsets trackId map app]
    in Hn, Hs, Hi, Hp, Ht, Hlab, Hw.
  unfold completed in Hlab, Hw. cbn [Nat.add] in Hlab, Hw.
  assert (Hk : List.length (outputBuffers (writeData xs id new_StreamProcessor))
               = List.length xs / 128).
  { apply (f_equal (@List.length _)) in Hlab.
    rewrite length_map, length_firstn in Hlab. cbn [List.length] in Hlab.
    rewrite repeat_length in Hlab. lia. }
  destruct Hwf as (H0 & H1 & H2 & H3). rewrite Hn in H3.
  pose proof (queued_length H3) as Hq. rewrite Hk in Hq.
  unfold pending in Hpend. cbn [app] in Hpend.
  split; [unfold well_formed; rewrite Hn in *; repeat split; auto; lia|].
  split; [exact Hn|]. split; [exact Hk|].
  change (flat_map buffer (outputBuffers (writeData xs id new_StreamProcessor))
          ++ firstn (writeOffset (writeData xs id new_StreamProcessor))
               (buffer (write (writeData xs id new_StreamProcessor)))
          = xs) in Hpend.
  rewrite <- Hq.
  split.
  { etransitivity; [|apply f_equal; exact Hpend].
    rewrite firstn_app, Nat.sub_diag, firstn_all. cbn.
    rewrite app_nil_r. reflexivity. }
  split.
  { etransitivity; [|apply f_equal; exact Hpend].
    rewrite skipn_app, Nat.sub_diag, skipn_all. reflexivity. }
  auto 10.
Qed.

(** X3. Playback is in order and in whole buffers.  After one write of
    [xs] to a new processor, [length xs / 128] render quanta put out the
    first [128 * (length xs / 128)] samples, in order, each as
    [sample || 0].  The remaining samples, fewer than 128, stay in the
    write buffer: the next render plays none of them and, if anything was
    played, posts [stop]. *)
Theorem samples_are_played_in_order :
  forall (xs : list float) (id : option string),
    let k := List.length xs / 128 in
    let r := run (renders k) (writeData xs id new_StreamProcessor) in
    let p' := fst (fst r) in
    snd (fst r) = map played (firstn (128 * k) xs) /\
    snd r = [] /\
    outputBuffers p' = [] /\
    pending p' = skipn (128 * k) xs /\
    process (new_Float32Array 128) p'
    = if (0 <? k)%nat
      then (false, new_Float32Array 128, set_hasStarted false p', [stop])
      else (true, new_Float32Array 128, p', []).
Proof.
  intros xs id. cbv zeta.
  destruct (first_write xs id)
    as (Hwf & Hn & Hk & Hq & Hrest & Hlab & Hw & Hs & Hi & Hp & Ht).
  cbv zeta in *.
  destruct Hwf as (_ & _ & _ & Hlen). rewrite Hn in Hlen.
  pose proof (@play_queue _ _ eq_refl Hi Hp Hlen) as Hrun.
  rewrite Hk, Hq, Hs in Hrun. rewrite Hrun.
  cbn [fst snd outputBuffers].
  repeat split; auto.
Qed.

(** X4. The sample count of a track lags one buffer behind what was
    played.  The first buffer a new processor fills is accounted to no
    track, so after [128 * k] samples written for track [t] have been
    played ([k >= 1]) the offset of [t] is that of [k - 1] buffers: the
    number [128 * (k - 1)] when [t] names no property of
    [Object.prototype], and otherwise what the inherited property makes
    of it ([counted]).  An offset request is then answered with track [t]
    and this offset, except that an inherited method cannot be posted:
    the request throws and is not answered. *)
Theorem track_offset_lags_one_buffer :
  forall (xs : list float) (t requestId : string),
    String.eqb t "" = false ->
    let k := List.length xs / 128 in
    let r := run (renders k) (writeData xs (Some t) new_StreamProcessor) in
    let p' := fst (fst r) in
    List.length (snd (fst r)) = 128 * k /\
    offset_of t (trackSampleOffsets p') = counted t (k - 1) /\
    (inherited t = false -> counted t (k - 1) = samples (128 * (k - 1))) /\
    onmessage (Some (offset_event requestId)) p'
    = if (k =? 0)%nat then
        (Return tt, p', [offset_message requestId None (samples 0)])
      else if can_be_cloned (counted t (k - 1)) then
        (Return tt, p',
         [offset_message requestId (Some t) (counted t (k - 1))])
      else (Throw DataCloneError, p', []).
Proof.
  intros xs t requestId Ht. cbv zeta.
  destruct (first_write xs (Some t))
    as (Hwf & Hn & Hk & Hq & Hrest & Hlab & Hw & Hs & Hi & Hp & Hto).
  cbv zeta in *.
  destruct Hwf as (_ & _ & _ & Hlen). rewrite Hn in Hlen.
  pose proof (@play_queue _ _ eq_refl Hi Hp Hlen) as Hrun.
  rewrite Hk, Hq, Hs, Hlab, Hto in Hrun. rewrite Hrun.
  cbn [fst snd trackSampleOffsets onmessage write]. rewrite Hw.
  assert (Hacc : offset_of t
            (account (firstn (List.length xs / 128)
                        (None :: repeat (Some t) (List.length xs / 128))) 128 [])
          = counted t (List.length xs / 128 - 1)).
  { destruct (List.length xs / 128) as [|j]; [exact (@account_track t 0 Ht)|].
    cbn [firstn account named Nat.sub]. rewrite Nat.sub_0_r.
    replace (firstn j (repeat (Some t) (S j))) with (repeat (Some t) j)
      by (clear; induction j; cbn in *; congruence).
    exact (@account_track t j Ht). }
  split; [|split; [|split]].
  - rewrite length_map, length_firstn.
    pose proof (Nat.Div0.mul_div_le (List.length xs) 128). lia.
  - exact Hacc.
  - intros Hin. apply orb_false_elim in Hin as [Hproto Hmeth].
    unfold counted. rewrite Hproto, Hmeth. reflexivity.
  - cbv zeta.
    destruct (List.length xs / 128) as [|j] eqn:E; cbn [Nat.eqb key_of].
    + reflexivity.
    + rewrite Hacc. reflexivity.
Qed.

Lemma track_offset_lags_one_buffer_witness :
  String.eqb "turn-1" "" = false /\
  offset_of "turn-1"
    (trackSampleOffsets
       (fst (fst (run (renders (256 / 128))
                    (writeData (repeat 1%float 256) (Some "turn-1")
                       new_StreamProcessor)))))
  = samples 128.
Proof.
  split; [reflexivity|].
  exact (proj1 (proj2 (track_offset_lags_one_buffer (repeat 1%float 256)
                         "turn-1" "r" eq_refl))).
Defined.

(** ** Interrupting and pausing *)

Definition is_stop (m : PortMessage) : bool :=
  match m with stop => true | _ => false end.

Definition is_render (a : Action) : bool :=
  match a with render _ => true | _ => false end.

Lemma writeData_loop_extends : forall xs id n out w offset,
  exists newer, fst (fst (writeData_loop xs id n out w offset)) = out ++ newer.
Proof.
  induction xs as [|x xs IH]; intros id n out w offset; cbn [writeData_loop].
  - exists []. cbn. rewrite app_nil_r. reflexivity.
  - destruct (_ <=? _)%nat.
    + destruct (IH id n (out ++ [mkChunk (store offset x (buffer w)) (trackId w)])
                  (mkChunk (new_Float32Array n) id) 0) as [newer H].
      rewrite H. rewrite <- app_assoc. eauto.
    + apply IH.
Qed.

Lemma interrupted_step : forall a p,
  hasInterrupted p = true ->
  match step a p with
  | (p', output, posted) =>
      hasInterrupted p' = true /\
      Forall (fun x => x = 0%float) output /\
      count is_stop posted = (if is_render a then 1 else 0) /\
      exists newer, outputBuffers p' = outputBuffers p ++ newer
  end.
Proof.
  intros [[[ints id|r|r| | |e]|]|q] p H; cbn [step onmessage is_render];
    cbv zeta; try destruct (can_be_cloned _);
    try (repeat split; auto; exists []; cbn; rewrite app_nil_r; reflexivity).
  - unfold writeData.
    destruct (writeData_loop_extends (map to_float32 ints) id (bufferLength p)
                (outputBuffers p) (write p) (writeOffset p)) as [newer Hn].
    destruct (writeData_loop _ _ _ _ _ _) as [[out w] o]. cbn in Hn.
    cbn. repeat split; eauto.
  - unfold process. rewrite H. repeat split; auto.
    + unfold new_Float32Array. clear. induction q; cbn; auto.
    + exists []. rewrite app_nil_r. reflexivity.
Qed.

(** X5. An interrupt is final.  Once [hasInterrupted] is set, whatever
    messages arrive (writes, [play], further requests) and however often
    the processor renders, the flag stays set, every render leaves the
    output silent and posts [stop], and no queued buffer is consumed. *)
Theorem interrupt_is_final :
  forall (actions : list Action) (p : StreamProcessor),
    hasInterrupted p = true ->
    let r := run actions p in
    hasInterrupted (fst (fst r)) = true /\
    Forall (fun x => x = 0%float) (snd (fst r)) /\
    count is_stop (snd r) = count is_render actions /\
    exists newer, outputBuffers (fst (fst r)) = outputBuffers p ++ newer.
Proof.
  induction actions as [|a actions IH]; intros p H; cbv zeta.
  - cbn. repeat split; auto. exists []. rewrite app_nil_r. reflexivity.
  - cbn [run]. pose proof (@interrupted_step a p H) as Hs.
    destruct (step a p) as [[p1 o1] m1].
    destruct Hs as (H1 & H2 & H3 & [n1 H4]).
    specialize (IH p1 H1). cbv zeta in IH.
    destruct (run actions p1) as [[p2 o2] m2]. cbn [fst snd] in *.
    destruct IH as (I1 & I2 & I3 & [n2 I4]).
    repeat split; auto.
    + apply Forall_app; auto.
    + rewrite count_app, H3, I3.
      unfold count. cbn [filter]. destruct (is_render a); reflexivity.
    + exists (n1 ++ n2). rewrite I4, H4, app_assoc. reflexivity.
Qed.

Lemma interrupt_is_final_witness :
  let p := snd (fst (onmessage (Some (interrupt_event "r")) new_StreamProcessor)) in
  hasInterrupted p = true /\
  hasInterrupted
    (fst (fst (run [message (Some play_event); render 128] p))) = true.
Proof.
  cbv zeta. split; [reflexivity|].
  exact (proj1 (interrupt_is_final [message (Some play_event); render 128]
                  (snd (fst (onmessage (Some (interrupt_event "r"))
                               new_StreamProcessor)))
                  eq_refl)).
Defined.

Lemma paused_renders : forall q m rest p,
  isPaused p = true -> hasInterrupted p = false ->
  run (repeat (render q) m ++ rest) p
  = match run rest p with
    | (p', output, posted) => (p', repeat 0%float (m * q) ++ output, posted)
    end.
Proof.
  intros q m rest p Hp Hi. induction m as [|m IH].
  - cbn. destruct (run rest p) as [[p' o] ms]. reflexivity.
  - cbn [repeat app run step]. unfold process. rewrite Hi, Hp.
    rewrite IH. destruct (run rest p) as [[p' o] ms].
    unfold new_Float32Array. rewrite map_repeat.
    cbn [Nat.mul app]. rewrite repeat_app, <- app_assoc. reflexivity.
Qed.

(** X6. Pausing keeps the audio.  Between a [pause] and a [play] message
    every render puts out silence and posts nothing, and afterwards the
    processor is exactly as it was before the pause: nothing queued is
    lost or skipped. *)
Theorem pause_keeps_the_queue :
  forall (p : StreamProcessor) (m quantum : nat),
    isPaused p = false -> hasInterrupted p = false ->
    run (message (Some pause_event)
         :: repeat (render quantum) m ++ [message (Some play_event)]) p
    = (p, repeat 0%float (m * quantum), []).
Proof.
  intros p m quantum Hp Hi.
  cbn [run step onmessage].
  rewrite paused_renders by (destruct p; cbn in *; auto).
  cbn. rewrite app_nil_r. destruct p; cbn in *; subst. reflexivity.
Qed.

Lemma pause_keeps_the_queue_witness :
  isPaused new_StreamProcessor = false /\
  hasInterrupted new_StreamProcessor = false /\
  fst (fst (run (message (Some pause_event)
                 :: repeat (render 128) 2 ++ [message (Some play_event)])
              new_StreamProcessor))
  = new_StreamProcessor.
Proof.
  split; [reflexivity|]. split; [reflexivity|].
  rewrite (pause_keeps_the_queue new_StreamProcessor 2 128 eq_refl eq_refl).
  reflexivity.
Defined.

(** ** Samples *)

Definition int16 (x : Z) : Prop := (-32768 <= x <= 32767)%Z.

Definition sample_ok (x : Z) : bool :=
  let f := to_float32 x in
  PrimFloat.leb (-1)%float f && PrimFloat.ltb f 1%float
  && Bool.eqb (PrimFloat.eqb f 0%float) (x =? 0)%Z
  && negb (PrimFloat.is_nan f)
  && PrimFloat.Leibniz.eqb (played f) f.

Fixpoint upto (n : nat) (start : Z) : list Z :=
  match n with
  | O => []
  | S n' => start :: upto n' (start + 1)
  end.

Lemma in_upto : forall n start x,
  (start <= x < start + Z.of_nat n)%Z -> In x (upto n start).
Proof.
  induction n as [|n IH]; intros start x H; [lia|].
  cbn [upto]. destruct (Z.eq_dec start x) as [->|Hne]; [left; reflexivity|].
  right. apply IH. lia.
Qed.

Lemma all_samples_ok :
  forallb sample_ok (upto (Z.to_nat 65536) (-32768)) = true.
Proof. vm_compute. reflexivity. Qed.

Lemma sample_ok_int16 : forall x, int16 x -> sample_ok x = true.
Proof.
  intros x [Hlo Hhi].
  pose proof all_samples_ok as H. rewrite forallb_forall in H.
  apply H. apply in_upto. lia.
Qed.

(** X7. The conversion of a write.  Every 16-bit sample [x] becomes
    [x / 32768], a number in [-1, 1) that is zero only for [x = 0] and is
    never NaN, so that [sample || 0] in [process] puts out every
    converted sample unchanged. *)
Theorem samples_are_normalised :
  forall (x : Z),
    int16 x ->
    let f := to_float32 x in
    PrimFloat.leb (-1)%float f = true /\
    PrimFloat.ltb f 1%float = true /\
    PrimFloat.eqb f 0%float = (x =? 0)%Z /\
    PrimFloat.is_nan f = false /\
    PrimFloat.Leibniz.eqb (played f) f = true.
Proof.
  intros x Hx. cbv zeta.
  pose proof (sample_ok_int16 Hx) as H. unfold sample_ok in H.
  cbv zeta in H.
  repeat (apply andb_prop in H; destruct H as [H ?]).
  repeat split; auto.
  - apply eqb_prop. assumption.
  - apply negb_true_iff. assumption.
Qed.

Lemma samples_are_normalised_witness :
  int16 (-32768) /\ PrimFloat.leb (-1)%float (to_float32 (-32768)) = true.
Proof.
  assert (H : int16 (-32768)) by (unfold int16; lia).
  split; [exact H|].
  exact (proj1 (samples_are_normalised H)).
Defined.
End Worklet.

(* ------------------------------------------------------------------ *)
(** * The player: interrupted tracks, pause and play                   *)
(* ------------------------------------------------------------------ *)

Lemma kept_tracks : forall (keep : list string) (p : WavStreamPlayer) s,
  existsb (String.eqb s)
    (flat_map (fun k => match k with
                        | VStr s' =>
                            if Player.interrupted k p then Player.mark s' []
                            else []
                        | _ => []
                        end) (map VStr keep))
  = Player.interrupted (VStr s) p && existsb (String.eqb s) keep
    && makes_own_property s.
Proof.
  intros keep p s. induction keep as [|k keep IH]; cbn [map flat_map existsb].
  - rewrite andb_false_r. reflexivity.
  - rewrite existsb_app, IH. unfold Player.mark.
    destruct (String.eqb_spec s k) as [->|Hne].
    + cbn [orb]. rewrite andb_true_r.
      destruct (Player.interrupted (VStr k) p); cbn [andb]; [|reflexivity].
      destruct (makes_own_property k); cbn [existsb andb orb].
      * rewrite String.eqb_refl. reflexivity.
      * rewrite andb_false_r. reflexivity.
    + cbn [orb].
      destruct (Player.interrupted (VStr k) p); [|reflexivity].
      destruct (makes_own_property k); cbn [existsb orb]; [|reflexivity].
      destruct (String.eqb_spec s k); [congruence|reflexivity].
Qed.

(** X8. [clearInterruptedTracks(keep)] restricts the interrupted set to
    [keep]: afterwards a track reads as interrupted exactly when it did
    before and is listed in [keep], or when its id names a property of
    [Object.prototype]: such an id reads as interrupted on every player,
    whatever is cleared.  Nothing else of the player changes and nothing
    is posted or logged. *)
Theorem clearInterruptedTracks_restricts :
  forall (keep : list string) (p : WavStreamPlayer) (s : string),
    let r := Player.clearInterruptedTracks (map VStr keep) p in
    outcome_of r = Return tt /\
    trace_of r = [] /\
    Player.interrupted (VStr s) (state_of r)
    = Player.interrupted (VStr s) p && existsb (String.eqb s) keep
      || inherited s /\
    Player.interrupted (VStr s) (new_WavStreamPlayer (sampleRate p))
    = inherited s /\
    state_of r = set_interruptedTrackIds (interruptedTrackIds (state_of r)) p.
Proof.
  intros keep p s. cbv zeta.
  destruct keep as [|k keep].
  - cbn. unfold Player.interrupted. cbn. rewrite andb_false_r. auto.
  - pose proof (kept_tracks (k :: keep) p s) as H.
    unfold Player.clearInterruptedTracks. cbn [map] in *.
    js_unfold. cbn [fst snd].
    repeat split.
    unfold Player.interrupted at 1.
    cbn [interruptedTrackIds set_interruptedTrackIds].
    rewrite H.
    destruct (makes_own_property s) eqn:Hown.
    + rewrite andb_true_r. reflexivity.
    + rewrite (proto_is_inherited _ Hown), !orb_true_r. reflexivity.
Qed.

(** X9. Audio of an interrupted track is dropped.  Once the worklet has
    answered an interrupt with a non-empty track id, [add16BitPCM] for
    that track returns without posting anything and without touching
    the player, until [clearInterruptedTracks] forgets the track.  A
    track whose id names a property of [Object.prototype] is never
    forgotten: its audio is dropped even then.  For any other track the
    same call, on a connected player, starts a stream and posts a write
    with the bytes and the track id, unless the number of bytes is odd:
    then it throws a RangeError and posts nothing. *)
Theorem interrupted_track_is_dropped :
  forall (p : WavStreamPlayer) (id : string) (position : float)
         (arrayBuffer : ArrayBuffer),
    String.eqb id "" = false ->
    let p1 := state_of (Player.interrupt_reply
                          {| Player.trackId := Some id;
                             Player.offset := position |} p) in
    let p2 := state_of (Player.clearInterruptedTracks [] p1) in
    let again := Player.add16BitPCM arrayBuffer (VStr id) p2 in
    Player.interrupted (VStr id) p1 = true /\
    Player.add16BitPCM arrayBuffer (VStr id) p1 = (Return tt, p1, []) /\
    Player.interrupted (VStr id) p2 = inherited id /\
    (inherited id = true -> again = (Return tt, p2, [])) /\
    (inherited id = false -> context p = true -> analyser p = true ->
     stream (state_of again) = true /\
     outcome_of again
     = (if Nat.odd (List.length arrayBuffer)
        then Throw Player.byte_length_error else Return tt) /\
     trace_of again
     = (if Nat.odd (List.length arrayBuffer) then []
        else [PortPostMessage (wk_write arrayBuffer id)])).
Proof.
  intros p id position arrayBuffer Hid. cbv zeta.
  assert (H1 : Player.interrupted (VStr id)
                 (state_of (Player.interrupt_reply
                              {| Player.trackId := Some id;
                                 Player.offset := position |} p)) = true).
  { unfold Player.interrupt_reply. js_unfold.
    cbn [Player.trackId Player.offset]. rewrite Hid. cbn.
    unfold Player.interrupted. cbn. apply marked_reads_interrupted. }
  assert (H2 : forall q, Player.interrupted (VStr id)
                           (state_of (Player.clearInterruptedTracks [] q))
                         = inherited id).
  { intros q. unfold Player.clearInterruptedTracks. js_unfold.
    unfold Player.interrupted. reflexivity. }
  split; [exact H1|]. split; [|split; [apply H2|split]].
  - unfold Player.add16BitPCM. js_unfold. rewrite H1. reflexivity.
  - intros Hin. unfold Player.add16BitPCM. js_unfold.
    rewrite H2, Hin. reflexivity.
  - intros Hin Hc Ha. unfold Player.add16BitPCM. js_unfold.
    rewrite H2, Hin.
    unfold Player.interrupt_reply, Player.clearInterruptedTracks,
      Player._start, Player.new_Int16Array.
    js_unfold. cbn [Player.trackId Player.offset]. rewrite Hid.
    destruct p as [rate ctx str an ids playing]; cbn in Hc, Ha; subst.
    cbn. destruct str, (Nat.odd (List.length arrayBuffer)); cbn; auto.
Qed.

Lemma interrupted_track_is_dropped_witness :
  String.eqb "turn-1" "" = false /\
  trace_of (Player.add16BitPCM [0%Z; 0%Z] (VStr "turn-1")
              (state_of (Player.interrupt_reply
                           {| Player.trackId := Some "turn-1";
                              Player.offset := 0%float |}
                           (new_WavStreamPlayer 16000%float))))
  = [].
Proof.
  split; [reflexivity|].
  rewrite (proj1 (proj2 (@interrupted_track_is_dropped
                           (new_WavStreamPlayer 16000%float) "turn-1"
                           0%float [0%Z; 0%Z] eq_refl))).
  reflexivity.
Defined.

Definition posted (t : list Effect) : list Effect :=
  filter (fun e => match e with PortPostMessage _ => true | _ => false end) t.

(** X10. [pause()] and [play()] undo each other.  On a player that is
    playing a stream, [pause()] posts [pause] to the worklet and returns
    true; a second [pause()] returns false and posts nothing.  When the
    audio context is not suspended, [play()] then posts [play], returns
    true and leaves the player exactly as it was before the pause.  When
    the context is suspended, [play()] posts nothing and waits for
    [context.resume()]: if that succeeds the rest of [play()] posts
    [play] and restores the player; if it fails the error is logged,
    [play()] returns false and the player stays paused. *)
Theorem pause_then_play_restores :
  forall (p : WavStreamPlayer) (err : Exn),
    context p = true -> stream p = true -> isPlaying p = true ->
    let paused := Player.pause p in
    let again := Player.pause (state_of paused) in
    let resumed := Player.play false (state_of paused) in
    let waiting := Player.play true (state_of paused) in
    let late := Player.play_resumed (Return tt) (state_of paused) in
    let failed := Player.play_resumed (Throw err) (state_of paused) in
    outcome_of paused = Return true /\
    posted (trace_of paused) = [PortPostMessage wk_pause] /\
    isPlaying (state_of paused) = false /\
    outcome_of again = Return false /\
    trace_of again = [PlayerPauseCalled] /\
    state_of again = state_of paused /\
    outcome_of resumed = Return (Some true) /\
    posted (trace_of resumed) = [PortPostMessage wk_play] /\
    state_of resumed = p /\
    waiting = (Return None, state_of paused, [PlayerPlayCalled]) /\
    outcome_of late = Return true /\
    posted (trace_of late) = [PortPostMessage wk_play] /\
    state_of late = p /\
    outcome_of failed = Return false /\
    posted (trace_of failed) = [] /\
    count is_error_report (trace_of failed) = 1 /\
    state_of failed = state_of paused.
Proof.
  intros [rate ctx str an ids playing] err Hc Hs Hp. cbn in Hc, Hs, Hp. subst.
  cbv zeta.
  unfold Player.pause, Player.play, Player.play_resumed, Player.play_stream.
  js_unfold. cbn.
  repeat split.
Qed.

Lemma pause_then_play_restores_witness :
  let p := mkPlayer 16000%float true true true [] true in
  context p = true /\ stream p = true /\ isPlaying p = true /\
  state_of (Player.play false (state_of (Player.pause p))) = p.
Proof.
  cbv zeta. split; [reflexivity|]. split; [reflexivity|]. split; [reflexivity|].
  exact (proj1 (proj2 (proj2 (proj2 (proj2 (proj2 (proj2 (proj2 (proj2
    (@pause_then_play_restores (mkPlayer 16000%float true true true [] true)
       SyntaxError eq_refl eq_refl eq_refl)))))))))).
Defined.

(* ------------------------------------------------------------------ *)
(** * Relations kept by every handler                                  *)
(* ------------------------------------------------------------------ *)

(** A relation between what a handler sees of the object before, what it
    does, and what can be seen after, that holds of doing nothing and of
    doing one thing after another. *)
Class Composes {X : Type} (P : X -> list Effect -> X -> Prop) : Prop := {
  composes_nil : forall x, P x [] x;
  composes_app : forall x t1 y t2 z, P x t1 y -> P y t2 z -> P x (t1 ++ t2) z
}.

Section Respects.
Variables S X : Type.
Variable view : S -> X.
Variable P : X -> list Effect -> X -> Prop.
Context {HP : Composes P}.

Definition respects {A} (m : M S A) : Prop :=
  forall s, P (view s) (trace_of (m s)) (view (state_of (m s))).

(** An effect that may happen at any time. *)
Definition neutral (e : Effect) : Prop := forall x, P x [e] x.

Lemma respects_ret : forall A (a : A), respects (ret a).
Proof. intros A a s. apply composes_nil. Qed.

Lemma respects_throw : forall A e, respects (@throw S A e).
Proof. intros A e s. apply composes_nil. Qed.

Lemma respects_get : respects (@get S).
Proof. intros s. apply composes_nil. Qed.

Lemma respects_emit : forall e, neutral e -> respects (emit e).
Proof. intros e He s. apply He. Qed.

Lemma respects_console : forall lvl text args,
  neutral (Console lvl text args) -> respects (console lvl text args).
Proof. intros lvl text args He s. apply He. Qed.

Lemma respects_modify : forall f,
  (forall s, view (f s) = view s) -> respects (modify f).
Proof.
  intros f Hf s. cbn. rewrite Hf. apply composes_nil.
Qed.

Lemma respects_bind : forall A B (m : M S A) (k : A -> M S B),
  respects m -> (forall a, respects (k a)) -> respects (bind m k).
Proof.
  intros A B m k Hm Hk s. unfold bind.
  specialize (Hm s). unfold trace_of, state_of in *.
  destruct (m s) as [[[a|e] s1] t1]; cbn in *; [|exact Hm].
  specialize (Hk a s1). unfold trace_of, state_of in Hk.
  destruct (k a s1) as [[o s2] t2]; cbn in *.
  eapply composes_app; eauto.
Qed.

Lemma respects_try_catch : forall A (m : M S A) (h : Exn -> M S A),
  respects m -> (forall e, respects (h e)) -> respects (try_catch m h).
Proof.
  intros A m h Hm Hh s. unfold try_catch.
  specialize (Hm s). unfold trace_of, state_of in *.
  destruct (m s) as [[[a|e] s1] t1]; cbn in *; [exact Hm|].
  specialize (Hh e s1). unfold trace_of, state_of in Hh.
  destruct (h e s1) as [[o s2] t2]; cbn in *.
  eapply composes_app; eauto.
Qed.

Lemma respects_when : forall b (m : M S unit),
  respects m -> respects (when b m).
Proof.
  intros [|] m Hm; [exact Hm | apply respects_ret].
Qed.

Lemma respects_for_of : forall A (xs : list A) (body : A -> M S unit),
  (forall x, respects (body x)) -> respects (for_of xs body).
Proof.
  intros A xs body Hb. induction xs as [|x xs IH].
  - apply respects_ret.
  - change (for_of (x :: xs) body) with (bind (body x) (fun _ => for_of xs body)).
    apply respects_bind; auto.
Qed.

Lemma respects_settle : forall A (m : M S A),
  respects m -> respects (settle m).
Proof.
  intros A m Hm s. unfold settle. specialize (Hm s).
  unfold trace_of, state_of in *.
  destruct (m s) as [[o s1] t1]. exact Hm.
Qed.

Lemma respects_of_outcome : forall A (o : Outcome A),
  respects (of_outcome o).
Proof. intros A [a|e]; [apply respects_ret | apply respects_throw]. Qed.

Lemma respects_get_prop : forall v k, respects (get_prop v k).
Proof.
  intros v k; destruct v; cbn; auto using respects_ret, respects_throw.
Qed.

Lemma respects_JSON_parse : forall ev, respects (JSON_parse ev).
Proof.
  intros [d|d v]; cbn; auto using respects_ret, respects_throw.
Qed.

Lemma neutral_all : forall t x, Forall neutral t -> P x t x.
Proof.
  induction t as [|e t IH]; intros x H; [apply composes_nil|].
  inversion H; subst.
  change (e :: t) with ([e] ++ t). eapply composes_app; eauto.
Qed.

(** A computation on a part of the object that the view does not show. *)
Lemma respects_aside : forall Q A (proj : S -> Q) (inj : Q -> S -> S)
                              (m : M Q A),
  (forall q, Forall neutral (trace_of (m q))) ->
  (forall q s, view (inj q s) = view s) ->
  respects (lift proj inj m).
Proof.
  intros Q A proj inj m Hm Hv s. unfold lift.
  specialize (Hm (proj s)). unfold trace_of, state_of in *.
  destruct (m (proj s)) as [[o q] t]; cbn in *.
  rewrite Hv. apply neutral_all. exact Hm.
Qed.

End Respects.

(** A computation on the part that holds what the view shows. *)
Lemma respects_lift : forall S T X A (view : S -> X) P
                             (proj : T -> S) (inj : S -> T -> T) (m : M S A),
  respects view P m ->
  (forall s t, proj (inj s t) = s) ->
  respects (fun t => view (proj t)) P (lift proj inj m).
Proof.
  intros S T X A view P proj inj m Hm Hpi t. unfold lift.
  specialize (Hm (proj t)). unfold trace_of, state_of in *.
  destruct (m (proj t)) as [[o s1] t1]; cbn in *.
  rewrite Hpi. exact Hm.
Qed.

(** What the player's methods do: they log (never the line of
    [_wsSend]), post to the worklet and record that they were called. *)
Definition is_player_effect (e : Effect) : bool :=
  match e with
  | Console _ text _ => negb (String.eqb text "sent ws msg:")
  | PortPostMessage _ | PlayerPauseCalled | PlayerPlayCalled
  | PlayerInterruptCalled | PlayerDisconnect => true
  | _ => false
  end.

Definition player_only {A} (m : M WavStreamPlayer A) : Prop :=
  forall p, forallb is_player_effect (trace_of (m p)) = true.

Lemma player_only_methods :
  player_only Player.interrupt_request /\
  (forall r, player_only (Player.interrupt_reply r)) /\
  player_only Player.pause /\
  (forall suspended, player_only (Player.play suspended)) /\
  (forall resumed, player_only (Player.play_resumed resumed)) /\
  player_only Player.disconnect /\
  player_only Player.on_stop /\
  (forall l, player_only (Player.clearInterruptedTracks l)) /\
  (forall b t, player_only (Player.add16BitPCM b t)) /\
  player_only (modify set_connected).
Proof.
  repeat split; unfold player_only; intros;
    unfold Player.interrupt_request, Player.interrupt_reply, Player.pause,
      Player.play, Player.play_resumed, Player.play_stream,
      Player.disconnect, Player.on_stop,
      Player.clearInterruptedTracks, Player.add16BitPCM,
      Player.new_Int16Array, Player._start;
    js_exec; reflexivity.
Qed.

Create HintDb respects.

Lemma player_only_interrupt_request : player_only Player.interrupt_request.
Proof. apply player_only_methods. Qed.
Lemma player_only_interrupt_reply : forall r, player_only (Player.interrupt_reply r).
Proof. apply player_only_methods. Qed.
Lemma player_only_pause : player_only Player.pause.
Proof. apply player_only_methods. Qed.
Lemma player_only_play : forall suspended, player_only (Player.play suspended).
Proof. apply player_only_methods. Qed.
Lemma player_only_play_resumed :
  forall resumed, player_only (Player.play_resumed resumed).
Proof. apply player_only_methods. Qed.
Lemma player_only_disconnect : player_only Player.disconnect.
Proof. apply player_only_methods. Qed.
Lemma player_only_on_stop : player_only Player.on_stop.
Proof. apply player_only_methods. Qed.
Lemma player_only_clearInterruptedTracks :
  forall l, player_only (Player.clearInterruptedTracks l).
Proof. apply player_only_methods. Qed.
Lemma player_only_add16BitPCM : forall b t, player_only (Player.add16BitPCM b t).
Proof. apply player_only_methods. Qed.
Lemma player_only_set_connected : player_only (modify set_connected).
Proof. apply player_only_methods. Qed.

#[global] Hint Resolve player_only_interrupt_request player_only_interrupt_reply
  player_only_pause player_only_play player_only_play_resumed
  player_only_disconnect
  player_only_on_stop player_only_clearInterruptedTracks
  player_only_add16BitPCM player_only_set_connected : respects.

Lemma player_only_neutral : forall X (P : X -> list Effect -> X -> Prop)
                                   A (m : M WavStreamPlayer A),
  player_only m ->
  (forall e, is_player_effect e = true -> neutral P e) ->
  forall p, Forall (neutral P) (trace_of (m p)).
Proof.
  intros X P A m Hm Hn p. specialize (Hm p).
  rewrite forallb_forall in Hm. apply Forall_forall. auto.
Qed.

Section OnPlayer.
Variable X : Type.
Variable P : X -> list Effect -> X -> Prop.
Context {HP : Composes P}.
Hypothesis player_neutral : forall e, is_player_effect e = true -> neutral P e.

Lemma respects_on_player : forall A (view : Client.LayercodeClient -> X)
                                  (m : M WavStreamPlayer A),
  player_only m ->
  (forall x c, view (Client.set_wavPlayer x c) = view c) ->
  respects view P (Client.on_player m).
Proof.
  intros A view m Hm Hv. unfold Client.on_player.
  apply respects_aside; auto using player_only_neutral.
Qed.

Lemma respects_on_player_prev : forall A (view : ClientPrev.LayercodeClient -> X)
                                       (m : M WavStreamPlayer A),
  player_only m ->
  (forall x c, view (ClientPrev.set_wavPlayer x c) = view c) ->
  respects view P (ClientPrev.on_player m).
Proof.
  intros A view m Hm Hv. unfold ClientPrev.on_player.
  apply respects_aside; auto using player_only_neutral.
Qed.
End OnPlayer.

Ltac head_of t :=
  lazymatch t with
  | ?f _ => head_of f
  | _ => t
  end.

(** Split a handler along its structure; [side] settles what is asked
    of a single statement, [leaf] the handlers that are not opened. *)
(** Apply a lemma of the section above; its [Composes] premise is found
    by instance search. *)
Ltac use lemma := apply lemma; try exact _.

(** Split a handler along its structure.  [side] settles what is asked
    of a single statement, [enter] steps into a part of the object; a
    call of a method that no lemma covers is opened. *)
Ltac respects_with side enter :=
  repeat first
    [ solve [auto with respects]
    | enter
    | use respects_bind; [|intro; cbn beta]
    | use respects_try_catch; [|intro; cbn beta]
    | use respects_settle
    | use respects_when
    | use respects_for_of; intro
    | use respects_ret
    | use respects_throw
    | use respects_get
    | use respects_of_outcome
    | use respects_get_prop
    | use respects_JSON_parse
    | use respects_console; solve [side]
    | use respects_emit; solve [side]
    | use respects_modify; solve [side]
    | use respects_on_player;
        [solve [side] | solve [auto with respects] | reflexivity]
    | use respects_on_player_prev;
        [solve [side] | solve [auto with respects] | reflexivity]
    | match goal with
      | |- respects _ _ (if ?b then _ else _) => destruct b
      | |- respects _ _ (match ?x with _ => _ end) => destruct x
      | |- respects _ _ ?m => let h := head_of m in unfold h; cbv beta
      end ].

Section Runs.
Variable arrayBufferToBase64 : Int16Array -> string.
Variable base64ToArrayBuffer : value -> Outcome ArrayBuffer.

Let fire := Client.fire arrayBufferToBase64 base64ToArrayBuffer.
Let run := Client.run arrayBufferToBase64 base64ToArrayBuffer.

(** What every event respects, every sequence of events respects. *)
Lemma respects_run : forall X (view : Client.Page -> X) P,
  Composes P ->
  (forall e, respects view P (fire e)) ->
  forall events p,
    P (view p) (snd (run events p)) (view (fst (run events p))).
Proof.
  intros X view P HP Hfire events.
  induction events as [|e events IH]; intros p.
  - apply composes_nil.
  - unfold run. cbn [Client.run]. fold run.
    specialize (Hfire e p). unfold trace_of, state_of in Hfire.
    change (Client.fire arrayBufferToBase64 base64ToArrayBuffer e p)
      with (fire e p).
    destruct (fire e p) as [[o p1] t1]. cbn [fst snd] in Hfire.
    specialize (IH p1).
    change (Client.run arrayBufferToBase64 base64ToArrayBuffer events p1)
      with (run events p1).
    destruct (run events p1) as [p2 t2]. cbn [fst snd] in *.
    eapply composes_app; eauto.
Qed.
End Runs.

(* ------------------------------------------------------------------ *)
(** * Fields and the callbacks that announce them                      *)
(* ------------------------------------------------------------------ *)

Section Follows.
Variable X : Type.
(** What an effect tells the application about the field, if anything. *)
Variable told : Effect -> option X.

(** The value last told, starting from [before]. *)
Definition last_told (t : list Effect) (before : X) : X :=
  fold_left (fun x e => match told e with Some y => y | None => x end)
            t before.

Definition follows (before : X) (t : list Effect) (after : X) : Prop :=
  after = last_told t before.

#[global] Instance follows_composes : Composes follows.
Proof.
  split; unfold follows, last_told.
  - reflexivity.
  - intros x t1 y t2 z -> ->. rewrite fold_left_app. reflexivity.
Qed.

Lemma follows_neutral : forall e, told e = None -> neutral follows e.
Proof. intros e He x. unfold follows, last_told. cbn. rewrite He. reflexivity. Qed.
End Follows.

Definition told_status (e : Effect) : option Status :=
  match e with OnStatusChange s => Some s | _ => None end.

Definition told_speaking (e : Effect) : option bool :=
  match e with OnUserIsSpeakingChange b => Some b | _ => None end.

Abbreviation status_follows := (follows told_status).
Abbreviation speaking_follows := (follows told_speaking).

Ltac follows_side :=
  first [ intros ? ?; reflexivity
        | let c := fresh "c" in intro c; destruct (Client.ws c); reflexivity
        | intro; reflexivity
        | apply follows_neutral; reflexivity
        | let e := fresh "e" in let He := fresh "He" in
          intros e He; apply follows_neutral;
          destruct e; try discriminate He; reflexivity ].

Lemma status_setStatus : forall s,
  respects Client.status status_follows (Client._setStatus s).
Proof. intros s c. reflexivity. Qed.

#[global] Hint Resolve status_setStatus : respects.

(** The handlers that write [userIsSpeaking] tell the application. *)
Lemma speaking_onSpeechStart : forall profile,
  respects Client.userIsSpeaking speaking_follows (Client.onSpeechStart profile).
Proof.
  intros [|] c; unfold Client.onSpeechStart, Client._wsSend; js_unfold;
    cbn; destruct (ws_is_open (Client.ws c)); reflexivity.
Qed.

Lemma speaking_onSpeechEnd : forall profile,
  respects Client.userIsSpeaking speaking_follows (Client.onSpeechEnd profile).
Proof.
  intros [|] c; unfold Client.onSpeechEnd, Client._wsSend; js_unfold;
    cbn; destruct (ws_is_open (Client.ws c)); reflexivity.
Qed.

Lemma speaking_onVADMisfire :
  respects Client.userIsSpeaking speaking_follows Client.onVADMisfire.
Proof. intros c. reflexivity. Qed.

Lemma speaking_amplitude_callback : forall a k,
  respects Client.userIsSpeaking speaking_follows (Client.amplitude_callback a k).
Proof.
  intros a k c. rewrite amplitude_callback_eq.
  destruct (verdict a k) as [[| |]|]; unfold declare, on_wire; cbn;
    try destruct (ws_is_open (Client.ws c)); reflexivity.
Qed.

Lemma speaking_vad_model_timeout :
  respects Client.userIsSpeaking speaking_follows Client.vad_model_timeout.
Proof.
  intros c. rewrite vad_model_timeout_eq. unfold on_wire. cbn.
  destruct (ws_is_open (Client.ws c)); reflexivity.
Qed.

#[global] Hint Resolve speaking_onSpeechStart speaking_onSpeechEnd
  speaking_onVADMisfire speaking_amplitude_callback
  speaking_vad_model_timeout : respects.

Section FollowsRuns.
Variable arrayBufferToBase64 : Int16Array -> string.
Variable base64ToArrayBuffer : value -> Outcome ArrayBuffer.

Let fire := Client.fire arrayBufferToBase64 base64ToArrayBuffer.
Let run := Client.run arrayBufferToBase64 base64ToArrayBuffer.

Lemma status_on_self : forall A (m : M Client.LayercodeClient A),
  respects Client.status status_follows m ->
  respects (fun p => Client.status (Client.self p)) status_follows
    (Client.on_self m).
Proof.
  intros A m Hm. unfold Client.on_self.
  apply (@respects_lift _ _ _ _ Client.status status_follows
           Client.self Client.set_self m Hm).
  reflexivity.
Qed.

Lemma speaking_on_self : forall A (m : M Client.LayercodeClient A),
  respects Client.userIsSpeaking speaking_follows m ->
  respects (fun p => Client.userIsSpeaking (Client.self p)) speaking_follows
    (Client.on_self m).
Proof.
  intros A m Hm. unfold Client.on_self.
  apply (@respects_lift _ _ _ _ Client.userIsSpeaking speaking_follows
           Client.self Client.set_self m Hm).
  reflexivity.
Qed.

Lemma status_fire : forall e,
  respects (fun p => Client.status (Client.self p)) status_follows (fire e).
Proof.
  intros e. destruct e; unfold fire, Client.fire.
  all: respects_with follows_side ltac:(apply status_on_self).
Qed.

Lemma speaking_fire : forall e,
  respects (fun p => Client.userIsSpeaking (Client.self p)) speaking_follows
    (fire e).
Proof.
  intros e. destruct e; unfold fire, Client.fire.
  all: respects_with follows_side ltac:(apply speaking_on_self).
Qed.

(** X11. The status the application was told is the status the client
    has.  Whatever happens to a client (calls, socket events, promises
    settling, timers, audio), in any order and from any state, its
    [status] field afterwards is the argument of the last
    [onStatusChange] call, or unchanged if there was none. *)
Theorem status_is_the_last_one_announced :
  forall (events : list Client.Event) (p : Client.Page),
    let r := run events p in
    Client.status (Client.self (fst r))
    = last_told told_status (snd r) (Client.status (Client.self p)).
Proof.
  intros events p.
  exact (@respects_run arrayBufferToBase64 base64ToArrayBuffer _
           (fun p => Client.status (Client.self p))
           status_follows _ status_fire events p).
Qed.

(** X12. The [userIsSpeaking] flag the application was told is the one
    the client has: after any sequence of events, from any state, the
    field is what [onUserIsSpeakingChange] was last given, or unchanged
    if it was not called. *)
Theorem speaking_is_the_last_one_announced :
  forall (events : list Client.Event) (p : Client.Page),
    let r := run events p in
    Client.userIsSpeaking (Client.self (fst r))
    = last_told told_speaking (snd r) (Client.userIsSpeaking (Client.self p)).
Proof.
  intros events p.
  exact (@respects_run arrayBufferToBase64 base64ToArrayBuffer _
           (fun p => Client.userIsSpeaking (Client.self p))
           speaking_follows _ speaking_fire events p).
Qed.
End FollowsRuns.

(* ------------------------------------------------------------------ *)
(** * After disconnect                                                 *)
(* ------------------------------------------------------------------ *)

(** A socket that can still open or is open. *)
Definition ws_live (w : option WebSocket) : bool :=
  match w with
  | Some {| readyState := CONNECTING |} | Some {| readyState := OPEN |} => true
  | _ => false
  end.

(** While the socket is gone, nothing goes out and it stays gone. *)
Definition stays_silent (before : option WebSocket) (t : list Effect)
    (after : option WebSocket) : Prop :=
  ws_live before = false -> frames t = [] /\ ws_live after = false.

#[global] Instance stays_silent_composes : Composes stays_silent.
Proof.
  split; unfold stays_silent.
  - auto.
  - intros x t1 y t2 z H1 H2 Hx. destruct (H1 Hx) as [F1 Hy].
    destruct (H2 Hy) as [F2 Hz]. rewrite frames_app, F1, F2. auto.
Qed.

Lemma silent_neutral : forall e,
  frames [e] = [] -> neutral stays_silent e.
Proof. intros e He x Hx. auto. Qed.

Lemma not_live_not_open : forall w, ws_live w = false -> ws_is_open w = false.
Proof. intros [[[]]|]; cbn; auto; discriminate. Qed.

Lemma silent_wsSend : forall m,
  respects Client.ws stays_silent (Client._wsSend m).
Proof.
  intros m c Hc. pose proof (not_live_not_open _ Hc) as Ho.
  unfold Client._wsSend. js_unfold.
  destruct (String.eqb (message_type m) "client.audio"); cbn;
    rewrite Ho; cbn; auto.
Qed.

#[global] Hint Resolve silent_wsSend : respects.

Ltac silent_side :=
  first [ intros ? ?; reflexivity
        | intro; reflexivity
        | apply silent_neutral; reflexivity
        | let e := fresh "e" in let He := fresh "He" in
          intros e He; apply silent_neutral;
          destruct e; try discriminate He; reflexivity ].

Lemma silent_set_readyState : forall s,
  s <> OPEN -> s <> CONNECTING ->
  respects Client.ws stays_silent (Client.set_readyState s).
Proof.
  intros s H1 H2 c Hc. cbn. split; [reflexivity|].
  destruct (Client.ws c) eqn:E; cbn; [|rewrite E; reflexivity].
  destruct s; congruence.
Qed.

Lemma silent_disconnect : respects Client.ws stays_silent Client.disconnect.
Proof.
  unfold Client.disconnect.
  respects_with silent_side fail.
  - intros c Hc. cbn. split; [reflexivity|]. destruct w as [[]]; reflexivity.
Qed.

Lemma silent_set_readyState_CLOSED :
  respects Client.ws stays_silent (Client.set_readyState CLOSED).
Proof. apply silent_set_readyState; discriminate. Qed.

#[global] Hint Resolve silent_disconnect silent_set_readyState_CLOSED : respects.

Section SilentRuns.
Variable arrayBufferToBase64 : Int16Array -> string.
Variable base64ToArrayBuffer : value -> Outcome ArrayBuffer.

Let fire := Client.fire arrayBufferToBase64 base64ToArrayBuffer.
Let run := Client.run arrayBufferToBase64 base64ToArrayBuffer.

(** The answer of the authorization endpoint is where [connect] makes a
    new socket. *)
Definition is_authorization (e : Client.Event) : bool :=
  match e with Client.fetch_settled _ => true | _ => false end.

Lemma silent_on_self : forall A (m : M Client.LayercodeClient A),
  respects Client.ws stays_silent m ->
  respects (fun p => Client.ws (Client.self p)) stays_silent
    (Client.on_self m).
Proof.
  intros A m Hm. unfold Client.on_self.
  apply (@respects_lift _ _ _ _ Client.ws stays_silent
           Client.self Client.set_self m Hm).
  reflexivity.
Qed.

Lemma silent_fire : forall e,
  is_authorization e = false ->
  respects (fun p => Client.ws (Client.self p)) stays_silent (fire e).
Proof.
  intros e He. destruct e; try discriminate He; clear He;
    unfold fire, Client.fire.
  all: try solve [respects_with silent_side ltac:(apply silent_on_self)].
  (* a socket event: a socket that is gone cannot open *)
  destruct current, e; cbn [negb orb when];
    try solve [respects_with silent_side ltac:(apply silent_on_self)].
  intros p Hp. unfold bind, get. cbn [fst snd negb orb].
  replace (Client.socket_can Client.sock_open (Client.ws (Client.self p)))
    with false
    by (destruct (Client.ws (Client.self p)) as [[[]]|];
        try discriminate Hp; reflexivity).
  cbn. auto.
Qed.

(** X13. After [disconnect()] the client is silent.  From any state,
    once [disconnect()] has run, nothing is put on the socket by anything
    that happens later (captured audio, speech detector callbacks,
    timers, late socket events, further calls), as long as no answer of
    the authorization endpoint arrives.  Such an answer is where
    [connect()] makes a new socket, be it the answer to a later
    [connect()] or to one that was still waiting for it when
    [disconnect()] ran; what follows it is not covered. *)
Theorem nothing_is_sent_after_disconnect :
  forall (events : list Client.Event) (p : Client.Page),
    existsb is_authorization events = false ->
    let r := run (Client.call_disconnect :: events) p in
    frames (snd r) = [] /\
    ws_is_open (Client.ws (Client.self (fst r))) = false.
Proof.
  intros events p Hev. cbv zeta.
  assert (Hdis : forall c,
            frames (trace_of (Client.disconnect c)) = [] /\
            ws_live (Client.ws (state_of (Client.disconnect c))) = false).
  { intros c. destruct c as [d pl v w st sid pta pte ci uis eut rs rsent tid ab].
    unfold Client.disconnect, Client.on_player, Player.disconnect,
      Client._resetTurnTracking, Client._setStatus.
    js_unfold. destruct v, w as [[[]]|]; cbn; auto. }
  assert (Hrest : forall events p,
            existsb is_authorization events = false ->
            stays_silent (Client.ws (Client.self p)) (snd (run events p))
              (Client.ws (Client.self (fst (run events p))))).
  { clear Hdis Hev p events.
    induction events as [|e events IH]; intros p Hev.
    - apply composes_nil.
    - cbn [existsb] in Hev. apply orb_false_elim in Hev as [He Hev].
      pose proof (silent_fire e He p) as Hf.
      specialize (IH (state_of (fire e p)) Hev).
      change (run (e :: events) p)
        with (match fire e p with
              | (_, p1, t1) =>
                  match run events p1 with
                  | (p2, t2) => (p2, t1 ++ t2)
                  end
              end).
      unfold trace_of, state_of in *.
      destruct (fire e p) as [[o p1] t1]. cbn [fst snd] in *.
      destruct (run events p1) as [p2 t2]. cbn [fst snd] in *.
      eapply composes_app; eauto. }
  change (run (Client.call_disconnect :: events) p)
    with (match Client.on_self Client.disconnect p with
          | (_, p1, t1) =>
              match run events p1 with
              | (p2, t2) => (p2, t1 ++ t2)
              end
          end).
  unfold Client.on_self, lift.
  specialize (Hdis (Client.self p)). unfold trace_of, state_of in Hdis.
  destruct (Client.disconnect (Client.self p)) as [[o c1] t1].
  cbn [fst snd] in Hdis. destruct Hdis as [F1 L1].
  specialize (Hrest events (Client.set_self c1 p) Hev).
  destruct (run events (Client.set_self c1 p)) as [p2 t2].
  cbn [fst snd] in *. destruct (Hrest L1) as [F2 L2].
  rewrite frames_app, F1, F2. split; [reflexivity|].
  apply not_live_not_open. exact L2.
Qed.

End SilentRuns.

(** On a connected client whose socket is open, the same events send
    [vad_start] when [disconnect()] has not run. *)
Lemma nothing_is_sent_after_disconnect_witness :
  let events := [Client.data_available [1%Z]; Client.speech_start true] in
  let p := Client.new_Page interruptible_client in
  existsb is_authorization events = false /\
  ws_is_open (Client.ws (Client.self p)) = true /\
  frames (snd (Client.run toy_encode toy_decode events p)) = [vad_started] /\
  frames (snd (Client.run toy_encode toy_decode
                 (Client.call_disconnect :: events) p)) = [].
Proof.
  cbv zeta. split; [reflexivity|]. split; [reflexivity|].
  split; [reflexivity|].
  exact (proj1 (@nothing_is_sent_after_disconnect toy_encode toy_decode
                  [Client.data_available [1%Z]; Client.speech_start true]
                  (Client.new_Page interruptible_client)
                  eq_refl)).
Defined.

(* ------------------------------------------------------------------ *)
(** * What a handler leaves alone                                      *)
(* ------------------------------------------------------------------ *)

Section Only.
Variable X : Type.
Variable allowed : Effect -> bool.

(** The view is left as it was and every effect is an allowed one. *)
Definition only (before : X) (t : list Effect) (after : X) : Prop :=
  after = before /\ forallb allowed t = true.

#[global] Instance only_composes : Composes only.
Proof.
  split; unfold only.
  - auto.
  - intros x t1 y t2 z [-> H1] [-> H2]. rewrite forallb_app, H1, H2. auto.
Qed.

Lemma only_neutral : forall e, allowed e = true -> neutral only e.
Proof. intros e He x. unfold only. cbn. rewrite He. auto. Qed.
End Only.

Ltac only_side :=
  first [ intros ? ?; reflexivity
        | intro; reflexivity
        | apply only_neutral; reflexivity
        | let e := fresh "e" in let He := fresh "He" in
          intros e He; apply only_neutral;
          destruct e; try discriminate He; reflexivity ].

(** Effects on the connection and its callbacks. *)
Definition touches_connection (e : Effect) : bool :=
  match e with
  | OnStatusChange _ | OnConnect | OnDisconnect | OnError _
  | WsNew | WsClose | Fetch => true
  | _ => false
  end.

Definition connection (c : Client.LayercodeClient) : Status * option WebSocket :=
  (Client.status c, Client.ws c).

Definition connection_prev (c : ClientPrev.LayercodeClient)
  : Status * option WebSocket :=
  (ClientPrev.status c, ClientPrev.ws c).

Definition message_error (e : Exn) : list Effect :=
  [Console LError "Error processing WebSocket message:" [AExn e]; OnError e].

Section MessageHandler.
Variable base64ToArrayBuffer : value -> Outcome ArrayBuffer.

(** X14. A message cannot break the connection.  Whatever frame arrives
    and whatever state the client is in, [_handleWebSocketMessage] (both
    revisions) returns normally; it leaves [status] and the socket alone
    and calls none of [onStatusChange], [onConnect], [onDisconnect]; and
    if anything failed inside it (a frame that is not JSON, a payload
    that does not decode, a track id that is not a string) it ends with
    one [console.error] and one [onError] carrying that exception, which
    is the only way it calls [onError]. *)
Theorem message_handler_contains_failures :
  forall (event : MessageEvent) (c : Client.LayercodeClient)
         (c' : ClientPrev.LayercodeClient),
    let r := Client._handleWebSocketMessage base64ToArrayBuffer event c in
    let r' := ClientPrev._handleWebSocketMessage base64ToArrayBuffer event c' in
    (exists a body,
        outcome_of r = Return a /\
        connection (state_of r) = connection c /\
        forallb (fun e => negb (touches_connection e)) body = true /\
        (trace_of r = body \/ exists e, trace_of r = body ++ message_error e)) /\
    (exists a body,
        outcome_of r' = Return a /\
        connection_prev (state_of r') = connection_prev c' /\
        forallb (fun e => negb (touches_connection e)) body = true /\
        (trace_of r' = body \/ exists e, trace_of r' = body ++ message_error e)).
Proof.
  intros event c c'. cbv zeta. split.
  - unfold Client._handleWebSocketMessage.
    match goal with |- context [try_catch ?b _] => set (body := b) end.
    assert (Hb : respects connection
                   (only (fun e => negb (touches_connection e))) body).
    { subst body. respects_with only_side fail. }
    specialize (Hb c). unfold try_catch, trace_of, state_of, outcome_of in *.
    destruct (body c) as [[[a|e] c1] t1]; cbn [fst snd] in *;
      destruct Hb as [Hc Ht].
    + exists a, t1. auto.
    + exists Client.Settled, t1. cbn. repeat split; auto.
      right. exists e. reflexivity.
  - unfold ClientPrev._handleWebSocketMessage.
    match goal with |- context [try_catch ?b _] => set (body := b) end.
    assert (Hb : respects connection_prev
                   (only (fun e => negb (touches_connection e))) body).
    { subst body. respects_with only_side fail. }
    specialize (Hb c'). unfold try_catch, trace_of, state_of, outcome_of in *.
    destruct (body c') as [[[a|e] c1] t1]; cbn [fst snd] in *;
      destruct Hb as [Hc Ht].
    + exists a, t1. auto.
    + exists false, t1. cbn. repeat split; auto.
      right. exists e. reflexivity.
Qed.
End MessageHandler.

(* ------------------------------------------------------------------ *)
(** * Push to talk                                                     *)
(* ------------------------------------------------------------------ *)

Lemma offered_app : forall t1 t2, offered (t1 ++ t2) = offered t1 ++ offered t2.
Proof.
  induction t1 as [|e t1 IH]; intros t2; [reflexivity|].
  change ((e :: t1) ++ t2) with (e :: (t1 ++ t2)).
  destruct e; try (cbn [offered]; apply IH).
  cbn [offered].
  repeat match goal with
         | |- context [match ?x with _ => _ end] =>
             destruct x; try apply IH; try (cbn [app]; f_equal; apply IH)
         end.
Qed.

(** Reading the turn triggers given to [_wsSend] from a state of the
    push-to-talk button: a start is only possible when it is up, an end
    only when it is down. *)
Fixpoint after_triggers (active : bool) (ms : list ClientMessage)
  : option bool :=
  match ms with
  | [] => Some active
  | ClientTriggerTurnStart :: rest =>
      if active then None else after_triggers true rest
  | ClientTriggerTurnEnd :: rest =>
      if active then after_triggers false rest else None
  | _ :: rest => after_triggers active rest
  end.

Definition triggers_alternate (before : bool) (t : list Effect) (after : bool)
  : Prop :=
  after_triggers before (offered t) = Some after.

Lemma after_triggers_app : forall m1 m2 a b c,
  after_triggers a m1 = Some b -> after_triggers b m2 = Some c ->
  after_triggers a (m1 ++ m2) = Some c.
Proof.
  induction m1 as [|m m1 IH]; intros m2 a b c H1 H2.
  - cbn in H1. injection H1 as ->. exact H2.
  - destruct m; cbn in *; try (destruct a; try discriminate H1); eauto.
Qed.

#[global] Instance triggers_alternate_composes : Composes triggers_alternate.
Proof.
  split; unfold triggers_alternate.
  - reflexivity.
  - intros x t1 y t2 z H1 H2. rewrite offered_app.
    eapply after_triggers_app; eauto.
Qed.

Lemma triggers_neutral : forall e, offered [e] = [] -> neutral triggers_alternate e.
Proof. intros e He x. unfold triggers_alternate. rewrite He. reflexivity. Qed.

Definition is_trigger (m : ClientMessage) : bool :=
  match m with
  | ClientTriggerTurnStart | ClientTriggerTurnEnd => true
  | _ => false
  end.

Lemma triggers_wsSend : forall m,
  is_trigger m = false ->
  respects Client.pushToTalkActive triggers_alternate (Client._wsSend m).
Proof.
  intros m Hm c. unfold triggers_alternate. rewrite wsSend_eq.
  cbn [state_of trace_of fst snd].
  destruct m; try discriminate Hm; unfold on_wire;
    destruct (ws_is_open (Client.ws c)); reflexivity.
Qed.

Lemma triggers_started :
  respects Client.pushToTalkActive triggers_alternate
    Client.triggerUserTurnStarted.
Proof.
  intros c. unfold triggers_alternate.
  destruct c as [d pl v w st sid pta pte ci uis eut rs rsent tid ab].
  unfold Client.triggerUserTurnStarted, Client._wsSend,
    Client._clientInterruptAssistantReplay, Client.on_player,
    Player.interrupt_request, Client._clientInterruptAssistantReplay_resume.
  destruct pl as [rate ctx str an ids playing].
  destruct pta, w as [[[]]|], str; js_unfold; reflexivity.
Qed.

Lemma triggers_finished :
  respects Client.pushToTalkActive triggers_alternate
    Client.triggerUserTurnFinished.
Proof.
  intros c. unfold triggers_alternate.
  destruct c as [d pl v w st sid pta pte ci uis eut rs rsent tid ab].
  unfold Client.triggerUserTurnFinished, Client._wsSend.
  destruct pta, w as [[[]]|]; js_unfold; reflexivity.
Qed.

#[global] Hint Resolve triggers_started triggers_finished : respects.

Lemma offered_other_line : forall lvl text args,
  String.eqb text "sent ws msg:" = false ->
  offered [Console lvl text args] = [].
Proof.
  intros lvl text args H. destruct lvl; try reflexivity.
  cbn [offered].
  repeat (match goal with
          | |- context [match ?x with _ => _ end] => destruct x
          end; try reflexivity).
  discriminate H.
Qed.

Ltac triggers_side :=
  first [ intros ? ?; reflexivity
        | intro; reflexivity
        | let c := fresh "c" in intro c; destruct (Client.ws c); reflexivity
        | apply triggers_neutral; reflexivity
        | let e := fresh "e" in let He := fresh "He" in
          intros e He; apply triggers_neutral;
          destruct e; try discriminate He; try reflexivity;
          apply offered_other_line; apply negb_true_iff; exact He ].

Section TriggerRuns.
Variable arrayBufferToBase64 : Int16Array -> string.
Variable base64ToArrayBuffer : value -> Outcome ArrayBuffer.

Let fire := Client.fire arrayBufferToBase64 base64ToArrayBuffer.
Let run := Client.run arrayBufferToBase64 base64ToArrayBuffer.

Lemma triggers_on_self : forall A (m : M Client.LayercodeClient A),
  respects Client.pushToTalkActive triggers_alternate m ->
  respects (fun p => Client.pushToTalkActive (Client.self p))
    triggers_alternate (Client.on_self m).
Proof.
  intros A m Hm. unfold Client.on_self.
  apply (@respects_lift _ _ _ _ Client.pushToTalkActive triggers_alternate
           Client.self Client.set_self m Hm).
  reflexivity.
Qed.

Lemma triggers_fire : forall e,
  respects (fun p => Client.pushToTalkActive (Client.self p))
    triggers_alternate (fire e).
Proof.
  intros e. destruct e; unfold fire, Client.fire.
  all: respects_with triggers_side
         ltac:(first [ apply triggers_on_self
                     | apply triggers_wsSend; reflexivity ]).
Qed.

(** X15. Turn triggers alternate.  Whatever happens to a client, the
    [trigger.turn.start] and [trigger.turn.end] messages it gives to
    [_wsSend] alternate: a start is never followed by another start
    without an end between them, nor an end by another end, and
    [pushToTalkActive] is true exactly after a start. *)
Theorem turn_triggers_alternate :
  forall (events : list Client.Event) (p : Client.Page),
    let r := run events p in
    after_triggers (Client.pushToTalkActive (Client.self p))
      (offered (snd r))
    = Some (Client.pushToTalkActive (Client.self (fst r))).
Proof.
  intros events p.
  exact (@respects_run arrayBufferToBase64 base64ToArrayBuffer _
           (fun p => Client.pushToTalkActive (Client.self p))
           triggers_alternate _ triggers_fire events p).
Qed.
End TriggerRuns.

(* ------------------------------------------------------------------ *)
(** * Amplitude monitoring                                             *)
(* ------------------------------------------------------------------ *)

Lemma forwarded_positions : forall amplitudes counter k,
  counter <= 10 ->
  nth_error (forwarded amplitudes counter) k
  = nth_error amplitudes (10 - counter + 10 * k).
Proof.
  induction amplitudes as [|a rest IH]; intros counter k Hc.
  - cbn [forwarded]. destruct k, (10 - counter + 10 * _); reflexivity.
  - cbn [forwarded]. unfold amplitude_monitor, AMPLITUDE_MONITORING_SAMPLE_RATE.
    destruct (Nat.leb_spec 10 counter) as [Hfull|Hroom].
    + replace counter with 10 by lia.
      destruct k as [|k]; [reflexivity|].
      cbn [nth_error]. rewrite IH by lia.
      replace (10 - 10 + 10 * S k) with (S (10 - 1 + 10 * k)) by lia.
      reflexivity.
    + rewrite IH by lia.
      replace (10 - counter + 10 * k) with (S (10 - S counter + 10 * k)) by lia.
      reflexivity.
Qed.

(** X16. Amplitudes reach the application one in ten, and not at once.
    Of the amplitudes a source reports, the monitor forwards exactly the
    11th, the 21st, the 31st, ...: the [k]-th amplitude forwarded (from
    0) is the one at position [10 * (k + 1)] of those reported, so the
    first ten are never forwarded. *)
Theorem amplitude_is_sampled_one_in_ten :
  forall (amplitudes : list float) (k : nat),
    nth_error (forwarded amplitudes 0) k
    = nth_error amplitudes (10 * (k + 1)) /\
    forwarded (firstn 10 amplitudes) 0 = [].
Proof.
  intros amplitudes k. split.
  - rewrite forwarded_positions by lia. f_equal. lia.
  - assert (H : forall j, nth_error (forwarded (firstn 10 amplitudes) 0) j = None).
    { intros j. rewrite forwarded_positions by lia.
      apply nth_error_None. rewrite length_firstn. lia. }
    destruct (forwarded (firstn 10 amplitudes) 0) as [|x l]; [reflexivity|].
    specialize (H 0). discriminate H.
Qed.

(* ------------------------------------------------------------------ *)
(** * Dispatch of data messages                                        *)
(* ------------------------------------------------------------------ *)

Definition is_data_callback (e : Effect) : bool :=
  match e with OnDataMessage _ => true | _ => false end.

Lemma is_str_data : forall type,
  is_str type "response.data" = true ->
  is_str type "turn.start" = false /\
  is_str type "response.audio" = false /\
  is_str type "response.text" = false.
Proof.
  intros [| | | |s| |] H; try discriminate H.
  unfold is_str in *. apply String.eqb_eq in H. subst. auto.
Qed.

Section Data.
Variable base64ToArrayBuffer : value -> Outcome ArrayBuffer.

(** X17. [onDataMessage] gets the [response.data] frames and nothing
    else.  For every frame and state, either revision calls
    [onDataMessage] exactly once, with the parsed frame, when the frame is
    JSON whose [type] is "response.data", and does not call it for any
    other frame. *)
Theorem data_messages_reach_the_application :
  forall (event : MessageEvent) (c : Client.LayercodeClient)
         (c' : ClientPrev.LayercodeClient),
    let r := Client._handleWebSocketMessage base64ToArrayBuffer event c in
    let r' := ClientPrev._handleWebSocketMessage base64ToArrayBuffer event c' in
    let expected :=
      match event with
      | Json _ message =>
          if is_str (type_of message) "response.data"
          then [OnDataMessage message] else []
      | NotJson _ => []
      end in
    filter is_data_callback (trace_of r) = expected /\
    filter is_data_callback (trace_of r') = expected.
Proof.
  intros [data|data message] c c'; cbv zeta; [split; reflexivity|].
  destruct message as [| | | | | |fields];
    try (split; reflexivity).
  unfold type_of.
  destruct (is_str (lookup "type" fields) "response.data") eqn:Hd.
  - destruct (is_str_data _ Hd) as (H1 & H2 & H3).
    unfold Client._handleWebSocketMessage, ClientPrev._handleWebSocketMessage.
    js_unfold. cbn.
    rewrite H1, H2, H3, Hd. split; reflexivity.
  - split.
    + unfold Client._handleWebSocketMessage,
        Client._clientInterruptAssistantReplay,
        Client._clientInterruptAssistantReplay_resume, Client.on_player,
        Player.interrupt_request, Player.add16BitPCM,
        Player.new_Int16Array, Player._start,
        Player.clearInterruptedTracks.
      js_exec. all: reflexivity.
    + unfold ClientPrev._handleWebSocketMessage,
        ClientPrev._clientInterruptAssistantReplay, ClientPrev.on_player,
        Player.interrupt_request, Player.add16BitPCM,
        Player.new_Int16Array, Player._start.
      js_exec. all: reflexivity.
Qed.

(* ------------------------------------------------------------------ *)
(** * Interrupted turns                                                *)
(* ------------------------------------------------------------------ *)

(** X18. An interrupted turn stays muted.  After the worklet has answered
    an interrupt for the current turn, a [response.audio] frame of that
    turn changes nothing at all: no samples are posted to the player,
    nothing is logged, no error is reported, and the client is left as
    it was. *)
Theorem interrupted_turn_stays_muted :
  forall (data turn : string) (fields : list (string * value))
         (samples : ArrayBuffer) (position : float)
         (c : Client.LayercodeClient),
    lookup "type" fields = VStr "response.audio" ->
    lookup "turn_id" fields = VStr turn ->
    String.eqb turn "" = false ->
    base64ToArrayBuffer (lookup "content" fields) = Return samples ->
    Client.currentTurnId c = VStr turn ->
    let c1 := state_of (Client.offset_reply
                          {| Player.trackId := Some turn;
                             Player.offset := position |} c) in
    Client._handleWebSocketMessage base64ToArrayBuffer
      (Json data (VObj fields)) c1
    = (Return Client.Settled, c1, []).
Proof.
  intros data turn fields samples position c Htype Hturn Hne Hdec Hcur.
  cbv zeta.
  destruct c as [d pl v w st sid pta pte ci uis eut rs rsent tid ab].
  cbn in Hcur. subst tid.
  destruct pl as [rate ctx str an ids playing].
  unfold Client._handleWebSocketMessage, Client.offset_reply,
    Client.on_player, Player.interrupt_reply,
    Client._clientInterruptAssistantReplay_resume, Client._wsSend,
    Player.add16BitPCM.
  js_unfold. cbn [Player.trackId Player.offset].
  rewrite Hne.
  pose proof (marked_reads_interrupted turn ids) as Hmarked.
  destruct w as [[[]]|]; cbn;
    unfold truthy, ws_is_open; rewrite ?Hne; cbn;
    rewrite Htype, Hturn, Hdec; cbn;
    unfold is_str, strict_eq, Player.interrupted; cbn;
    rewrite ?Hne, ?String.eqb_refl, ?Hmarked; cbn;
    rewrite ?Hne, ?String.eqb_refl, ?Hmarked; reflexivity.
Qed.

(** X19. The audio of a new turn is played and clears the interruptions.
    On a connected player, take a [response.audio] frame whose turn is
    not the current one and does not read as interrupted (so that its id
    names no property of [Object.prototype]).  When the decoded content
    has an even number of bytes, exactly these bytes are posted to the
    worklet under the turn's id, the turn becomes the current one, and
    the interrupted tracks are cleared: afterwards only ids that name a
    property of [Object.prototype] read as interrupted.  When the number
    of bytes is odd, nothing is posted: the RangeError of the player goes
    to the error callback and the current turn stays what it was.  In
    both cases the player has started a stream. *)
Theorem new_turn_is_played :
  forall (data turn : string) (fields : list (string * value))
         (arrayBuffer : ArrayBuffer) (c : Client.LayercodeClient),
    lookup "type" fields = VStr "response.audio" ->
    lookup "turn_id" fields = VStr turn ->
    String.eqb turn "" = false ->
    base64ToArrayBuffer (lookup "content" fields) = Return arrayBuffer ->
    strict_eq (Client.currentTurnId c) (VStr turn) = false ->
    Player.interrupted (VStr turn) (Client.wavPlayer c) = false ->
    context (Client.wavPlayer c) = true ->
    analyser (Client.wavPlayer c) = true ->
    let r := Client._handleWebSocketMessage base64ToArrayBuffer
               (Json data (VObj fields)) c in
    outcome_of r = Return Client.Settled /\
    stream (Client.wavPlayer (state_of r)) = true /\
    if Nat.odd (List.length arrayBuffer) then
      posted (trace_of r) = [] /\
      filter is_error_callback (trace_of r)
      = [OnError Player.byte_length_error] /\
      Client.currentTurnId (state_of r) = Client.currentTurnId c /\
      interruptedTrackIds (Client.wavPlayer (state_of r))
      = interruptedTrackIds (Client.wavPlayer c)
    else
      posted (trace_of r) = [PortPostMessage (wk_write arrayBuffer turn)] /\
      filter is_error_callback (trace_of r) = [] /\
      Client.currentTurnId (state_of r) = VStr turn /\
      forall s, Player.interrupted (VStr s) (Client.wavPlayer (state_of r))
                = inherited s.
Proof.
  intros data turn fields arrayBuffer c Htype Hturn Hne Hdec Hcur Hint Hctx Han.
  cbv zeta.
  destruct c as [d pl v w st sid pta pte ci uis eut rs rsent tid ab].
  destruct pl as [rate ctx str an ids playing].
  cbn in Hcur, Hint, Hctx, Han. subst ctx an.
  unfold Player.interrupted in Hint.
  cbn [interruptedTrackIds] in Hint.
  apply orb_false_elim in Hint as [Hown Hproto].
  assert (Hmark : Player.mark turn [] = [turn]).
  { unfold Player.mark, makes_own_property.
    apply orb_false_elim in Hproto as [Hp _]. rewrite Hp. reflexivity. }
  unfold Client._handleWebSocketMessage, Client.on_player,
    Player.add16BitPCM, Player._start, Player.clearInterruptedTracks,
    Player.new_Int16Array.
  js_unfold.
  destruct str, (Nat.odd (List.length arrayBuffer)) eqn:Hodd;
    repeat (progress (cbn;
                      unfold is_str, Player.interrupted, typeof_string;
                      cbn;
                      rewrite ?Htype, ?Hturn, ?Hdec, ?Hown, ?Hproto, ?Hcur,
                        ?Hodd, ?orb_true_r, ?String.eqb_refl));
    unfold truthy; rewrite ?Hne; cbn;
    unfold Player.interrupted; cbn;
    rewrite ?Hown, ?Hproto, ?String.eqb_refl; cbn; auto 10.
Qed.

End Data.

(** A stand-in for [base64ToArrayBuffer] that knows one content: "AAA="
    is the base64 of two zero bytes. *)
Definition decode_silence (content : value) : Outcome ArrayBuffer :=
  match content with
  | VStr "AAA=" => Return [0%Z; 0%Z]
  | _ => Throw (Error "InvalidCharacterError")
  end.

Lemma new_turn_is_played_witness :
  let fields := [("type", VStr "response.audio"); ("turn_id", VStr "t2");
                 ("content", VStr "AAA=")] in
  let c := Client.set_wavPlayer (mkPlayer 16000%float true false true [] false)
             (Client.new_LayercodeClient None VNull) in
  Client.currentTurnId
    (state_of (Client._handleWebSocketMessage decode_silence
                 (Json "" (VObj fields)) c))
  = VStr "t2".
Proof.
  cbv zeta.
  exact (proj1 (proj2 (proj2 (proj2 (proj2
    (@new_turn_is_played decode_silence "" "t2"
       [("type", VStr "response.audio"); ("turn_id", VStr "t2");
        ("content", VStr "AAA=")] [0%Z; 0%Z]
       (Client.set_wavPlayer (mkPlayer 16000%float true false true [] false)
          (Client.new_LayercodeClient None VNull))
       eq_refl eq_refl eq_refl eq_refl eq_refl eq_refl eq_refl eq_refl)))))).
Defined.

Lemma interrupted_turn_stays_muted_witness :
  let fields := [("type", VStr "response.audio"); ("turn_id", VStr "t1");
                 ("content", VStr "AA==")] in
  let c := Client.set_currentTurnId (VStr "t1")
             (Client.new_LayercodeClient None VNull) in
  trace_of
    (Client._handleWebSocketMessage toy_decode (Json "" (VObj fields))
       (state_of (Client.offset_reply
                    {| Player.trackId := Some "t1";
                       Player.offset := 0%float |} c)))
  = [].
Proof.
  cbv zeta.
  rewrite (@interrupted_turn_stays_muted toy_decode "" "t1"
             [("type", VStr "response.audio"); ("turn_id", VStr "t1");
              ("content", VStr "AA==")] [] 0%float
             (Client.set_currentTurnId (VStr "t1")
                (Client.new_LayercodeClient None VNull))
             eq_refl eq_refl eq_refl eq_refl eq_refl).
  reflexivity.
Defined.

(* ------------------------------------------------------------------ *)
(** * When connect fails                                               *)
(* ------------------------------------------------------------------ *)

Definition connect_error (e : Exn) : list Effect :=
  [Console LError "Error connecting to Layercode pipeline:" [AExn e];
   OnStatusChange error; OnError e].

(** X20. An unknown trigger fails [connect()] after the socket was made.
    When the authorization succeeds but [config.transcription.trigger] is
    neither "push_to_talk" nor "automatic", [connect()] rejects with
    "Unknown trigger" and reports it through [onError]; by then it has
    stored the session id and created the WebSocket, which it leaves in
    [this.ws], connecting and not closed, and it has not started the
    speech detector or the recorder. *)
Theorem unknown_trigger_leaves_the_socket :
  forall (body config transcription : list (string * value))
         (c : Client.LayercodeClient),
    lookup "config" body = VObj config ->
    lookup "transcription" config = VObj transcription ->
    is_str (lookup "trigger" transcription) "push_to_talk" = false ->
    is_str (lookup "trigger" transcription) "automatic" = false ->
    let r := Client.connect_authorized
               (Return {| Client.ok := true;
                          Client.body := Return (VObj body) |}) c in
    outcome_of r = Throw (Error "Unknown trigger") /\
    trace_of r
    = [WsNew; Console LLog "config" [AVal (VObj config)]]
      ++ connect_error (Error "Unknown trigger") /\
    Client.ws (state_of r) = Some {| readyState := CONNECTING |} /\
    Client.sessionId (state_of r) = lookup "session_id" body /\
    Client.status (state_of r) = error.
Proof.
  intros body config transcription c Hconfig Htrans Hptt Hauto.
  cbv zeta.
  unfold Client.connect_authorized, Client.connect_catch, Client._setStatus.
  js_unfold. cbn. rewrite Hconfig. cbn. rewrite Htrans. cbn.
  rewrite Hptt, Hauto. cbn. repeat split.
Qed.

Lemma unknown_trigger_leaves_the_socket_witness :
  let transcription := [("trigger", VStr "manual")] in
  let config := [("transcription", VObj transcription)] in
  let body := [("session_id", VStr "s"); ("config", VObj config)] in
  Client.ws
    (state_of (Client.connect_authorized
                 (Return {| Client.ok := true;
                            Client.body := Return (VObj body) |})
                 (Client.new_LayercodeClient None VNull)))
  = Some {| readyState := CONNECTING |}.
Proof.
  cbv zeta.
  exact (proj1 (proj2 (proj2
    (@unknown_trigger_leaves_the_socket
       [("session_id", VStr "s");
        ("config", VObj [("transcription", VObj [("trigger", VStr "manual")])])]
       [("transcription", VObj [("trigger", VStr "manual")])]
       [("trigger", VStr "manual")]
       (Client.new_LayercodeClient None VNull)
       eq_refl eq_refl eq_refl eq_refl)))).
Defined.

Section FailedConnect.
Variable arrayBufferToBase64 : Int16Array -> string.
Variable base64ToArrayBuffer : value -> Outcome ArrayBuffer.

Let run := Client.run arrayBufferToBase64 base64ToArrayBuffer.



End FailedConnect.


(* ------------------------------------------------------------------ *)
(** * A speech model that loads late                                   *)
(* ------------------------------------------------------------------ *)

Section LateModel.
Variable arrayBufferToBase64 : Int16Array -> string.
Variable base64ToArrayBuffer : value -> Outcome ArrayBuffer.

Let fire := Client.fire arrayBufferToBase64 base64ToArrayBuffer.
Let run := Client.run arrayBufferToBase64 base64ToArrayBuffer.

(** X22. A speech model that loads after the 2000 ms timer runs beside
    the fallback.  If the timer fires first and the model is ready
    later, the client ends up with both the model's detector started and
    the amplitude detector installed; a loud frame followed by the
    model's speech start then gives [vad_start] to [_wsSend] twice. *)
Theorem late_model_runs_beside_the_fallback :
  forall (timer : nat) (profile : bool) (a : float) (p : Client.Page),
    existsb (Nat.eqb timer) (Client.timeouts p) = true ->
    loud a = true ->
    let started := run [Client.model_timeout timer;
                        Client.micvad_resolved timer profile] p in
    let p1 := fst started in
    Client.vad (Client.self p1)
    = Some {| Client.interruptible := profile |} /\
    count (fun e => match e with VadStart => true | _ => false end)
      (snd started) = 1 /\
    Client.detectors p1 = Client.detectors p ++ [Client.mkAmp false 0] /\
    offered (snd (run [Client.amplitude (List.length (Client.detectors p)) a;
                       Client.speech_start profile] p1))
    = [vad_started; vad_started].
Proof.
  intros timer profile a [c timeouts next detectors] Htimer Hloud.
  cbn [Client.timeouts Client.detectors] in *. cbv zeta.
  assert (Hstarted :
    run [Client.model_timeout timer; Client.micvad_resolved timer profile]
      (Client.mkPage c timeouts next detectors)
    = (Client.mkPage
         (Client.set_vad (Some {| Client.interruptible := profile |})
            (Client.set_userIsSpeaking false c))
         (filter (fun i => negb (Nat.eqb i timer))
            (filter (fun i => negb (Nat.eqb i timer)) timeouts))
         next (detectors ++ [Client.mkAmp false 0]),
       trace_of (Client.vad_model_timeout c)
       ++ [ClearTimeout; VadStart; Console LLog "VAD started" []])).
  { unfold run. cbn [Client.run].
    change (Client.fire arrayBufferToBase64 base64ToArrayBuffer) with fire.
    unfold fire at 1. rewrite model_timeout_eq.
    cbn [Client.timeouts]. rewrite Htimer.
    cbn [fst snd trace_of Client.self Client.detectors Client.next_timeout].
    unfold fire, Client.fire, Client.clear_timeout, Client.on_self,
      Client.vad_then.
    js_unfold. cbn [fst snd Client.self Client.detectors Client.timeouts
                    Client.next_timeout Client.set_self].
    rewrite app_nil_r. reflexivity. }
  rewrite Hstarted. cbn [fst snd Client.self Client.detectors].
  split; [reflexivity|].
  split.
  { rewrite vad_model_timeout_eq. cbn [trace_of snd].
    rewrite !count_app. unfold on_wire.
    destruct (ws_is_open (Client.ws c)); reflexivity. }
  split; [reflexivity|].
  unfold run. cbn [Client.run].
  unfold Client.fire at 1, Client.set_detector, Client.on_self.
  js_unfold. cbn [fst snd Client.self Client.detectors].
  rewrite nth_error_app2, Nat.sub_diag by lia.
  cbn [nth_error].
  rewrite !amplitude_callback_eq. unfold verdict, declare. rewrite Hloud.
  cbn [Client.isSpeakingByAmplitude].
  unfold Client.fire, Client.on_self, Client.onSpeechStart, Client._wsSend,
    on_wire.
  destruct c as [d pl v w st sid pta pte ci uis eut rs rsent tid ab].
  js_unfold.
  destruct profile, w as [[[]]|]; reflexivity.
Qed.
End LateModel.

Lemma late_model_runs_beside_the_fallback_witness :
  let p := Client.mkPage (Client.new_LayercodeClient None VNull) [0] 1 [] in
  existsb (Nat.eqb 0) (Client.timeouts p) = true /\
  loud 1%float = true /\
  Client.detectors
    (fst (Client.run toy_encode toy_decode
            [Client.model_timeout 0; Client.micvad_resolved 0 true] p))
  = [Client.mkAmp false 0].
Proof.
  cbv zeta. split; [reflexivity|]. split; [reflexivity|].
  exact (proj1 (proj2 (proj2
    (@late_model_runs_beside_the_fallback toy_encode toy_decode 0 true 1%float
       (Client.mkPage (Client.new_LayercodeClient None VNull) [0] 1 [])
       eq_refl eq_refl)))).
Defined.

(* ------------------------------------------------------------------ *)
(** * The revision whose detector pauses playback                      *)
(* ------------------------------------------------------------------ *)

(** X23 (src/src/index.ts). A misfire undoes the pause, when the audio
    context lets it.  When the interruptible detector reports speech
    while the player is playing, the player is paused.  If the detector
    then reports a misfire and the audio context is not suspended,
    playback resumes: the worklet gets [pause] then [play], and the
    client is as before the speech except that [userIsSpeaking] is false.
    If the context is suspended at the misfire, the callback posts
    nothing: it clears [vadPausedPlayer] while [play()] still waits for
    [context.resume()].  Playback then resumes only if that succeeds;
    if it fails the error is logged, the player stays paused, and a
    further misfire does not resume it either. *)
Theorem misfire_resumes_playback :
  forall (c : ClientPrev.LayercodeClient) (err : Exn),
    context (ClientPrev.wavPlayer c) = true ->
    stream (ClientPrev.wavPlayer c) = true ->
    isPlaying (ClientPrev.wavPlayer c) = true ->
    ClientPrev.vadPausedPlayer c = false ->
    let speech := ClientPrev.onSpeechStart true c in
    let misfire := ClientPrev.onVADMisfire true false (state_of speech) in
    let waiting := ClientPrev.onVADMisfire true true (state_of speech) in
    let late := ClientPrev.context_resumed (Return tt) (state_of waiting) in
    let failed := ClientPrev.context_resumed (Throw err) (state_of waiting) in
    let again := ClientPrev.onVADMisfire true false (state_of failed) in
    posted (trace_of speech) = [PortPostMessage wk_pause] /\
    isPlaying (ClientPrev.wavPlayer (state_of speech)) = false /\
    posted (trace_of misfire) = [PortPostMessage wk_play] /\
    state_of misfire = ClientPrev.set_userIsSpeaking false c /\
    posted (trace_of waiting) = [] /\
    isPlaying (ClientPrev.wavPlayer (state_of waiting)) = false /\
    ClientPrev.vadPausedPlayer (state_of waiting) = false /\
    posted (trace_of late) = [PortPostMessage wk_play] /\
    state_of late = ClientPrev.set_userIsSpeaking false c /\
    posted (trace_of failed) = [] /\
    count is_error_report (trace_of failed) = 1 /\
    state_of failed = state_of waiting /\
    posted (trace_of again) = [] /\
    isPlaying (ClientPrev.wavPlayer (state_of again)) = false.
Proof.
  intros c err Hc Hs Hp Hv. cbv zeta.
  destruct c as [pl v w st pta vpp pte ci uis].
  destruct pl as [rate ctx str an ids playing].
  cbn in Hc, Hs, Hp, Hv. subst.
  unfold ClientPrev.onSpeechStart, ClientPrev.onVADMisfire,
    ClientPrev.context_resumed,
    ClientPrev.on_player, Player.pause, Player.play, Player.play_resumed,
    Player.play_stream, ClientPrev._wsSend.
  js_unfold.
  destruct w as [[[]]|]; cbn; repeat split.
Qed.

Lemma misfire_resumes_playback_witness :
  let c := ClientPrev.set_wavPlayer
             (mkPlayer 16000%float true true true [] true)
             ClientPrev.new_LayercodeClient in
  context (ClientPrev.wavPlayer c) = true /\
  isPlaying
    (ClientPrev.wavPlayer
       (state_of (ClientPrev.onVADMisfire true false
                    (state_of (ClientPrev.onSpeechStart true c)))))
  = true.
Proof.
  cbv zeta. split; [reflexivity|].
  rewrite (proj1 (proj2 (proj2 (proj2
    (@misfire_resumes_playback
       (ClientPrev.set_wavPlayer
          (mkPlayer 16000%float true true true [] true)
          ClientPrev.new_LayercodeClient)
       SyntaxError eq_refl eq_refl eq_refl eq_refl))))).
  reflexivity.
Defined.

Section PrevAudio.
Variable arrayBufferToBase64 : Int16Array -> string.

(** X24 (src/src/index.ts). Without interruption, speech during playback
    is not transmitted.  With the non-interruptible detector, a speech
    start while the player is playing changes nothing, so (outside
    push-to-talk, the user not yet marked as speaking) every chunk
    captured afterwards is dropped: nothing is sent, kept or reported. *)
Theorem speech_during_playback_is_not_sent :
  forall (data : Int16Array) (c : ClientPrev.LayercodeClient),
    isPlaying (ClientPrev.wavPlayer c) = true ->
    ClientPrev.pushToTalkEnabled c = false ->
    ClientPrev.userIsSpeaking c = false ->
    ClientPrev.onSpeechStart false c = (Return tt, c, []) /\
    ClientPrev._handleDataAvailable arrayBufferToBase64 data c
    = (Return tt, c, []).
Proof.
  intros data c Hp Hptt Hs.
  unfold ClientPrev.onSpeechStart, ClientPrev._handleDataAvailable.
  js_unfold. cbn. rewrite Hp, Hptt, Hs. cbn. auto.
Qed.

(** X25 (src/src/index.ts). If the model has not loaded after 2000 ms the
    gate opens.  The timer marks the user as speaking, so outside
    push-to-talk every chunk captured from then on is given to [_wsSend]
    (and reaches the socket when it is open) until a detector callback
    says otherwise. *)
Theorem model_timeout_opens_the_gate :
  forall (data : Int16Array) (c : ClientPrev.LayercodeClient),
    ClientPrev.pushToTalkEnabled c = false ->
    let c1 := state_of (ClientPrev.vad_model_timeout c) in
    c1 = ClientPrev.set_userIsSpeaking true c /\
    ClientPrev._handleDataAvailable arrayBufferToBase64 data c1
    = (Return tt, c1,
       map WsSend (on_wire (ClientPrev.ws c)
                     [ClientAudioMessage (arrayBufferToBase64 data)])).
Proof.
  intros data c Hptt. cbv zeta.
  destruct c as [pl v w st pta vpp pte ci uis]. cbn in Hptt. subst pte.
  unfold ClientPrev.vad_model_timeout, ClientPrev._handleDataAvailable,
    ClientPrev._wsSend, on_wire.
  js_unfold. cbn.
  destruct w as [[[]]|]; cbn; auto.
Qed.
End PrevAudio.

Lemma speech_during_playback_is_not_sent_witness :
  let c := ClientPrev.set_wavPlayer
             (mkPlayer 16000%float true true true [] true)
             ClientPrev.new_LayercodeClient in
  isPlaying (ClientPrev.wavPlayer c) = true /\
  ClientPrev._handleDataAvailable toy_encode [1%Z] c = (Return tt, c, []).
Proof.
  cbv zeta. split; [reflexivity|].
  exact (proj2 (@speech_during_playback_is_not_sent toy_encode [1%Z]
                  (ClientPrev.set_wavPlayer
                     (mkPlayer 16000%float true true true [] true)
                     ClientPrev.new_LayercodeClient)
                  eq_refl eq_refl eq_refl)).
Defined.

Lemma model_timeout_opens_the_gate_witness :
  ClientPrev.pushToTalkEnabled ClientPrev.new_LayercodeClient = false /\
  state_of (ClientPrev.vad_model_timeout ClientPrev.new_LayercodeClient)
  = ClientPrev.set_userIsSpeaking true ClientPrev.new_LayercodeClient.
Proof.
  split; [reflexivity|].
  exact (proj1 (@model_timeout_opens_the_gate toy_encode [1%Z]
                  ClientPrev.new_LayercodeClient eq_refl)).
Defined.

(* ------------------------------------------------------------------ *)
(** * Disconnecting, in the revision of src/src/index.ts               *)
(* ------------------------------------------------------------------ *)

(** A socket whose close event is still to come. *)
Definition closes_later (w : option WebSocket) : nat :=
  match w with
  | Some {| readyState := CLOSED |} | None => 0
  | Some _ => 1
  end.

Definition is_new_socket (e : Effect) : bool :=
  match e with WsNew => true | _ => false end.

(** Every [onDisconnect] uses up a socket: one that was there before or
    one made since. *)
Definition once_per_socket (before : option WebSocket) (t : list Effect)
    (after : option WebSocket) : Prop :=
  closes_later after + count is_disconnect_callback t
  <= closes_later before + count is_new_socket t.

#[global] Instance once_per_socket_composes : Composes once_per_socket.
Proof.
  split; unfold once_per_socket.
  - intros x. unfold count. cbn. lia.
  - intros x t1 y t2 z H1 H2. rewrite !count_app. lia.
Qed.

Lemma once_neutral : forall e,
  is_disconnect_callback e = false -> neutral once_per_socket e.
Proof.
  intros e He x. unfold once_per_socket, count. cbn [filter]. rewrite He.
  destruct (is_new_socket e); cbn; lia.
Qed.

Ltac once_side :=
  first [ intros ? ?; reflexivity
        | intro; reflexivity
        | apply once_neutral; reflexivity
        | let e := fresh "e" in let He := fresh "He" in
          intros e He; apply once_neutral;
          destruct e; try discriminate He; reflexivity ].

Lemma once_disconnect :
  respects ClientPrev.ws once_per_socket ClientPrev.disconnect.
Proof.
  intros c. destruct c as [pl v w st pta vpp pte ci uis].
  unfold ClientPrev.disconnect, ClientPrev.on_player, Player.disconnect.
  js_unfold. unfold once_per_socket, count.
  destruct w as [[[]]|]; cbn; lia.
Qed.

#[global] Hint Resolve once_disconnect : respects.

Section OnceRuns.
Variable arrayBufferToBase64 : Int16Array -> string.
Variable base64ToArrayBuffer : value -> Outcome ArrayBuffer.

Let fire := ClientPrev.fire arrayBufferToBase64 base64ToArrayBuffer.
Let run := ClientPrev.run arrayBufferToBase64 base64ToArrayBuffer.

Definition page_socket (p : ClientPrev.Page) : option WebSocket :=
  ClientPrev.ws (ClientPrev.self p).

Lemma once_on_self : forall A (m : M ClientPrev.LayercodeClient A),
  respects ClientPrev.ws once_per_socket m ->
  respects page_socket once_per_socket (ClientPrev.on_self m).
Proof.
  intros A m Hm. unfold ClientPrev.on_self.
  apply (@respects_lift _ _ _ _ ClientPrev.ws once_per_socket
           ClientPrev.self ClientPrev.set_self m Hm).
  reflexivity.
Qed.

(** Making the socket: [new WebSocket] and the assignment to [this.ws]. *)
Lemma once_new_socket : forall A (k : M ClientPrev.Page A),
  respects page_socket once_per_socket k ->
  respects page_socket once_per_socket
    (emit WsNew ;;
     ClientPrev.on_self
       (modify (ClientPrev.set_ws (Some {| readyState := CONNECTING |}))) ;;
     k).
Proof.
  intros A k Hk p. unfold bind, emit, ClientPrev.on_self, lift, modify.
  cbn [fst snd].
  specialize (Hk (ClientPrev.set_self
                    (ClientPrev.set_ws (Some {| readyState := CONNECTING |})
                       (ClientPrev.self p)) p)).
  unfold trace_of, state_of in *.
  destruct (k _) as [[o p2] t2]. cbn [fst snd] in *.
  unfold once_per_socket, page_socket in *. cbn in Hk.
  rewrite !count_app.
  change (count is_disconnect_callback [WsNew]) with 0.
  change (count is_disconnect_callback []) with 0.
  change (count is_new_socket [WsNew]) with 1.
  change (count is_new_socket []) with 0.
  lia.
Qed.

(** Socket events of sockets that an earlier [connect()] made. *)
Definition is_stale (e : ClientPrev.Event) : bool :=
  match e with ClientPrev.socket false _ => true | _ => false end.

Lemma once_fire : forall e,
  is_stale e = false ->
  respects page_socket once_per_socket (fire e).
Proof.
  intros e He. destruct e; try discriminate He;
    unfold fire, ClientPrev.fire.
  all: try solve [respects_with once_side
                    ltac:(first [ apply once_on_self
                                | apply once_new_socket ])].
  (* an event of the socket in [this.ws] *)
  destruct current; [clear He | discriminate He].
  destruct e; cbn [negb orb when];
    try solve [respects_with once_side ltac:(apply once_on_self)].
  - (* open: only a connecting socket opens *)
    intros [c sid timeouts next].
    destruct c as [pl v w st pta vpp pte ci uis].
    unfold page_socket, once_per_socket, count.
    unfold ClientPrev.on_self, ClientPrev.set_readyState, ClientPrev.ws_onopen,
      ClientPrev._setStatus.
    js_unfold. destruct w as [[[]]|]; cbn; lia.
  - (* close: a socket closes once *)
    intros [c sid timeouts next].
    destruct c as [pl v w st pta vpp pte ci uis].
    unfold page_socket, once_per_socket, count.
    unfold ClientPrev.on_self, ClientPrev.set_readyState, ClientPrev.ws_onclose,
      ClientPrev._setStatus.
    js_unfold. destruct w as [[[]]|]; cbn; lia.
Qed.

(** X26 (src/src/index.ts). [onDisconnect] is called at most once per
    socket.  In this revision [disconnect()] calls no callback itself:
    [onDisconnect] runs only when the socket's close event arrives.
    Over any sequence of events of the current socket, calls and
    callbacks, however often [disconnect()] is called, the number of
    [onDisconnect] calls is at most the number of sockets made, plus one
    if a socket was there at the start and had not closed. *)
Theorem disconnect_callback_once_per_socket :
  forall (events : list ClientPrev.Event) (p : ClientPrev.Page),
    existsb is_stale events = false ->
    let r := run events p in
    count is_disconnect_callback (snd r)
    <= closes_later (page_socket p) + count is_new_socket (snd r) /\
    count is_disconnect_callback
      (trace_of (ClientPrev.disconnect (ClientPrev.self p))) = 0.
Proof.
  intros events p Hev. cbv zeta. split.
  - assert (H : once_per_socket (page_socket p) (snd (run events p))
                  (page_socket (fst (run events p)))).
    { revert p. induction events as [|e events IH]; intros p.
      - apply composes_nil.
      - cbn [existsb] in Hev. apply orb_false_elim in Hev as [He Hev].
        pose proof (once_fire e He p) as Hf.
        specialize (IH Hev (state_of (fire e p))).
        change (run (e :: events) p)
          with (match fire e p with
                | (_, p1, t1) =>
                    match run events p1 with
                    | (p2, t2) => (p2, t1 ++ t2)
                    end
                end).
        unfold trace_of, state_of in *.
        destruct (fire e p) as [[o p1] t1]. cbn [fst snd] in *.
        destruct (run events p1) as [p2 t2]. cbn [fst snd] in *.
        eapply composes_app; eauto. }
    unfold once_per_socket in H. lia.
  - destruct p as [c sid timeouts next].
    destruct c as [pl v w st pta vpp pte ci uis].
    unfold ClientPrev.disconnect, ClientPrev.on_player, Player.disconnect.
    js_unfold. destruct w as [[[]]|]; reflexivity.
Qed.
End OnceRuns.

Lemma disconnect_callback_once_per_socket_witness :
  let events := [ClientPrev.call_disconnect; ClientPrev.call_disconnect;
                 ClientPrev.socket true Client.sock_close] in
  let p := ClientPrev.mkPage
             (ClientPrev.set_ws (Some {| readyState := OPEN |})
                ClientPrev.new_LayercodeClient) VNull [] 0 in
  existsb is_stale events = false /\
  count is_disconnect_callback
    (snd (ClientPrev.run toy_encode toy_decode events p)) <= 1.
Proof.
  cbv zeta. split; [reflexivity|].
  exact (proj1 (@disconnect_callback_once_per_socket toy_encode toy_decode
                  [ClientPrev.call_disconnect; ClientPrev.call_disconnect;
                   ClientPrev.socket true Client.sock_close]
                  (ClientPrev.mkPage
                     (ClientPrev.set_ws (Some {| readyState := OPEN |})
                        ClientPrev.new_LayercodeClient) VNull [] 0)
                  eq_refl)).
Defined.
